(** * PasPages core: Registry, Validator, Database wrapper, Migrator,
      ViewEngine, admin migration sweep and homepage router.

    A shallow embedding of the TypeScript sources (the classes
    [Registry], [Validator], [Database], [Migrator] and [ViewEngine], the
    constant [CONFIG], the handler of [POST /admin/system/migrate] and the
    handler of [GET /]) together with the properties the design document
    states about them; and of the code around them (the class [I18n], the
    module loader with the mount functions of four shipped modules, the
    admin shell with the handlers of [/setup], [/settings] and
    [/settings/storage], the driver choice of [StorageManager], and the
    slugs, tag lists and theme resolver of the blog and pages plugins)
    with the properties that code shows.

    Conventions of the embedding.
    - A JavaScript string is the list of its code units, each below 256
      ([string]): white space, letter case, digits and comparison are
      those of JavaScript on such text.
    - A JavaScript object used as a dictionary is a [gmap] when only
      lookups matter (the Registry tables) and an ordered property list
      when the enumeration order of [Object.keys] matters (the data bag of
      the view engine).  A [gmap] holds the own properties only: a read
      under a name that [Object.prototype] defines ([JS.inherited]) and
      that was never written finds the inherited member in the code and
      nothing in the [gmap], so the statements about views and
      translations are made for the other names, or for names that were
      written.
    - [async] code runs to completion without interleaving; it is written
      in a state-and-exception monad over the [World]: the D1 database,
      the log of D1 calls, the process-wide Registry and the clock.
    - The Cloudflare D1 binding is an external collaborator: it is a
      record of operations [D1Database] over an abstract store.
    - The router is not modelled: a handler is the function from its
      request to its response, and of a mount function only what it does
      to the Registry is kept. *)

From stdpp Require Import base gmap strings list pretty.
From Stdlib Require Import ZArith Ascii.

Local Open Scope Z_scope.

(* ====================================================================== *)
(** ** JavaScript primitives used by the sources *)
(* ====================================================================== *)

Module JS.

(** *** Numbers produced by [parseInt] *)

(** An integral IEEE-754 double, [NaN], or an infinity.  [-0] and [+0]
    are both [Finite 0]: [===] does not tell them apart. *)
Inductive number : Type :=
| NaN
| Finite (z : Z)
| Infinite (negative : bool).

(** [a === b] on numbers: [NaN] differs from everything, itself included. *)
Definition strict_eq (a b : number) : bool :=
  match a, b with
  | Finite x, Finite y => x =? y
  | Infinite s, Infinite t => Bool.eqb s t
  | _, _ => false
  end.

(** The double nearest to the integer [m] (round to nearest, ties to
    even); magnitudes from [2^1024] on become an infinity. *)
Definition to_double (m : Z) : number :=
  let a := Z.abs m in
  if a <? 2 ^ 53 then Finite m
  else
    let e := Z.log2 a - 52 in
    let q := a / 2 ^ e in
    let r := a mod 2 ^ e in
    let half := 2 ^ (e - 1) in
    let q' := if (half <? r) || ((r =? half) && Z.odd q) then q + 1 else q in
    let v := q' * 2 ^ e in
    if 2 ^ 1024 <=? v then Infinite (m <? 0) else Finite (Z.sgn m * v).

(** *** Characters *)

Definition code (c : ascii) : Z := Z.of_nat (nat_of_ascii c).

(** [StrWhiteSpaceChar] among the code units below 256: TAB, LF, VT,
    FF, CR, SP and the no-break space U+00A0. *)
Definition is_space (c : ascii) : bool :=
  ((9 <=? code c) && (code c <=? 13)) || (code c =? 32) || (code c =? 160).

Definition is_digit (c : ascii) : bool := (48 <=? code c) && (code c <=? 57).

Definition is_letter (c : ascii) : bool :=
  ((65 <=? code c) && (code c <=? 90)) || ((97 <=? code c) && (code c <=? 122)).

(** [\w] of a regular expression: letter, digit or underscore. *)
Definition is_word_char (c : ascii) : bool :=
  is_letter c || is_digit c || (code c =? 95).

(** The value of [c] as a digit in [radix], when it is one. *)
Definition digit_value (radix : Z) (c : ascii) : option Z :=
  let n := code c in
  let d :=
    if is_digit c then Some (n - 48)
    else if (97 <=? n) && (n <=? 122) then Some (n - 87)
    else if (65 <=? n) && (n <=? 90) then Some (n - 55)
    else None in
  match d with
  | Some v => if v <? radix then Some v else None
  | None => None
  end.

(** *** Strings *)

Definition truthy (s : string) : bool :=
  match s with EmptyString => false | String _ _ => true end.

Fixpoint all_chars (p : ascii → bool) (s : string) : bool :=
  match s with
  | EmptyString => true
  | String c s' => p c && all_chars p s'
  end.

Fixpoint drop (n : nat) (s : string) : string :=
  match n, s with
  | O, _ => s
  | S n', String _ s' => drop n' s'
  | S _, EmptyString => EmptyString
  end.

(** [s.startsWith(p)] *)
Fixpoint startsWith (p s : string) : bool :=
  match p, s with
  | EmptyString, _ => true
  | String a p', String b s' => Ascii.eqb a b && startsWith p' s'
  | String _ _, EmptyString => false
  end.

(** [s.includes(sub)] *)
Fixpoint includes (sub s : string) : bool :=
  startsWith sub s ||
  match s with
  | EmptyString => false
  | String _ s' => includes sub s'
  end.

Fixpoint trimStart (s : string) : string :=
  match s with
  | EmptyString => EmptyString
  | String c s' => if is_space c then trimStart s' else s
  end.

Definition trimEnd (s : string) : string := String.rev (trimStart (String.rev s)).

(** [s.trim()] *)
Definition trim (s : string) : string := trimEnd (trimStart s).

(** [s.split(sep)] for a one-character separator: never empty, and
    [''.split(sep)] is [['']]. *)
Fixpoint split (sep : ascii) (s : string) : list string :=
  match s with
  | EmptyString => [EmptyString]
  | String c s' =>
      if Ascii.eqb c sep then EmptyString :: split sep s'
      else match split sep s' with
           | h :: t => String c h :: t
           | [] => [String c EmptyString]
           end
  end.

(** [arr.join(sep)] *)
Fixpoint join (sep : string) (l : list string) : string :=
  match l with
  | [] => EmptyString
  | [x] => x
  | x :: l' => x +:+ sep +:+ join sep l'
  end.

(** *** [parseInt(string)] with no radix argument *)

(** The value of the longest prefix of radix-[radix] digits; [None]
    when [s] does not start with a digit. *)
Fixpoint digits_prefix (radix : Z) (acc : option Z) (s : string) : option Z :=
  match s with
  | EmptyString => acc
  | String c s' =>
      match digit_value radix c with
      | Some d => digits_prefix radix (Some (radix * default 0 acc + d)) s'
      | None => acc
      end
  end.

Definition parseInt (input : string) : number :=
  let s := trimStart input in
  let '(negative, s) :=
    match s with
    | String "-" r => (true, r)
    | String "+" r => (false, r)
    | _ => (false, s)
    end in
  let '(radix, s) :=
    match s with
    | String "0" (String "x" r) => (16, r)
    | String "0" (String "X" r) => (16, r)
    | _ => (10, s)
    end in
  match digits_prefix radix None s with
  | None => NaN
  | Some m => to_double (if negative : bool then - m else m)
  end.

(** *** [String.prototype.replace] *)

(** [GetSubstitution] for a match without capture groups: in the
    replacement text [$$] is a dollar sign, [$&] the matched text,
    [$`] the text before the match and [$'] the text after it; every
    other character, a lone [$] included, stands for itself. *)
Fixpoint getSubstitution (matched before after : string) (tpl : string) : string :=
  match tpl with
  | EmptyString => EmptyString
  | String c rest =>
      if Ascii.eqb c "$" then
        match rest with
        | String d rest' =>
            if Ascii.eqb d "$" then String "$" (getSubstitution matched before after rest')
            else if Ascii.eqb d "&" then matched +:+ getSubstitution matched before after rest'
            else if Ascii.eqb d "`" then before +:+ getSubstitution matched before after rest'
            else if Ascii.eqb d "'" then after +:+ getSubstitution matched before after rest'
            else String c (getSubstitution matched before after rest)
        | EmptyString => String c EmptyString
        end
      else String c (getSubstitution matched before after rest)
  end.

(** [s.replace(pat, repl)] for a non-empty string pattern: the first
    occurrence only.  [before] is the text already passed. *)
Fixpoint replace_first_from (pat repl before s : string) : string :=
  match s with
  | EmptyString => EmptyString
  | String c s' =>
      if startsWith pat s
      then getSubstitution pat before (drop (String.length pat) s) repl
             +:+ drop (String.length pat) s
      else String c (replace_first_from pat repl (before +:+ String c EmptyString) s')
  end.

Definition replace_first (pat repl s : string) : string :=
  replace_first_from pat repl EmptyString s.

(** [s.replace(re, repl)] for a global regular expression [re] that
    matches exactly the non-empty text [pat]: every occurrence, found
    left to right without overlap.  [skip] counts the characters of
    the current match still to pass. *)
Fixpoint replace_all_from (pat repl : string) (skip : nat) (before s : string) : string :=
  match s with
  | EmptyString => EmptyString
  | String c s' =>
      match skip with
      | S k => replace_all_from pat repl k (before +:+ String c EmptyString) s'
      | O =>
          if startsWith pat s
          then getSubstitution pat before (drop (String.length pat) s) repl
                 +:+ replace_all_from pat repl (String.length pat - 1)
                       (before +:+ String c EmptyString) s'
          else String c (replace_all_from pat repl 0 (before +:+ String c EmptyString) s')
      end
  end.

Definition replace_all (pat repl s : string) : string :=
  replace_all_from pat repl 0 EmptyString s.

(** A letter or underscore followed by letters, digits and
    underscores. *)
Definition is_identifier (k : string) : bool :=
  match k with
  | EmptyString => false
  | String c r => (is_letter c || (code c =? 95)) && all_chars is_word_char r
  end.

(** *** The source of a regular expression (no [u] or [v] flag) *)

(** The characters that are syntax wherever they stand outside a class:
    [\ ^ $ . * + ? ( ) [ |].  Braces and []] are not among them: they
    stand for themselves where no quantifier can be read. *)
Definition is_syntax_char (c : ascii) : bool :=
  bool_decide (c ∈ ["\"; "^"; "$"; "."; "*"; "+"; "?"; "("; ")"; "["; "|"]%char).

Fixpoint skip_digits (s : string) : string :=
  match s with
  | EmptyString => EmptyString
  | String c s' => if is_digit c then skip_digits s' else s
  end.

(** Whether [s] starts with a braced quantifier: [{n}], [{n,}] or
    [{n,m}]. *)
Definition quantifier_at (s : string) : bool :=
  match s with
  | String "{" r =>
      match r with
      | String d _ =>
          is_digit d &&
          match skip_digits r with
          | String "}" _ => true
          | String "," r' =>
              match skip_digits r' with
              | String "}" _ => true
              | _ => false
              end
          | _ => false
          end
      | EmptyString => false
      end
  | _ => false
  end.

(** A source every character of which stands for itself: the regular
    expression built from it matches exactly the text of the source. *)
Fixpoint literal_source (s : string) : bool :=
  match s with
  | EmptyString => true
  | String c s' => negb (is_syntax_char c) && negb (quantifier_at s) && literal_source s'
  end.

Fixpoint repeat_char (n : nat) (c : ascii) (s : string) : string :=
  match n with
  | O => s
  | S n' => String c (repeat_char n' c s)
  end.

(** [.] matches every code unit but the line terminators LF and CR. *)
Definition dot_matches (c : ascii) : bool := negb ((code c =? 10) || (code c =? 13)).

(** For a source made of dots and of characters that stand for
    themselves: the text it matches at the start of [s], if any. *)
Fixpoint match_dotted (source s : string) : option string :=
  match source, s with
  | EmptyString, _ => Some EmptyString
  | String p source', String c s' =>
      if (if Ascii.eqb p "." then dot_matches c else Ascii.eqb p c)
      then String c <$> match_dotted source' s'
      else None
  | String _ _, EmptyString => None
  end.

(** [s.replace(re, repl)] for the global regular expression of such a
    non-empty source: every match, found left to right without
    overlap. *)
Fixpoint replace_dotted_from (source repl : string) (skip : nat) (before s : string)
  : string :=
  match s with
  | EmptyString => EmptyString
  | String c s' =>
      match skip with
      | S k => replace_dotted_from source repl k (before +:+ String c EmptyString) s'
      | O =>
          match match_dotted source s with
          | Some matched =>
              getSubstitution matched before (drop (String.length source) s) repl
                +:+ replace_dotted_from source repl (String.length source - 1)
                      (before +:+ String c EmptyString) s'
          | None =>
              String c (replace_dotted_from source repl 0 (before +:+ String c EmptyString) s')
          end
      end
  end.

Definition replace_dotted (source repl s : string) : string :=
  replace_dotted_from source repl 0 EmptyString s.

(** The source with a letter in place of every dot. *)
Fixpoint undot (s : string) : string :=
  match s with
  | EmptyString => EmptyString
  | String c s' => String (if Ascii.eqb c "." then "a"%char else c) (undot s')
  end.

(** *** Names every object inherits *)

(** The properties of [Object.prototype]: the accessor [__proto__] and
    eleven functions.  [o[name]] finds them when [o] has no property
    [name] of its own. *)
Definition prototype_members : list string :=
  [ "constructor"; "__defineGetter__"; "__defineSetter__"; "hasOwnProperty";
    "__lookupGetter__"; "__lookupSetter__"; "isPrototypeOf";
    "propertyIsEnumerable"; "toString"; "valueOf"; "__proto__"; "toLocaleString" ].

Definition inherited (name : string) : bool := bool_decide (name ∈ prototype_members).

(** *** Objects whose key order matters *)

(** The own properties of an object, in the order [Object.keys] lists
    them. *)
Definition object (V : Type) : Type := list (string * V).

Fixpoint get {V} (o : object V) (k : string) : option V :=
  match o with
  | [] => None
  | (k', v) :: o' => if String.eqb k' k then Some v else get o' k
  end.

(** [o[k] = v]: an existing key keeps its place, a new key goes last. *)
Fixpoint set {V} (k : string) (v : V) (o : object V) : object V :=
  match o with
  | [] => [(k, v)]
  | (k', v') :: o' => if String.eqb k' k then (k, v) :: o' else (k', v') :: set k v o'
  end.

Definition keys {V} (o : object V) : list string := o.*1.

End JS.

Local Open Scope string_scope.

(** The double-quote character, for markup that carries attributes. *)
Definition dq : string := String (ascii_of_nat 34) EmptyString.

(** [o || fallback] for a string that may be [undefined]. *)
Definition or_else (o : option string) (fallback : string) : string :=
  match o with
  | Some s => if JS.truthy s then s else fallback
  | None => fallback
  end.

(** Truthiness of a string that may be [undefined]. *)
Definition present (o : option string) : bool :=
  match o with
  | Some s => JS.truthy s
  | None => false
  end.

(** How a template literal prints a string that may be [undefined]. *)
Definition show (o : option string) : string := default "undefined" o.

(* ====================================================================== *)
(** ** [CONFIG] (imported from [hono.config]) *)
(* ====================================================================== *)

Record Config : Type := mkConfig {
  CORE_VERSION : string;
  corsOrigin : string;
  defaultLocale : string
}.

(** The configuration the repository ships. *)
Definition CONFIG : Config :=
  {| CORE_VERSION := "1.0.0"; corsOrigin := "*"; defaultLocale := "en" |}.

(* ====================================================================== *)
(** ** [class Validator] (imported from [core/validator]) *)
(* ====================================================================== *)

Module Validator.

(** A manifest as the loader receives it: any field may be missing. *)
Record ModuleManifest : Type := mkManifest {
  m_type : option string;
  m_slug : option string;
  m_name : option string;
  m_version : option string;
  m_requires : option string;
  m_minCoreVersion : option string
}.

Record PasPagesModule : Type := mkModule {
  manifest : option ModuleManifest
}.

Record ValidationResult : Type := mkResult {
  isValid : bool;
  error : option string
}.

Section WithConfig.
(** The configuration of the running core ([CONFIG] in the sources). *)
Variable config : Config.

(** The [try] block cannot throw on a string, so the [catch] branch
    ([return false]) is never taken. *)
Definition isCompatible (requiredVersion : string) : bool :=
  let coreParts := JS.split "." (CORE_VERSION config) in
  let reqParts := JS.split "." requiredVersion in
  let coreMajor := from_option JS.parseInt JS.NaN (head coreParts) in
  let reqMajor := from_option JS.parseInt JS.NaN (head reqParts) in
  JS.strict_eq coreMajor reqMajor.

Definition validate (module : option PasPagesModule) (type : option string)
  : ValidationResult :=
  match module with
  | None => mkResult false (Some "Manifest is missing or module is undefined")
  | Some module_ =>
    match manifest module_ with
    | None => mkResult false (Some "Manifest is missing or module is undefined")
    | Some mf =>
      let slug := m_slug mf in
      let version := m_version mf in
      let mType := m_type mf in
      let requires := m_requires mf in
      if negb (present slug) || negb (present version) then
        mkResult false
          (Some ("Invalid manifest structure in " +:+ or_else slug "unknown"))
      else if negb (bool_decide (mType = type)) then
        mkResult false
          (Some ("Type mismatch for " +:+ show slug +:+ ". Expected "
                   +:+ show type +:+ ", got " +:+ show mType))
      else if negb (present requires) then
        mkResult false
          (Some ("STRICT MODE: Module " +:+ show slug
                   +:+ " MUST define 'requires' version."))
      else if negb (isCompatible (default "" requires)) then
        mkResult false
          (Some ("Incompatible Version. " +:+ show slug +:+ " requires v"
                   +:+ show requires +:+ ", Core is v" +:+ CORE_VERSION config))
      else mkResult true None
    end
  end.
End WithConfig.

End Validator.

(* ====================================================================== *)
(** ** [class Registry] (imported from [core/registry]) *)
(* ====================================================================== *)

Module Registry.

Record AdminMenuItem : Type := mkMenu {
  title : string;
  path : string;
  category : string;
  icon : option string;
  order : option Z
}.

Record MigrationSchema : Type := mkSchema {
  slug : string;
  version : string;
  sql : string;
  schema : option string
}.

(** The static fields of the class: the state of the process-wide
    registry. *)
Record t : Type := mkRegistry {
  menus : list AdminMenuItem;
  schemas : list MigrationSchema;
  templates : gmap string string;
  activeTheme : string;
  pluginList : list string;
  systemLogs : list string;
  translations : gmap string (gmap string string)
}.

(** The field initialisers. *)
Definition initial : t :=
  {| menus := []; schemas := []; templates := ∅; activeTheme := "nebula";
     pluginList := []; systemLogs := [];
     translations := <["en" := ∅]> (<["id" := ∅]> ∅) |}.

(** *** Logging.  [time] is the [HH:MM:SS] part of [new Date()]. *)

Definition log (time : string) (message : string) (r : t) : t :=
  let logEntry := "[" +:+ time +:+ "] " +:+ message in
  {| menus := menus r; schemas := schemas r; templates := templates r;
     activeTheme := activeTheme r; pluginList := pluginList r;
     systemLogs := systemLogs r ++ [logEntry];
     translations := translations r |}.

Definition getLogs (r : t) : list string := systemLogs r.

(** *** Menus *)

Definition registerMenu (menu : AdminMenuItem) (r : t) : t :=
  {| menus := menus r ++ [menu]; schemas := schemas r; templates := templates r;
     activeTheme := activeTheme r; pluginList := pluginList r;
     systemLogs := systemLogs r; translations := translations r |}.

Definition getMenus (category_ : option string) (r : t) : list AdminMenuItem :=
  if present category_
  then filter (λ m, category m = default "" category_) (menus r)
  else menus r.

(** *** Schemas *)

Definition registerSchema (time : string) (slug_ version_ sql_ : string) (r : t) : t :=
  log time ("Schema registered: " +:+ slug_ +:+ " v" +:+ version_)
    {| menus := menus r;
       schemas := schemas r ++ [mkSchema slug_ version_ sql_ (Some sql_)];
       templates := templates r; activeTheme := activeTheme r;
       pluginList := pluginList r; systemLogs := systemLogs r;
       translations := translations r |}.

Definition getSchemas (r : t) : list MigrationSchema := schemas r.

Definition getSchema (slug_ : string) (r : t) : option MigrationSchema :=
  list_find (λ s, slug s = slug_) (schemas r) ≫= λ p, Some p.2.

(** *** Templates *)

Definition with_templates (tpl : gmap string string) (r : t) : t :=
  {| menus := menus r; schemas := schemas r; templates := tpl;
     activeTheme := activeTheme r; pluginList := pluginList r;
     systemLogs := systemLogs r; translations := translations r |}.

(** [this.templates[key] || null]: an empty template reads as [null]. *)
Definition template_or_null (r : t) (key : string) : option string :=
  match templates r !! key with
  | Some html => if JS.truthy html then Some html else None
  | None => None
  end.

Definition getThemeView (theme view : string) (r : t) : option string :=
  let key := theme +:+ ":" +:+ view in
  template_or_null r key.

Definition registerThemeView (theme view html : string) (r : t) : t :=
  let r1 := with_templates (<[theme +:+ ":" +:+ view := html]> (templates r)) r in
  if bool_decide (view = "landing")
  then with_templates (<["landing" := html]> (templates r1)) r1
  else r1.

(** [this.templates[name] = html].  Under the name [__proto__] the
    assignment goes to the setter of [Object.prototype], which ignores a
    string: nothing is stored. *)
Definition registerView (name html : string) (r : t) : t :=
  if bool_decide (name = "__proto__") then r
  else with_templates (<[name := html]> (templates r)) r.

(** The keys read are [activeTheme:view], which holds a colon and so is
    no name of [Object.prototype], and [view] itself: for a [view] that
    [JS.inherited] names and that was never registered the code finds
    the inherited member where this definition finds nothing. *)
Definition getView (view : string) (r : t) : option string :=
  let themeScoped := activeTheme r +:+ ":" +:+ view in
  if present (templates r !! themeScoped)
  then templates r !! themeScoped
  else template_or_null r view.

Definition setActiveTheme (time : string) (name : string) (r : t) : t :=
  log time ("Theme switched to: " +:+ name)
    {| menus := menus r; schemas := schemas r; templates := templates r;
       activeTheme := name; pluginList := pluginList r;
       systemLogs := systemLogs r; translations := translations r |}.

Definition getActiveThemeName (r : t) : string := activeTheme r.

(** *** Plugins *)

Definition registerPlugin (time : string) (name : string) (r : t) : t :=
  if bool_decide (name ∈ pluginList r) then r
  else
    log time ("Plugin mounted: " +:+ name)
      {| menus := menus r; schemas := schemas r; templates := templates r;
         activeTheme := activeTheme r; pluginList := pluginList r ++ [name];
         systemLogs := systemLogs r; translations := translations r |}.

Definition getPluginCount (r : t) : nat := length (pluginList r).

(** *** Translations *)

(** The table of tables still has [Object.prototype] as its prototype:
    nothing was registered under the locale name [__proto__] (an
    assignment to it installs the merged table as the prototype of
    [translations], from which every unregistered locale then reads). *)
Definition prototype_intact (r : t) : Prop := translations r !! "__proto__" = None.

(** [{ ...old, ...data }] is [data ∪ old]: the union of [gmap] prefers
    its left operand.  The three functions below are those of the code
    on a registry whose [prototype_intact] holds, for a locale that
    [JS.inherited] does not name, and for a key that it does not name or
    that the table holds. *)
Definition registerTranslation (locale : string) (data : gmap string string) (r : t) : t :=
  let current := default ∅ (translations r !! locale) in
  {| menus := menus r; schemas := schemas r; templates := templates r;
     activeTheme := activeTheme r; pluginList := pluginList r;
     systemLogs := systemLogs r;
     translations := <[locale := data ∪ current]> (translations r) |}.

Definition getTranslation (locale key : string) (r : t) : option string :=
  match translations r !! locale with
  | Some table =>
      match table !! key with
      | Some text => if JS.truthy text then Some text else None
      | None => None
      end
  | None => None
  end.

Definition getTranslations (locale : string) (r : t) : gmap string string :=
  default ∅ (translations r !! locale).

End Registry.

(* ====================================================================== *)
(** ** Effects: exceptions, the D1 binding, the world *)
(* ====================================================================== *)

(** The outcome of a computation that may throw; a thrown value is
    represented by its [message]. *)
Inductive Res (A : Type) : Type :=
| Ok (a : A)
| Throw (message : string).
Arguments Ok {A} a.
Arguments Throw {A} message.

(** A value bound to a query or read from a column.  Numbers are
    integers of magnitude below [10^21], which JavaScript prints in plain
    decimal digits. *)
Inductive Val : Type :=
| VUndef
| VNull
| VStr (s : string)
| VInt (z : Z).

Definition val_truthy (v : Val) : bool :=
  match v with
  | VUndef | VNull => false
  | VStr s => JS.truthy s
  | VInt z => negb (Z.eqb z 0)
  end.

(** [String(v)] *)
Definition val_to_string (v : Val) : string :=
  match v with
  | VUndef => "undefined"
  | VNull => "null"
  | VStr s => s
  | VInt z => pretty z
  end.

(** A record of a result set: column name to value. *)
Definition Row : Type := JS.object Val.

(** [row.column]; a missing column reads as [undefined]. *)
Definition column (row : Row) (name : string) : Val := default VUndef (JS.get row name).

(** [row?.column] *)
Definition column_opt (row : option Row) (name : string) : Val :=
  match row with
  | Some r => column r name
  | None => VUndef
  end.

(** What the sources do with a duration (a floating-point number of
    milliseconds): [d || 0], [a + b] and [d.toFixed(4)]. *)
Class Duration (D : Type) : Type := {
  dzero : D;
  dadd : D → D → D;
  dtruthy : D → bool;
  toFixed4 : D → string
}.

(** [d || 0] for a duration that may be [undefined]. *)
Definition or_zero {D} `{Duration D} (d : option D) : D :=
  match d with
  | Some x => if dtruthy x then x else dzero
  | None => dzero
  end.

Record D1Meta (D : Type) : Type := mkMeta {
  meta_duration : D;
  meta_changes : Z;
  meta_last_row_id : Z;
  meta_served_by : string
}.
Arguments mkMeta {D}.

Record D1Result (D : Type) : Type := mkD1Result {
  meta : option (D1Meta D)
}.
Arguments mkD1Result {D}.
Arguments meta {D}.

(** The D1 binding over a store [S].  Every operation returns the outcome
    and the store it leaves behind.
    - [d1_first q ps]: [prepare(q).bind(...ps).first()], a record or [null];
    - [d1_all q ps]: [prepare(q).bind(...ps).all()], its [results] if any;
    - [d1_run q ps]: [prepare(q).bind(...ps).run()];
    - [d1_exec stmt]: [exec(stmt)], the [duration] of its result if any;
    - [d1_batch stmts]: [batch(stmts.map(prepare))], per statement the
      [meta.duration] of its result if any. *)
Record D1Database (S D : Type) : Type := mkD1 {
  d1_first : string → list Val → S → Res (option Row) * S;
  d1_all : string → list Val → S → Res (option (list Row)) * S;
  d1_run : string → list Val → S → Res (D1Result D) * S;
  d1_exec : string → S → Res (option D) * S;
  d1_batch : list string → S → Res (list (option D)) * S
}.
Arguments d1_first {S D}.
Arguments d1_all {S D}.
Arguments d1_run {S D}.
Arguments d1_exec {S D}.
Arguments d1_batch {S D}.

(** A call that reached the D1 binding. *)
Inductive D1Call : Type :=
| CallFirst (query : string) (params : list Val)
| CallAll (query : string) (params : list Val)
| CallRun (query : string) (params : list Val)
| CallExec (statement : string)
| CallBatch (statements : list string).

Global Instance Val_eq_dec : EqDecision Val.
Proof. solve_decision. Defined.
Global Instance D1Call_eq_dec : EqDecision D1Call.
Proof. solve_decision. Defined.

(** [new Date()]: the [HH:MM:SS] part of its ISO form and its year. *)
Record Clock : Type := mkClock {
  hhmmss : string;
  fullYear : Z
}.

(** Everything a request handler can read or change: the D1 store, the
    calls made to it so far (oldest first), the Registry, the clock, and
    [logs], the array a handler builds for its response (it lives on the
    heap, so what was pushed before a throw is still there in the
    [catch] block). *)
Record World (S : Type) : Type := mkWorld {
  db : S;
  calls : list D1Call;
  registry : Registry.t;
  clock : Clock;
  logs : list string
}.
Arguments mkWorld {S}.
Arguments db {S}.
Arguments calls {S}.
Arguments registry {S}.
Arguments clock {S}.
Arguments logs {S}.

(** Computations over the world. *)
Definition M (S A : Type) : Type := World S → Res A * World S.

Definition ret {S A} (a : A) : M S A := λ w, (Ok a, w).

Definition bind {S A B} (m : M S A) (k : A → M S B) : M S B :=
  λ w, match m w with
       | (Ok a, w') => k a w'
       | (Throw e, w') => (Throw e, w')
       end.

Definition throw {S A} (message : string) : M S A := λ w, (Throw message, w).

(** [try { m } catch (e) { handler(e.message) }] *)
Definition try_catch {S A} (m : M S A) (handler : string → M S A) : M S A :=
  λ w, match m w with
       | (Ok a, w') => (Ok a, w')
       | (Throw e, w') => handler e w'
       end.

Notation "x <- m ;; k" := (bind m (λ x, k))
  (at level 100, m at next level, right associativity).
Notation "m ;;; k" := (bind m (λ _, k))
  (at level 100, right associativity).

Fixpoint for_each {S A} (l : list A) (body : A → M S unit) : M S unit :=
  match l with
  | [] => ret tt
  | x :: l' => body x ;;; for_each l' body
  end.

Definition get_registry {S} : M S Registry.t := λ w, (Ok (registry w), w).

Definition get_clock {S} : M S Clock := λ w, (Ok (clock w), w).

Definition update_registry {S} (f : Registry.t → Registry.t) : M S unit :=
  λ w, (Ok tt, mkWorld (db w) (calls w) (f (registry w)) (clock w) (logs w)).

(** [Registry.log(message)] *)
Definition Registry_log {S} (message : string) : M S unit :=
  now <- get_clock ;; update_registry (Registry.log (hhmmss now) message).

Definition new_logs {S} : M S unit :=
  λ w, (Ok tt, mkWorld (db w) (calls w) (registry w) (clock w) []).

(** [logs.push(line)] *)
Definition push_log {S} (line : string) : M S unit :=
  λ w, (Ok tt, mkWorld (db w) (calls w) (registry w) (clock w) (logs w ++ [line])).

Definition get_logs {S} : M S (list string) := λ w, (Ok (logs w), w).

(** One call to the binding: the store moves on and the call is noted. *)
Definition d1_call {S A} (c : D1Call) (op : S → Res A * S) : M S A :=
  λ w, let '(r, s') := op (db w) in
       (r, mkWorld s' (calls w ++ [c]) (registry w) (clock w) (logs w)).

(* ====================================================================== *)
(** ** [class Database] (imported from [core/database]) *)
(* ====================================================================== *)

Module Database.

Record RawResult (D : Type) : Type := mkRaw {
  count : nat;
  duration : D;
  success : option bool;
  error : option string
}.
Arguments mkRaw {D}.
Arguments count {D}.
Arguments duration {D}.
Arguments success {D}.
Arguments error {D}.

Definition splitStatements (sql : string) : list string :=
  filter (λ s, (0 < String.length s)%nat) (JS.trim <$> JS.split ";" sql).

Section WithBinding.
Context {S D : Type} `{Duration D}.
Variable d1 : D1Database S D.

Definition raw (sql : string) : M S (RawResult D) :=
  if negb (JS.truthy sql) || bool_decide (JS.trim sql = "")
  then ret (mkRaw 0%nat dzero None None)
  else
    try_catch
      (let statements := splitStatements sql in
       match statements with
       | [statement] =>
           res <- d1_call (CallExec statement) (d1_exec d1 statement) ;;
           ret (mkRaw 1%nat (or_zero res) (Some true) None)
       | _ =>
           batchResults <- d1_call (CallBatch statements) (d1_batch d1 statements) ;;
           let totalDuration :=
             foldl (λ acc curr, dadd acc (or_zero curr)) dzero batchResults in
           ret (mkRaw (length batchResults) totalDuration (Some true) None)
       end)
      (λ e, ret (mkRaw 0%nat dzero (Some false) (Some e))).

Definition findOne (query : string) (params : list Val) : M S (option Row) :=
  try_catch
    (d1_call (CallFirst query params) (d1_first d1 query params))
    (λ _, ret None).

Definition findAll (query : string) (params : list Val) : M S (list Row) :=
  try_catch
    (results <- d1_call (CallAll query params) (d1_all d1 query params) ;;
     ret (default [] results))
    (λ _, ret []).

Definition run (query : string) (params : list Val) : M S (D1Result D) :=
  try_catch
    (res <- d1_call (CallRun query params) (d1_run d1 query params) ;;
     match meta res with
     | None => ret (mkD1Result (Some (mkMeta dzero 0 0 "shim")))
     | Some _ => ret res
     end)
    (λ e, throw ("Database run error: " +:+ e)).
End WithBinding.

End Database.

(* ====================================================================== *)
(** ** [class Migrator] (imported from [core/migrator]) *)
(* ====================================================================== *)

Module Migrator.

Definition CREATE_LEDGER : string :=
  "
                CREATE TABLE IF NOT EXISTS _migrations (
                    id INTEGER PRIMARY KEY AUTOINCREMENT,
                    slug TEXT NOT NULL,
                    version TEXT NOT NULL,
                    applied_at DATETIME DEFAULT CURRENT_TIMESTAMP,
                    UNIQUE(slug, version)
                );
            ".

Definition LEDGER_LOOKUP : string :=
  "SELECT id FROM _migrations WHERE slug = ? AND version = ?".

Definition LEDGER_INSERT : string :=
  "INSERT INTO _migrations (slug, version) VALUES (?, ?)".

Definition skip_line (slug version : string) : string :=
  "[SKIP] " +:+ slug +:+ " v" +:+ version +:+ " is already applied.".

Definition failed_line (slug version : string) (error : option string) : string :=
  "[ERROR] SQL Execution failed for " +:+ slug +:+ " v" +:+ version +:+ ": "
    +:+ or_else error "Unknown error".

Definition success_line (slug version duration : string) : string :=
  "[SUCCESS] " +:+ slug +:+ " v" +:+ version +:+ " applied in " +:+ duration +:+ "ms".

Definition fatal_line (slug message : string) : string :=
  "[ERROR] Fatal failure for " +:+ slug +:+ ": " +:+ message.

Section WithBinding.
Context {S D : Type} `{Duration D}.
Variable d1 : D1Database S D.

Definition initSystem : M S unit :=
  try_catch
    (Database.run d1 CREATE_LEDGER [] ;;; ret tt)
    (λ e, throw ("Migration System Init Failed: " +:+ e)).

Definition applyMigration (slug version sql : string) : M S string :=
  try_catch
    (exists_ <- Database.findOne d1 LEDGER_LOOKUP [VStr slug; VStr version] ;;
     match exists_ with
     | Some _ => ret (skip_line slug version)
     | None =>
         result <- Database.raw d1 sql ;;
         if bool_decide (Database.success result = Some false)
         then ret (failed_line slug version (Database.error result))
         else
           let duration := or_zero (Some (Database.duration result)) in
           Database.run d1 LEDGER_INSERT [VStr slug; VStr version] ;;;
           ret (success_line slug version (toFixed4 duration))
     end)
    (λ e, ret (fatal_line slug e)).
End WithBinding.

End Migrator.

(* ====================================================================== *)
(** ** Responses of the routing layer *)
(* ====================================================================== *)

Inductive Response : Type :=
| Html (body : string) (status : Z)        (* [c.html(body, status)] *)
| Text (body : string) (status : Z)        (* [c.text(body, status)] *)
| Redirect (location : string)             (* [c.redirect(location)] *)
| Json (success : option bool) (logs : list string) (status : Z).
                                           (* [c.json({ success?, logs }, status)] *)

(* ====================================================================== *)
(** ** [class ViewEngine] (imported from [core/view]) *)
(* ====================================================================== *)

Module ViewEngine.

(** What the callers put in a data bag: strings, integers (a count, a
    year; of magnitude below [10^21], printed in plain decimal digits)
    and arrays of strings. *)
Inductive DataVal : Type :=
| DStr (s : string)
| DNum (z : Z)
| DArr (items : list string).

(** [String(v)]; an array prints its items joined by commas. *)
Definition to_string (v : DataVal) : string :=
  match v with
  | DStr s => s
  | DNum z => pretty z
  | DArr items => JS.join "," items
  end.

Definition placeholder (key : string) : string := "{{" +:+ key +:+ "}}".

(** What the source [{{key}}] matches when [key] is a string of decimal
    digits: the inner brace opens the quantifier [{n}] on the outer one,
    so the expression matches [n] opening braces and one closing
    brace. *)
Definition quantified (key : string) : option string :=
  if JS.truthy key && JS.all_chars JS.is_digit key
  then Some (JS.repeat_char (Z.to_nat (default 0 (JS.digits_prefix 10 None key))) "{" "}")
  else None.

(** A key with dots in it whose other characters stand for
    themselves. *)
Definition dotted (key : string) : bool :=
  JS.includes "." key && JS.literal_source (placeholder (JS.undot key)).

Section WithRegExp.
(** [regexp source replacement text] is
    [text.replace(new RegExp(source, 'g'), replacement)] for a
    [source] outside the three fragments described at
    [JS.literal_source], [quantified] and [dotted]; constructing the
    expression may throw. *)
Variable regexp : string → string → string → Res string.

(** [template.replace(new RegExp(`{{${key}}}`, 'g'), value)] *)
Definition substitute (key value template : string) : Res string :=
  if JS.literal_source (placeholder key)
  then Ok (JS.replace_all (placeholder key) value template)
  else match quantified key with
       | Some pat => Ok (JS.replace_all pat value template)
       | None =>
           if dotted key
           then Ok (JS.replace_dotted (placeholder key) value template)
           else regexp (placeholder key) value template
       end.

(** The [forEach] over [Object.keys(finalData)]. *)
Fixpoint substitute_keys (finalData : JS.object DataVal) (ks : list string)
    (template : string) : Res string :=
  match ks with
  | [] => Ok template
  | key :: ks' =>
      match substitute key
              (from_option to_string "undefined" (JS.get finalData key)) template with
      | Ok template' => substitute_keys finalData ks' template'
      | Throw e => Throw e
      end
  end.

Definition finalData_of (r : Registry.t) (year : Z) (data : JS.object DataVal)
  : JS.object DataVal :=
  JS.set "year" (DNum year)
    (JS.set "theme_name" (DStr (Registry.getActiveThemeName r)) data).

Definition render (r : Registry.t) (year : Z) (viewName : string)
    (data : JS.object DataVal) : Res Response :=
  match Registry.getView viewName r with
  | None =>
      Ok (Html ("<h1>Error: View '" +:+ viewName +:+ "' not found in '"
                  +:+ Registry.getActiveThemeName r +:+ "'</h1>") 500)
  | Some template =>
      if negb (JS.truthy template)
      then Ok (Html ("<h1>Error: View '" +:+ viewName +:+ "' not found in '"
                       +:+ Registry.getActiveThemeName r +:+ "'</h1>") 500)
      else
        let finalData := finalData_of r year data in
        match substitute_keys finalData (JS.keys finalData) template with
        | Ok html => Ok (Html html 200)
        | Throw e => Throw e
        end
  end.
End WithRegExp.

End ViewEngine.

(** A pure computation that may throw, run inside a handler. *)
Definition lift {S A} (r : Res A) : M S A := λ w, (r, w).

(* ====================================================================== *)
(** ** The admin routes: [admin.post('/system/migrate')], the migration sweep *)
(* ====================================================================== *)

Module Admin.

Definition span (colour : option string) (text : string) : string :=
  match colour with
  | Some c => "<span style=" +:+ dq +:+ "color: " +:+ c +:+ ";" +:+ dq +:+ ">"
                +:+ text +:+ "</span>"
  | None => "<span>" +:+ text +:+ "</span>"
  end.

(** The line pushed for one outcome of [applyMigration]. *)
Definition outcome_line (result : string) : string :=
  if JS.includes "[ERROR]" result then span (Some "#ff4444") result
  else if JS.includes "[SKIP]" result then span (Some "#888") result
  else span (Some "#00ff9d") result.

Section WithBinding.
Context {S D : Type} `{Duration D}.
Variable d1 : D1Database S D.

(** [admin.post('/system/migrate', ...)]; [core_db_bound] tells
    whether [c.env.CORE_DB] is set. *)
Definition migrate (core_db_bound : bool) : M S Response :=
  if negb core_db_bound
  then ret (Json (Some false) ["[CRITICAL] D1 Database not connected"] 500)
  else
    new_logs ;;;
    try_catch
      (Migrator.initSystem d1 ;;;
       push_log (span (Some "#00ff9d") "[SYSTEM] Migration Engine Ready.") ;;;
       r <- get_registry ;;
       let schemas := Registry.getSchemas r in
       (if bool_decide (length schemas = 0%nat)
        then push_log (span None "[INFO] No pending schemas found.")
        else ret tt) ;;;
       for_each schemas (λ s,
         result <- Migrator.applyMigration d1
                     (Registry.slug s) (Registry.version s) (Registry.sql s) ;;
         push_log (outcome_line result)))
      (λ err, push_log (span (Some "#ff4444") ("[FATAL] " +:+ err))) ;;;
    lines <- get_logs ;;
    ret (Json None lines 200).
End WithBinding.

End Admin.

(* ====================================================================== *)
(** ** The application entry: [app.get('/')], the root route *)
(* ====================================================================== *)

Module App.

Definition HOMEPAGE_TYPE : string :=
  "SELECT value FROM core_settings WHERE key = 'homepage_type'".

Definition HOMEPAGE_TARGET : string :=
  "SELECT value FROM core_settings WHERE key = 'homepage_target_id'".

Definition PAGE_BY_ID : string := "SELECT * FROM static_pages WHERE id = ?".

(** The markup used when no [public_page] view is registered. *)
Definition fallback_template (page : Row) : string :=
  "<!DOCTYPE html><html><head><title>" +:+ val_to_string (column page "title")
    +:+ "</title><script src=" +:+ dq +:+ "https://cdn.tailwindcss.com" +:+ dq
    +:+ "></script></head><body class=" +:+ dq +:+ "p-10 prose max-w-none" +:+ dq
    +:+ "><h1>" +:+ val_to_string (column page "title") +:+ "</h1><div>"
    +:+ val_to_string (column page "content") +:+ "</div></body></html>".

(** The data bag of the default landing page. *)
Definition landing_data (config : Config) (r : Registry.t)
  : JS.object ViewEngine.DataVal :=
  [ ("plugin_count", ViewEngine.DNum (Z.of_nat (Registry.getPluginCount r)));
    ("core_version", ViewEngine.DStr (CORE_VERSION config));
    ("system_logs", ViewEngine.DArr (Registry.getLogs r));
    ("status", ViewEngine.DStr "System Ready - Please configure Homepage in Admin") ].

Section WithBinding.
Context {S D : Type} `{Duration D}.
Variable config : Config.
Variable regexp : string → string → string → Res string.
Variable d1 : D1Database S D.

(** The [if (homeType === 'page' && ...)] block: [Some response]
    when it returns from the handler, [None] when control falls
    through to the [throw] below it. *)
Definition page_branch (homeType : Val) (homeTargetSetting : option Row)
  : M S (option Response) :=
  if bool_decide (homeType = VStr "page")
       && val_truthy (column_opt homeTargetSetting "value")
  then
    try_catch
      (page <- Database.findOne d1 PAGE_BY_ID [column_opt homeTargetSetting "value"] ;;
       match page with
       | Some page =>
           r <- get_registry ;;
           let template :=
             match Registry.getView "public_page" r with
             | Some t => if JS.truthy t then t else fallback_template page
             | None => fallback_template page
             end in
           ret (Some (Html
             (JS.replace_first "{{slug}}" (val_to_string (column page "slug"))
                (JS.replace_first "{{content}}" (val_to_string (column page "content"))
                   (JS.replace_first "{{title}}" (val_to_string (column page "title"))
                      template))) 200))
       | None => ret None
       end)
      (λ pageError,
         Registry_log "Error: Page plugin missing or table not found." ;;;
         ret None)
  else ret None.

(** The [catch] block of the handler: the default landing page. *)
Definition default_landing : M S Response :=
  Registry_log "System Status: Rendering Default Landing Page." ;;;
  r <- get_registry ;;
  now <- get_clock ;;
  lift (ViewEngine.render regexp r (fullYear now) "landing" (landing_data config r)).

(** [app.get('/', ...)] *)
Definition root : M S Response :=
  try_catch
    (homeTypeSetting <- Database.findOne d1 HOMEPAGE_TYPE [] ;;
     homeTargetSetting <- Database.findOne d1 HOMEPAGE_TARGET [] ;;
     let homeType :=
       if val_truthy (column_opt homeTypeSetting "value")
       then column_opt homeTypeSetting "value"
       else VStr "default" in
     if bool_decide (homeType = VStr "blog")
     then ret (Redirect "/blog")
     else
       returned <- page_branch homeType homeTargetSetting ;;
       match returned with
       | Some response => ret response
       | None => throw "Render Default Landing"
       end)
    (λ e, default_landing).
End WithBinding.

End App.

(* ====================================================================== *)
(** ** Notions the properties are stated with *)
(* ====================================================================== *)

Module Spec.

(** *** Versions *)

(** The text of a version string before its first dot. *)
Fixpoint leading_component (v : string) : string :=
  match v with
  | EmptyString => EmptyString
  | String c v' => if Ascii.eqb c "." then EmptyString else String c (leading_component v')
  end.

(** The major number of a version: the number its leading component
    starts with, [NaN] when it starts with none. *)
Definition major (v : string) : JS.number := JS.parseInt (leading_component v).

(** The number a string of decimal digits writes. *)
Fixpoint decimal_from (acc : Z) (digits : string) : Z :=
  match digits with
  | EmptyString => acc
  | String c digits' => decimal_from (10 * acc + (JS.code c - 48)) digits'
  end.

Definition decimal (digits : string) : Z := decimal_from 0 digits.

(** *** View resolution as the design document words it: the
    theme-scoped entry if there is one, else the bare entry if there is
    one, else not found. *)
Definition getView (view : string) (r : Registry.t) : option string :=
  match Registry.templates r !! (Registry.activeTheme r +:+ ":" +:+ view) with
  | Some html => Some html
  | None => Registry.templates r !! view
  end.

(** An entry the Registry treats as there: present and not empty. *)
Definition usable (entry : option string) : option string :=
  match entry with
  | Some html => if JS.truthy html then Some html else None
  | None => None
  end.

(** *** Placeholder substitution as the design document words it *)

(** Every occurrence of [pat] (non-empty), left to right without
    overlap, replaced by the text [value] as it is. *)
Fixpoint replace_every_from (pat value : string) (skip : nat) (s : string) : string :=
  match s with
  | EmptyString => EmptyString
  | String c s' =>
      match skip with
      | S k => replace_every_from pat value k s'
      | O =>
          if JS.startsWith pat s
          then value +:+ replace_every_from pat value (String.length pat - 1) s'
          else String c (replace_every_from pat value 0 s')
      end
  end.

Definition replace_every (pat value s : string) : string :=
  replace_every_from pat value 0 s.

(** The value the view engine prints for [key]. *)
Definition value_of (bag : JS.object ViewEngine.DataVal) (key : string) : string :=
  from_option ViewEngine.to_string "undefined" (JS.get bag key).

(** One pass per key, in key order, each over the text the passes
    before it produced. *)
Definition substitute_keys (bag : JS.object ViewEngine.DataVal) (ks : list string)
    (template : string) : string :=
  foldl (λ text key, replace_every (ViewEngine.placeholder key) (value_of bag key) text)
        template ks.

Definition substitute_all (bag : JS.object ViewEngine.DataVal) (template : string) : string :=
  substitute_keys bag (JS.keys bag) template.

(** The placeholder of [k] followed by the text [post]. *)
Definition from_placeholder (k post : string) : string :=
  "{{" +:+ k +:+ "}}" +:+ post.

(** A key without braces: [{{key}}] is then a placeholder that no
    other placeholder overlaps. *)
Definition brace_free (k : string) : bool :=
  JS.all_chars (λ c, negb (Ascii.eqb c "{" || Ascii.eqb c "}")) k.

(** The substitution in a single sweep over the template: at each
    position, the first key of [ks] whose placeholder starts there is
    replaced by its value as it is; what a value brings in is not looked
    at again. *)
Fixpoint placeholder_at (bag : JS.object ViewEngine.DataVal) (ks : list string)
    (s : string) : option (string * string) :=
  match ks with
  | [] => None
  | key :: ks' =>
      if JS.startsWith (ViewEngine.placeholder key) s
      then Some (ViewEngine.placeholder key, value_of bag key)
      else placeholder_at bag ks' s
  end.

Fixpoint substitute_at_once_from (bag : JS.object ViewEngine.DataVal) (ks : list string)
    (skip : nat) (s : string) : string :=
  match s with
  | EmptyString => EmptyString
  | String c s' =>
      match skip with
      | S n => substitute_at_once_from bag ks n s'
      | O =>
          match placeholder_at bag ks s with
          | Some (pat, value) =>
              value +:+ substitute_at_once_from bag ks (String.length pat - 1) s'
          | None => String c (substitute_at_once_from bag ks 0 s')
          end
      end
  end.

Definition substitute_at_once (bag : JS.object ViewEngine.DataVal) (template : string)
  : string :=
  substitute_at_once_from bag (JS.keys bag) 0 template.

(** The passes of the view engine over keys that stand for themselves: one
    [replace] per key, in key order. *)
Definition render_passes (bag : JS.object ViewEngine.DataVal) (ks : list string)
    (template : string) : string :=
  foldl (λ text key, JS.replace_all (ViewEngine.placeholder key) (value_of bag key) text)
        template ks.

(** The keys of the landing page's data bag once the view engine has
    added its two fields. *)
Definition landing_keys : list string :=
  ["plugin_count"; "core_version"; "system_logs"; "status"; "theme_name"; "year"].

(** A replacement text in which [String.prototype.replace] finds no
    pattern: no [$] is followed by [$], [&], a backquote or a quote. *)
Fixpoint plain_replacement (v : string) : bool :=
  match v with
  | EmptyString => true
  | String c rest =>
      if Ascii.eqb c "$" then
        match rest with
        | String d _ =>
            negb (Ascii.eqb d "$" || Ascii.eqb d "&" || Ascii.eqb d "`" || Ascii.eqb d "'")
            && plain_replacement rest
        | EmptyString => true
        end
      else plain_replacement rest
  end.

(** *** The executor behind [Database.raw] *)

Definition blank (sql : string) : bool :=
  negb (JS.truthy sql) || bool_decide (JS.trim sql = "").

(** The calls [Database.raw] makes for a schema text: none for a blank
    text, else one [exec] or one [batch] with its statements. *)
Definition executor_calls (sql : string) : list D1Call :=
  if blank sql then []
  else match Database.splitStatements sql with
       | [statement] => [CallExec statement]
       | statements => [CallBatch statements]
       end.

(** Whether the binding throws on the statements of [sql] in store
    [s], with the message if it does, and the store it leaves. *)
Definition executor_outcome {S D} (d1 : D1Database S D) (sql : string) (s : S)
  : option string * S :=
  if blank sql then (None, s)
  else match Database.splitStatements sql with
       | [statement] =>
           match d1_exec d1 statement s with
           | (Ok _, s') => (None, s')
           | (Throw e, s') => (Some e, s')
           end
       | statements =>
           match d1_batch d1 statements s with
           | (Ok _, s') => (None, s')
           | (Throw e, s') => (Some e, s')
           end
       end.

(** *** The migration ledger *)

(** [applied s slug version] reads the rows of [_migrations] off a
    store.  The binding keeps a ledger when: the lookup query answers by
    it and leaves the store alone; inserting a pair that is not there
    succeeds and puts it there; executing schema statements leaves the
    ledger as it is. *)
Record ledger_contract {S D} (d1 : D1Database S D)
    (applied : S → string → string → bool) : Prop := {
  lookup_ledger : ∀ s slug version,
    ∃ row, d1_first d1 Migrator.LEDGER_LOOKUP [VStr slug; VStr version] s = (Ok row, s)
           ∧ (is_Some row ↔ applied s slug version = true);
  insert_ledger : ∀ s slug version,
    applied s slug version = false →
    ∃ res s', d1_run d1 Migrator.LEDGER_INSERT [VStr slug; VStr version] s = (Ok res, s')
              ∧ applied s' slug version = true;
  exec_keeps_ledger : ∀ statement s slug version,
    applied (d1_exec d1 statement s).2 slug version = applied s slug version;
  batch_keeps_ledger : ∀ statements s slug version,
    applied (d1_batch d1 statements s).2 slug version = applied s slug version
}.

(** The two calls [applyMigration] makes on the ledger. *)
Definition lookup_call (slug version : string) : D1Call :=
  CallFirst Migrator.LEDGER_LOOKUP [VStr slug; VStr version].

Definition insert_call (slug version : string) : D1Call :=
  CallRun Migrator.LEDGER_INSERT [VStr slug; VStr version].

(** The world after a handler's calls: store [s], the new calls
    appended. *)
Definition after {S} (w : World S) (s : S) (new_calls : list D1Call) : World S :=
  mkWorld s (calls w ++ new_calls) (registry w) (clock w) (logs w).

(** *** The sweep, schema by schema *)

(** The world with one more line in the array of the response. *)
Definition pushed {S} (line : string) (w : World S) : World S :=
  mkWorld (db w) (calls w) (registry w) (clock w) (logs w ++ [line]).

(** From world [w]: what [applyMigration] returns for the first schema,
    then, in the world that run left and with its line pushed, what it
    returns for the second, and so on; with the world after the last.
    A run that threw would end the list. *)
Fixpoint sweep {S D} `{Duration D} (d1 : D1Database S D)
    (schemas : list Registry.MigrationSchema) (w : World S) : list string * World S :=
  match schemas with
  | [] => ([], w)
  | s :: schemas' =>
      match Migrator.applyMigration d1
              (Registry.slug s) (Registry.version s) (Registry.sql s) w with
      | (Ok result, w1) =>
          let '(results, w') := sweep d1 schemas' (pushed (Admin.outcome_line result) w1) in
          (result :: results, w')
      | (Throw _, w1) => ([], w1)
      end
  end.

End Spec.

(* ====================================================================== *)
(** ** A small D1 binding to run the handlers on *)
(* ====================================================================== *)

Module Toy.

(** The tables the handlers touch.  [settings] and [pages] are [None]
    while their table does not exist. *)
Record Store : Type := mkStore {
  ledger : list (string * string);
  settings : option (list (string * Val));
  pages : option (list Row);
  executed : list string
}.

(** A fresh install: nothing migrated, no table. *)
Definition fresh : Store := mkStore [] None None [].

(** Durations in whole milliseconds. *)
Global Instance Z_duration : Duration Z :=
  {| dzero := 0%Z; dadd := Z.add; dtruthy := λ d, negb (Z.eqb d 0);
     toFixed4 := λ d, pretty d +:+ ".0000" |}.

(** The statements this binding can parse. *)
Definition accepts (statement : string) : bool :=
  JS.startsWith "CREATE TABLE " statement || JS.startsWith "INSERT " statement.

Definition applied (s : Store) (slug version : string) : bool :=
  bool_decide ((slug, version) ∈ ledger s).

Definition setting (s : Store) (key : string) : Res (option Row) :=
  match settings s with
  | None => Throw "D1_ERROR: no such table: core_settings"
  | Some table =>
      Ok (match JS.get table key with
          | Some v => Some [("value", v)]
          | None => None
          end)
  end.

Definition first (query : string) (params : list Val) (s : Store)
  : Res (option Row) * Store :=
  if bool_decide (query = Migrator.LEDGER_LOOKUP) then
    match params with
    | [VStr slug; VStr version] =>
        (Ok (if applied s slug version then Some [("id", VInt 1)] else None), s)
    | _ => (Throw "D1_TYPE_ERROR: wrong number of bindings", s)
    end
  else if bool_decide (query = App.HOMEPAGE_TYPE) then (setting s "homepage_type", s)
  else if bool_decide (query = App.HOMEPAGE_TARGET) then (setting s "homepage_target_id", s)
  else if bool_decide (query = App.PAGE_BY_ID) then
    match pages s, params with
    | Some rows, [id] =>
        (Ok (list_find (λ row, val_to_string (column row "id") = val_to_string id) rows
               ≫= λ p, Some p.2), s)
    | _, _ => (Throw "D1_ERROR: no such table: static_pages", s)
    end
  else (Throw "D1_ERROR: no such table", s).

Definition all (query : string) (params : list Val) (s : Store)
  : Res (option (list Row)) * Store :=
  (Throw "D1_ERROR: no such table", s).

Definition run (query : string) (params : list Val) (s : Store)
  : Res (D1Result Z) * Store :=
  if bool_decide (query = Migrator.LEDGER_INSERT) then
    match params with
    | [VStr slug; VStr version] =>
        if applied s slug version
        then (Throw "D1_ERROR: UNIQUE constraint failed: _migrations.slug, _migrations.version", s)
        else (Ok (mkD1Result (Some (mkMeta 1%Z 1%Z 1%Z "toy"))),
              mkStore (ledger s ++ [(slug, version)]) (settings s) (pages s) (executed s))
    | _ => (Throw "D1_TYPE_ERROR: wrong number of bindings", s)
    end
  else (Ok (mkD1Result None), s).

Definition exec (statement : string) (s : Store) : Res (option Z) * Store :=
  if accepts statement
  then (Ok (Some 2%Z), mkStore (ledger s) (settings s) (pages s) (executed s ++ [statement]))
  else (Throw "D1_ERROR: syntax error", s).

Definition batch (statements : list string) (s : Store)
  : Res (list (option Z)) * Store :=
  if forallb accepts statements
  then (Ok ((λ _, Some 2%Z) <$> statements),
        mkStore (ledger s) (settings s) (pages s) (executed s ++ statements))
  else (Throw "D1_ERROR: syntax error", s).

Definition d1 : D1Database Store Z := mkD1 Store Z first all run exec batch.

(** A regular-expression engine that rejects every source handed to it. *)
Definition regexp (source replacement text : string) : Res string :=
  Throw "SyntaxError: Invalid regular expression".

Definition noon : Clock := mkClock "12:00:00" 2026.

Definition world (s : Store) (r : Registry.t) : World Store :=
  mkWorld s [] r noon [].

(** A registry after the shipped theme and two plugins were mounted. *)
Definition mounted : Registry.t :=
  Registry.registerPlugin "12:00:00" "site-manager"
    (Registry.registerPlugin "12:00:00" "blog-manager"
       (Registry.setActiveTheme "12:00:00" "nebula-theme"
          (Registry.registerThemeView "nebula-theme" "landing"
             "<p>{{status}} / {{plugin_count}} plugins / core {{core_version}} / {{theme_name}} {{year}} {{unknown}}</p>"
             Registry.initial))).

End Toy.

(* ====================================================================== *)
(** ** [class I18n] (imported from [core/i18n]) *)
(* ====================================================================== *)

Module I18n.

Section WithConfig.
Variable config : Config.

(** [new I18n(locale).t(key)], over the Registry [r] *)
Definition t (locale : string) (r : Registry.t) (key : string) : string :=
  let val := Registry.getTranslation locale key r in
  if present val then default "" val
  else if negb (bool_decide (locale = defaultLocale config)) then
    let val := Registry.getTranslation (defaultLocale config) key r in
    if present val then default "" val else key
  else key.

(** [I18n.getLocaleFromContext(c)]; [lang] is [c.req.query('lang')]. *)
Definition getLocaleFromContext (lang : option string) : string :=
  if bool_decide (lang = Some "id") || bool_decide (lang = Some "en")
  then default "" lang
  else defaultLocale config.
End WithConfig.

End I18n.

(* ====================================================================== *)
(** ** The module loader: [modules.forEach] of the application entry *)
(* ====================================================================== *)

Module Loader.

(** A module as [modules.gen] lists it: its manifest and its mount
    function.  What a mount function does to the router is not part of
    the model; what it does to the Registry is. *)
Record PasPagesModule (S : Type) : Type := mkModule {
  manifest : option Validator.ModuleManifest;
  mount : M S unit                          (* [default(app)] *)
}.
Arguments mkModule {S}.
Arguments manifest {S}.
Arguments mount {S}.

Section WithConfig.
Context {S : Type}.
Variable config : Config.

(** The body of the [forEach]; an entry of the list may be [undefined]. *)
Definition load_module (mod_ : option (PasPagesModule S)) : M S unit :=
  match mod_ with
  | Some m =>
      match manifest m with
      | Some mf =>
          let type := Validator.m_type mf in
          if Validator.isValid
               (Validator.validate config (Some (Validator.mkModule (Some mf))) type)
          then
            (if bool_decide (type = Some "plugin")
             then now <- get_clock ;;
                  update_registry
                    (Registry.registerPlugin (hhmmss now) (show (Validator.m_slug mf)))
             else ret tt) ;;;
            mount m ;;;
            Registry_log ("Module mounted: " +:+ show (Validator.m_slug mf)
                            +:+ " v" +:+ show (Validator.m_version mf))
          else ret tt
      | None => ret tt
      end
  | None => ret tt
  end.

Definition load (modules : list (option (PasPagesModule S))) : M S unit :=
  for_each modules load_module.
End WithConfig.

End Loader.

(* ====================================================================== *)
(** ** Shipped modules: manifests and what their mount functions register *)
(* ====================================================================== *)

Module Modules.

(** [plugins/lang-id] *)
Definition lang_id_manifest : Validator.ModuleManifest :=
  Validator.mkManifest (Some "plugin") (Some "lang-id") (Some "Indonesian Language Pack")
    (Some "1.0.0") None (Some "1.0.0").

Definition lang_id_table : gmap string string :=
  list_to_map
    [ ("welcome", "Selamat Datang di PasPages Core");
      ("admin_title", "Panel Admin");
      ("status_operational", "BERJALAN");
      ("modules_active", "Modul Aktif");
      ("db_connected", "Database Terhubung");
      ("settings_saved", "Pengaturan Berhasil Disimpan");
      ("migration_run", "Jalankan Migrasi Database");
      ("system_health", "Kesehatan Sistem");
      ("quick_actions", "Aksi Cepat") ].

Definition lang_id_mount {S} : M S unit :=
  update_registry (Registry.registerTranslation "id" lang_id_table).

(** [themes/default]; [landingHtml] is the imported template. *)
Definition default_theme_manifest : Validator.ModuleManifest :=
  Validator.mkManifest (Some "theme") (Some "default") (Some "PasPages Default Theme")
    (Some "1.0.0") None (Some "1.0.0").

Definition default_theme_mount {S} (landingHtml : string) : M S unit :=
  update_registry (Registry.registerThemeView "default" "landing" landingHtml).

(** [themes/nebula] *)
Definition nebula_manifest : Validator.ModuleManifest :=
  Validator.mkManifest (Some "theme") (Some "nebula-theme") (Some "Nebula Future Theme")
    (Some "1.0.0") (Some "1.0.0") None.

Definition nebula_mount {S} (landingHtml : string) : M S unit :=
  update_registry (Registry.registerThemeView "nebula-theme" "landing" landingHtml) ;;;
  update_registry
    (Registry.registerMenu
       (Registry.mkMenu "Nebula Theme" "/admin/theme/nebula" "theme" None None)) ;;;
  now <- get_clock ;;
  update_registry (Registry.setActiveTheme (hhmmss now) "nebula-theme").

(** [plugins/site-manager] *)
Definition site_manager_manifest : Validator.ModuleManifest :=
  Validator.mkManifest (Some "plugin") (Some "site-manager") (Some "Site Configuration")
    (Some "1.2.0") (Some "1.0.0") None.

Definition managerSchema : string :=
  "
    -- Tabel untuk menyimpan konten statis khusus (Home/Identity)
    CREATE TABLE IF NOT EXISTS core_pages (
        id INTEGER PRIMARY KEY AUTOINCREMENT,
        slug TEXT UNIQUE,
        title TEXT,
        content TEXT,
        metadata TEXT -- JSON String for SEO/Logo
    );
    
    -- Tabel Menu Global (Header/Footer)
    CREATE TABLE IF NOT EXISTS core_menus (
        id INTEGER PRIMARY KEY AUTOINCREMENT,
        label TEXT NOT NULL,
        url TEXT NOT NULL,
        sort_order INTEGER DEFAULT 0
    );
".

Definition site_manager_mount {S} : M S unit :=
  Registry_log "Mounting Site Manager..." ;;;
  now <- get_clock ;;
  update_registry (Registry.registerPlugin (hhmmss now) "site-manager") ;;;
  update_registry (Registry.registerSchema (hhmmss now) "site-manager" "1.2.0" managerSchema) ;;;
  update_registry
    (Registry.registerMenu
       (Registry.mkMenu "Site Identity" "/admin/site-manager" "settings" (Some "globe") None)) ;;;
  Registry_log "Site Manager Mounted [OK]".

End Modules.

(* ====================================================================== *)
(** ** The admin routes: the dashboard shell, [/setup], [/settings] and
       [/settings/storage] *)
(* ====================================================================== *)

Module AdminRoutes.

Definition menuItemClass : string :=
  "flex items-center px-3 py-2 text-sm font-medium text-gray-400 rounded-md hover:bg-white/5 hover:text-white transition-colors group mb-1".

Definition iconSpan : string :=
  "<span class=" +:+ dq +:+ "w-2 h-2 rounded-full bg-gray-600 mr-3 group-hover:bg-accent transition-colors" +:+ dq +:+ "></span>".

(** The line feed the sidebar links are joined with. *)
Definition newline : string := String (ascii_of_nat 10) EmptyString.

Definition ADMIN_EMAIL : string :=
  "SELECT * FROM core_settings WHERE key = 'admin_email'".

Definition DEFAULT_SETTINGS : string :=
  "
                INSERT OR IGNORE INTO core_settings (key, value, group_name) VALUES 
                ('site_name', 'PasPages Core', 'general'),
                ('admin_email', 'admin@example.com', 'general'),
                ('storage_driver', 'r2', 'storage');
            ".

Definition SETUP_PAGE : string :=
  "
            <!DOCTYPE html>
            <html lang=" +:+ dq +:+ "en" +:+ dq +:+ ">
            <head>
                <meta charset=" +:+ dq +:+ "UTF-8" +:+ dq +:+ ">
                <style>
                    body { background: #000; color: #00ff9d; font-family: monospace; display: flex; flex-direction: column; justify-content: center; align-items: center; height: 100vh; margin: 0; }
                    h1 { border: 2px solid #00ff9d; padding: 10px; }
                    .btn { color: #000; background: #00ff9d; padding: 10px 20px; text-decoration: none; font-weight: bold; margin-top: 20px; }
                </style>
            </head>
            <body>
                <h1>SYSTEM UNLOCKED</h1>
                <p>Core Schemas Injected Successfully.</p>
                <a href=" +:+ dq +:+ "/admin" +:+ dq +:+ " class=" +:+ dq +:+ "btn" +:+ dq +:+ ">ENTER DASHBOARD &rarr;</a>
            </body>
            </html>
        ".

Definition STORAGE_SETTINGS : string :=
  "SELECT key, value FROM core_settings WHERE group_name='storage'".

Definition STORAGE_UPSERT : string :=
  "INSERT INTO core_settings (key, value, group_name) VALUES (?, ?, 'storage') ON CONFLICT(key) DO UPDATE SET value=excluded.value".

Definition STORAGE_KEYS : list string :=
  [ "storage_driver"; "cloudinary_cloud_name"; "cloudinary_upload_preset";
    "gdrive_access_token"; "gdrive_folder_id" ].

(** [c.json({ success: true })] *)
Inductive JsonSuccess : Type := success_true.

(** [settings.forEach(row => config[row.key] = row.value)] on an empty
    [config]. *)
Definition settings_config (settings : list Row) : JS.object Val :=
  foldl (λ config row, JS.set (val_to_string (column row "key")) (column row "value") config)
        [] settings.

(** [config[key] || fallback] as a replacement text *)
Definition setting_or (config : JS.object Val) (key fallback : string) : string :=
  if val_truthy (column config key) then val_to_string (column config key) else fallback.

Section WithConfig.
Variable config : Config.
(** The imported templates [views/dashboard.html] and
    [views/settings.html]. *)
Variable dashboardTemplate : string.
Variable settingsTemplate : string.

(** One link of the sidebar. *)
Definition menu_link (locale : string) (r : Registry.t) (m : Registry.AdminMenuItem)
  : string :=
  "<a href=" +:+ dq +:+ Registry.path m +:+ dq +:+ " class=" +:+ dq +:+ menuItemClass
    +:+ dq +:+ ">" +:+ iconSpan +:+ " " +:+ I18n.t config locale r (Registry.title m)
    +:+ "</a>".

(** [renderAdmin(c, title, content)]; [locale] is [c.get('locale')]. *)
Definition renderAdmin (locale : option string) (r : Registry.t) (title content : string)
  : Response :=
  let locale := or_else locale "en" in
  let plugins :=
    JS.join newline (menu_link locale r <$> Registry.getMenus (Some "plugin") r) in
  let themes :=
    JS.join newline (menu_link locale r <$> Registry.getMenus (Some "theme") r) in
  Html
    (JS.replace_first "{{content}}" content
       (JS.replace_first "{{plugin_count}}" (pretty (Z.of_nat (Registry.getPluginCount r)))
          (JS.replace_first "{{sidebar_themes}}" themes
             (JS.replace_first "{{sidebar_plugins}}" plugins
                (JS.replace_first "{{title}}" title dashboardTemplate))))) 200.

Section WithBinding.
Context {S D : Type} `{Duration D}.
Variable d1 : D1Database S D.

(** [admin.post('/setup', ...)].  [body] is the outcome of
    [c.req.parseBody()] and of reading its [master_key] field, a text or
    [undefined]; [MASTER_KEY] is [c.env.MASTER_KEY]. *)
Definition setup (body : Res (option string)) (MASTER_KEY : option string)
  : M S Response :=
  try_catch
    (inputKey <- lift body ;;
     if negb (present inputKey) || negb (bool_decide (inputKey = MASTER_KEY))
     then ret (Text "ACCESS DENIED: Invalid Master Key." 401)
     else
       r <- get_registry ;;
       (match Registry.getSchema "core-system" r with
        | Some coreSchema =>
            Database.raw d1
              (or_else (Registry.schema coreSchema) (Registry.sql coreSchema)) ;;;
            ret tt
        | None => ret tt
        end) ;;;
       adminCheck <- Database.findOne d1 ADMIN_EMAIL [] ;;
       (match adminCheck with
        | None => Database.raw d1 DEFAULT_SETTINGS ;;; ret tt
        | Some _ => ret tt
        end) ;;;
       ret (Html SETUP_PAGE 200))
    (λ e, ret (Text ("CRITICAL ERROR: " +:+ e) 500)).

(** [admin.get('/settings', ...)] *)
Definition settings (locale : option string) : M S Response :=
  rows <- try_catch (Database.findAll d1 STORAGE_SETTINGS []) (λ _, ret []) ;;
  let config := settings_config rows in
  let html :=
    JS.replace_first "{{gdrive_folder_id}}" (setting_or config "gdrive_folder_id" "")
      (JS.replace_first "{{gdrive_access_token}}" (setting_or config "gdrive_access_token" "")
         (JS.replace_first "{{cloudinary_upload_preset}}"
            (setting_or config "cloudinary_upload_preset" "")
            (JS.replace_first "{{cloudinary_cloud_name}}"
               (setting_or config "cloudinary_cloud_name" "")
               (JS.replace_first "{{current_driver}}"
                  (setting_or config "storage_driver" "r2") settingsTemplate)))) in
  r <- get_registry ;;
  ret (renderAdmin locale r "System Settings" html).

(** [admin.post('/settings/storage', ...)].  [body] is the outcome of
    [c.req.json()]: an object whose fields are texts, integers or
    [null]. *)
Definition save_storage (body : Res (JS.object Val)) : M S JsonSuccess :=
  body <- lift body ;;
  for_each STORAGE_KEYS (λ key,
    if negb (bool_decide (column body key = VUndef))
    then Database.run d1 STORAGE_UPSERT [VStr key; column body key] ;;; ret tt
    else ret tt) ;;;
  ret success_true.
End WithBinding.
End WithConfig.

End AdminRoutes.

(* ====================================================================== *)
(** ** [class StorageManager] (imported from [core/storage]): the choice
       of the driver *)
(* ====================================================================== *)

Module StorageManager.

(** The adapter [getActiveDriver] constructs, with the arguments of its
    constructor that come from the settings. *)
Inductive Driver : Type :=
| R2Adapter
| CloudinaryAdapter (cloudName preset : Val)
| GoogleDriveAdapter (token folderId : Val).

Section WithBinding.
Context {S D : Type} `{Duration D}.
Variable d1 : D1Database S D.

Definition getActiveDriver : M S Driver :=
  settings <- Database.findAll d1 AdminRoutes.STORAGE_SETTINGS [] ;;
  let config := AdminRoutes.settings_config settings in
  let driver :=
    if val_truthy (column config "storage_driver")
    then column config "storage_driver" else VStr "r2" in
  if bool_decide (driver = VStr "cloudinary")
  then ret (CloudinaryAdapter (column config "cloudinary_cloud_name")
              (column config "cloudinary_upload_preset"))
  else if bool_decide (driver = VStr "googledrive")
  then ret (GoogleDriveAdapter (column config "gdrive_access_token")
              (column config "gdrive_folder_id"))
  else ret R2Adapter.
End WithBinding.

End StorageManager.

(* ====================================================================== *)
(** ** The blog and pages plugins: slugs, tag lists, the theme resolver *)
(* ====================================================================== *)

Module Blog.

Fixpoint map_chars (f : ascii → ascii) (s : string) : string :=
  match s with
  | EmptyString => EmptyString
  | String c s' => String (f c) (map_chars f s')
  end.

Definition is_upper (c : ascii) : bool := (65 <=? JS.code c)%Z && (JS.code c <=? 90)%Z.

Definition is_lower (c : ascii) : bool := (97 <=? JS.code c)%Z && (JS.code c <=? 122)%Z.

(** The capital letters above ASCII among the code units below 256:
    U+00C0 to U+00DE without the multiplication sign U+00D7. *)
Definition is_upper_latin (c : ascii) : bool :=
  (192 <=? JS.code c)%Z && (JS.code c <=? 222)%Z && negb (JS.code c =? 215)%Z.

(** [s.toLowerCase()]: a capital letter moves 32 code units up. *)
Definition toLowerCase (s : string) : string :=
  map_chars (λ c, if is_upper c || is_upper_latin c
                  then ascii_of_nat (nat_of_ascii c + 32)%nat else c) s.

(** The class [[a-z0-9]]. *)
Definition is_slug_char (c : ascii) : bool := is_lower c || JS.is_digit c.

(** [s.replace(/[^a-z0-9]+/g, '-')]: every maximal run of characters
    outside [[a-z0-9]] becomes one dash.  [in_run] tells whether the
    character before belongs to such a run. *)
Fixpoint dash_runs (in_run : bool) (s : string) : string :=
  match s with
  | EmptyString => EmptyString
  | String c s' =>
      if is_slug_char c then String c (dash_runs false s')
      else if in_run then dash_runs true s'
      else String "-" (dash_runs true s')
  end.

Definition is_dash (c : ascii) : bool := Ascii.eqb c "-".

(** What [/^-+/] removes: the dashes the text starts with. *)
Fixpoint strip_leading (s : string) : string :=
  match s with
  | EmptyString => EmptyString
  | String c s' => if is_dash c then strip_leading s' else s
  end.

(** What [/-+$/] removes: at the first position from which only dashes
    follow up to the end of the text, the rest of the text. *)
Fixpoint strip_trailing (s : string) : string :=
  match s with
  | EmptyString => EmptyString
  | String c s' => if JS.all_chars is_dash s then EmptyString else String c (strip_trailing s')
  end.

(** [s.replace(/^-+|-+$/g, '')] *)
Definition strip_dashes (s : string) : string := strip_trailing (strip_leading s).

(** [title.toLowerCase().replace(/[^a-z0-9]+/g, '-').replace(/^-+|-+$/g, '')] *)
Definition slugify (title : string) : string :=
  strip_dashes (dash_runs false (toLowerCase title)).

(** [slug || title.toLowerCase()...]: the slug of a post or of a page. *)
Definition finalSlug (slug : option string) (title : string) : string :=
  if present slug then default "" slug else slugify title.

(** [name.toLowerCase().replace(/[^a-z0-9]+/g, '-')]: the slug of a tag,
    and of a category saved without one. *)
Definition tagSlug (name : string) : string := dash_runs false (toLowerCase name).

(** [(tags || '').split(',').map(t => t.trim()).filter(t => t)] *)
Definition tagList (tags : option string) : list string :=
  filter (λ t, JS.truthy t = true) (JS.trim <$> JS.split "," (or_else tags "")).

(** [resolveView(c, viewName, fallbackHtml)]; [ACTIVE_THEME] is
    [c.env.ACTIVE_THEME].  [Registry.getThemeView] is a function and does
    not throw, so the [typeof] test holds and the [catch] branch is never
    taken. *)
Definition resolveView (ACTIVE_THEME : option string) (r : Registry.t)
    (viewName fallbackHtml : string) : string :=
  let activeTheme := or_else ACTIVE_THEME "nebula" in
  match Registry.getThemeView activeTheme viewName r with
  | Some themeTemplate => if JS.truthy themeTemplate then themeTemplate else fallbackHtml
  | None => fallbackHtml
  end.

End Blog.

(* ====================================================================== *)
(** ** Further notions the properties are stated with *)
(* ====================================================================== *)

Module Notions.

(** *** The mutators of the Registry *)

Inductive Op : Type :=
| RegisterMenu (menu : Registry.AdminMenuItem)
| RegisterSchema (time slug version sql : string)
| RegisterThemeView (theme view html : string)
| RegisterView (name html : string)
| SetActiveTheme (time name : string)
| RegisterPlugin (time name : string)
| RegisterTranslation (locale : string) (data : gmap string string)
| Log (time message : string).

Definition apply_op (op : Op) (r : Registry.t) : Registry.t :=
  match op with
  | RegisterMenu menu => Registry.registerMenu menu r
  | RegisterSchema time slug version sql => Registry.registerSchema time slug version sql r
  | RegisterThemeView theme view html => Registry.registerThemeView theme view html r
  | RegisterView name html => Registry.registerView name html r
  | SetActiveTheme time name => Registry.setActiveTheme time name r
  | RegisterPlugin time name => Registry.registerPlugin time name r
  | RegisterTranslation locale data => Registry.registerTranslation locale data r
  | Log time message => Registry.log time message r
  end.

(** The Registry after a sequence of calls, the first call first. *)
Definition run_ops (ops : list Op) (r : Registry.t) : Registry.t :=
  foldl (λ r op, apply_op op r) r ops.

(** *** Texts *)

(** A theme or view name without a colon. *)
Definition colon_free (s : string) : bool :=
  JS.all_chars (λ c, negb (Ascii.eqb c ":")) s.

(** A text without a semicolon. *)
Definition semicolon_free (s : string) : bool :=
  JS.all_chars (λ c, negb (Ascii.eqb c ";")) s.

(** The first and the last character of a text. *)
Definition first_char (s : string) : option ascii :=
  match s with
  | EmptyString => None
  | String c _ => Some c
  end.

Fixpoint last_char (s : string) : option ascii :=
  match s with
  | EmptyString => None
  | String c EmptyString => Some c
  | String _ s' => last_char s'
  end.

(** No two dashes next to each other. *)
Fixpoint no_double_dash (s : string) : bool :=
  match s with
  | String a (String b _ as s') => negb (Blog.is_dash a && Blog.is_dash b) && no_double_dash s'
  | _ => true
  end.

(** *** Calls *)

Definition is_first (c : D1Call) : bool :=
  match c with
  | CallFirst _ _ => true
  | _ => false
  end.

(** The call [/settings/storage] makes for [key]. *)
Definition upsert_call (body : JS.object Val) (key : string) : D1Call :=
  CallRun AdminRoutes.STORAGE_UPSERT [VStr key; column body key].

(** *** A binding that is out of reach: every operation throws. *)

Definition unavailable : string := "D1_ERROR: database unavailable".

Definition offline : D1Database unit Z :=
  mkD1 unit Z
    (λ _ _ s, (Throw unavailable, s))
    (λ _ _ s, (Throw unavailable, s))
    (λ _ _ s, (Throw unavailable, s))
    (λ _ s, (Throw unavailable, s))
    (λ _ s, (Throw unavailable, s)).

End Notions.

(* ====================================================================== *)
(** ** Manifest validation *)
(* ====================================================================== *)

Lemma truthy_spec (s : string) : JS.truthy s = true ↔ s ≠ "".
Proof. destruct s; simpl; split; congruence. Qed.

(** C3.  A module whose manifest has no [requires] field is never
    admitted, whatever its type, slug, name, version and other fields
    are, whatever kind is expected and whatever the core version is.
    [validate] is a total function: the rejection is a result value that
    carries an error text, nothing is thrown. *)
Theorem validate_requires_missing
    (config : Config) (expected type_ slug_ name_ version_ minCore : option string) :
  let module := Validator.mkModule
                  (Some (Validator.mkManifest type_ slug_ name_ version_ None minCore)) in
  Validator.isValid (Validator.validate config (Some module) expected) = false
  ∧ is_Some (Validator.error (Validator.validate config (Some module) expected)).
Proof.
  simpl. unfold Validator.validate; simpl.
  destruct (negb (present slug_) || negb (present version_)); simpl; [eauto|].
  destruct (negb (bool_decide (type_ = expected))); simpl; eauto.
Qed.

(** With every other field well-formed and the kinds matching, the
    rejection is the strict-mode one. *)
Example validate_strict_mode :
  Validator.validate CONFIG
    (Some (Validator.mkModule
       (Some (Validator.mkManifest (Some "plugin") (Some "lang-id")
                (Some "Indonesian Language Pack") (Some "1.0.0") None (Some "1.0.0")))))
    (Some "plugin")
  = Validator.mkResult false
      (Some "STRICT MODE: Module lang-id MUST define 'requires' version.").
Proof. reflexivity. Qed.

(** The same manifest with a compatible [requires] is admitted. *)
Example validate_admits :
  Validator.validate CONFIG
    (Some (Validator.mkModule
       (Some (Validator.mkManifest (Some "theme") (Some "nebula-theme")
                (Some "Nebula Future Theme") (Some "1.0.0") (Some "1.0.0") None))))
    (Some "theme")
  = Validator.mkResult true None.
Proof. reflexivity. Qed.

(* ====================================================================== *)
(** ** Major-version compatibility *)
(* ====================================================================== *)

Lemma head_split_dot (v : string) :
  head (JS.split "." v) = Some (Spec.leading_component v).
Proof.
  induction v as [|c v IH]; simpl; [done|].
  destruct (Ascii.eqb c "."); [done|].
  destruct (JS.split "." v) as [|h t]; simpl in *; congruence.
Qed.

Lemma strict_eq_spec (a b : JS.number) :
  JS.strict_eq a b = true ↔ a = b ∧ a ≠ JS.NaN.
Proof.
  destruct a as [|x|s], b as [|y|t]; simpl; try (split; [congruence | intros [? ?]; congruence]).
  - rewrite Z.eqb_eq. split; [intros ->; split; congruence | intros [? _]; congruence].
  - rewrite Bool.eqb_true_iff. split; [intros ->; split; congruence | intros [? _]; congruence].
Qed.

Lemma isCompatible_major (config : Config) (required : string) :
  Validator.isCompatible config required
  = JS.strict_eq (Spec.major (CORE_VERSION config)) (Spec.major required).
Proof.
  unfold Validator.isCompatible, Spec.major. by rewrite !head_split_dot.
Qed.

Lemma leading_component_app (a rest : string) :
  JS.all_chars (λ c, negb (Ascii.eqb c ".")) a = true →
  Spec.leading_component (a +:+ "." +:+ rest) = a.
Proof.
  induction a as [|c a IH]; simpl; [done|].
  intros [Hc Ha]%andb_prop. destruct (Ascii.eqb c "."); [done|].
  by rewrite IH.
Qed.

(** A text whose first character is neither white space, a sign nor a
    decimal digit does not start with a number. *)
Lemma parseInt_not_numeric (c : ascii) (rest : string) :
  JS.is_space c = false → JS.is_digit c = false → c ≠ "-"%char → c ≠ "+"%char →
  JS.parseInt (String c rest) = JS.NaN.
Proof.
  intros Hs Hd Hm Hp. unfold JS.parseInt. simpl. rewrite Hs.
  assert (JS.digit_value 10 c = None) as H10.
  { unfold JS.digit_value. rewrite Hd.
    destruct ((97 <=? JS.code c)%Z && (JS.code c <=? 122)%Z) eqn:E1.
    - apply andb_prop in E1 as [?%Z.leb_le ?%Z.leb_le].
      destruct (JS.code c - 87 <? 10)%Z eqn:E; [apply Z.ltb_lt in E; lia | done].
    - destruct ((65 <=? JS.code c)%Z && (JS.code c <=? 90)%Z) eqn:E2; [|done].
      apply andb_prop in E2 as [?%Z.leb_le ?%Z.leb_le].
      destruct (JS.code c - 55 <? 10)%Z eqn:E; [apply Z.ltb_lt in E; lia | done]. }
  destruct c as [[] [] [] [] [] [] [] []]; try congruence;
    try (simpl in *; discriminate);
    try (cbn -[JS.digit_value]; cbn in H10; done).
Qed.

Lemma digit_value_decimal (c : ascii) :
  JS.is_digit c = true → JS.digit_value 10 c = Some (JS.code c - 48).
Proof.
  intros Hc. unfold JS.digit_value. rewrite Hc.
  unfold JS.is_digit in Hc. apply andb_prop in Hc as [?%Z.leb_le ?%Z.leb_le].
  destruct (JS.code c - 48 <? 10)%Z eqn:E; [done|]. apply Z.ltb_ge in E. lia.
Qed.

Lemma digits_prefix_digits (acc : Z) (digits : string) :
  JS.all_chars JS.is_digit digits = true →
  JS.digits_prefix 10 (Some acc) digits = Some (Spec.decimal_from acc digits).
Proof.
  revert acc. induction digits as [|c digits IH]; intros acc; simpl; [done|].
  intros [Hc Hd]%andb_prop. rewrite digit_value_decimal by done. by apply IH.
Qed.

Lemma is_digit_cases (c : ascii) :
  JS.is_digit c = true →
  c ∈ ["0"; "1"; "2"; "3"; "4"; "5"; "6"; "7"; "8"; "9"]%char.
Proof.
  destruct c as [[] [] [] [] [] [] [] []]; vm_compute; try done; intros _.
  all: repeat first [apply list_elem_of_here | apply list_elem_of_further].
Qed.

(** Evaluate the character tests on the literal characters of the goal. *)
Ltac eval_chars :=
  repeat match goal with
         | |- context [JS.is_space (Ascii ?a ?b ?c ?d ?e ?f ?g ?h)] =>
             let v := eval vm_compute in (JS.is_space (Ascii a b c d e f g h)) in
             change (JS.is_space (Ascii a b c d e f g h)) with v
         | |- context [JS.code (Ascii ?a ?b ?c ?d ?e ?f ?g ?h)] =>
             let v := eval vm_compute in (JS.code (Ascii a b c d e f g h)) in
             change (JS.code (Ascii a b c d e f g h)) with v
         | |- context [JS.digit_value ?r (Ascii ?a ?b ?c ?d ?e ?f ?g ?h)] =>
             let v := eval vm_compute in (JS.digit_value r (Ascii a b c d e f g h)) in
             change (JS.digit_value r (Ascii a b c d e f g h)) with v
         end.

(** On a non-empty string of decimal digits [parseInt] reads the whole
    string, as a decimal number. *)
Lemma parseInt_digits (digits : string) :
  JS.all_chars JS.is_digit digits = true → digits ≠ "" →
  JS.parseInt digits = JS.to_double (Spec.decimal digits).
Proof.
  intros Hall Hne. destruct digits as [|c d]; [done|].
  simpl in Hall. apply andb_prop in Hall as [Hc Hd].
  unfold Spec.decimal.
  apply is_digit_cases in Hc.
  repeat (apply elem_of_cons in Hc as [-> | Hc]); try (by apply elem_of_nil in Hc).
  2-10: unfold JS.parseInt; cbn [JS.trimStart JS.digits_prefix Spec.decimal_from];
        eval_chars; cbv beta iota zeta;
        cbn [JS.digits_prefix default Spec.decimal_from]; eval_chars; cbv beta iota;
        rewrite digits_prefix_digits by done; reflexivity.
  destruct d as [|c d]; [reflexivity|].
  simpl in Hd. apply andb_prop in Hd as [Hc Hd].
  apply is_digit_cases in Hc.
  repeat (apply elem_of_cons in Hc as [-> | Hc]); try (by apply elem_of_nil in Hc).
  all: unfold JS.parseInt; cbn [JS.trimStart JS.digits_prefix Spec.decimal_from];
       eval_chars; cbv beta iota zeta;
       cbn [JS.digits_prefix default Spec.decimal_from]; eval_chars;
       cbv beta iota zeta; cbn [JS.digits_prefix default Spec.decimal_from];
       eval_chars; cbv beta iota;
       rewrite digits_prefix_digits by done; reflexivity.
Qed.

Lemma digits_without_dot (digits : string) :
  JS.all_chars JS.is_digit digits = true →
  JS.all_chars (λ c, negb (Ascii.eqb c ".")) digits = true.
Proof.
  induction digits as [|c d IH]; simpl; [done|].
  intros [Hc Hd]%andb_prop. rewrite IH by done. rewrite andb_true_r.
  destruct (Ascii.eqb c ".") eqn:E; [|done].
  apply Ascii.eqb_eq in E as ->. done.
Qed.

Lemma to_double_exact (z : Z) : Z.abs z < 2 ^ 53 → JS.to_double z = JS.Finite z.
Proof.
  intros Hz. unfold JS.to_double.
  destruct (Z.abs z <? 2 ^ 53)%Z eqn:E; [done|]. apply Z.ltb_ge in E. lia.
Qed.

Lemma digit_value_not_decimal (c : ascii) :
  JS.is_digit c = false → JS.digit_value 10 c = None.
Proof.
  intros Hd. unfold JS.digit_value. rewrite Hd.
  destruct ((97 <=? JS.code c)%Z && (JS.code c <=? 122)%Z) eqn:E1.
  - apply andb_prop in E1 as [?%Z.leb_le ?%Z.leb_le].
    destruct (JS.code c - 87 <? 10)%Z eqn:E; [apply Z.ltb_lt in E; lia | done].
  - destruct ((65 <=? JS.code c)%Z && (JS.code c <=? 90)%Z) eqn:E2; [|done].
    apply andb_prop in E2 as [?%Z.leb_le ?%Z.leb_le].
    destruct (JS.code c - 55 <? 10)%Z eqn:E; [apply Z.ltb_lt in E; lia | done].
Qed.

Lemma append_cons (c : ascii) (s t : string) : String c s +:+ t = String c (s +:+ t).
Proof. reflexivity. Qed.

(** The decimal digits a text starts with are read up to the first
    character that is no digit. *)
Lemma digits_prefix_stop (acc : Z) (digits : string) (c : ascii) (tail : string) :
  JS.all_chars JS.is_digit digits = true → JS.is_digit c = false →
  JS.digits_prefix 10 (Some acc) (digits +:+ String c tail)
  = Some (Spec.decimal_from acc digits).
Proof.
  intros Hdigits Hc. revert acc.
  induction digits as [|d digits IH]; intros acc; simpl.
  - by rewrite digit_value_not_decimal.
  - simpl in Hdigits. apply andb_prop in Hdigits as [Hd Hdigits].
    rewrite digit_value_decimal by done. by apply IH.
Qed.

(** [parseInt] on a text that starts with decimal digits followed by a
    character that is no digit (and that does not make [0x] of them):
    the number the digits write; the rest is ignored. *)
Lemma parseInt_prefix (digits : string) (c : ascii) (tail : string) :
  JS.all_chars JS.is_digit digits = true → digits ≠ "" → JS.is_digit c = false →
  (digits = "0" → c ≠ "x"%char ∧ c ≠ "X"%char) →
  JS.parseInt (digits +:+ String c tail) = JS.to_double (Spec.decimal digits).
Proof.
  intros Hall Hne Hc Hhex. destruct digits as [|d0 ds]; [done|].
  simpl in Hall. apply andb_prop in Hall as [Hd0 Hds].
  unfold Spec.decimal.
  apply is_digit_cases in Hd0.
  repeat (apply elem_of_cons in Hd0 as [-> | Hd0]); try (by apply elem_of_nil in Hd0).
  2-10: rewrite ?append_cons; unfold JS.parseInt; cbn [JS.trimStart JS.digits_prefix Spec.decimal_from];
        eval_chars; cbv beta iota zeta;
        cbn [JS.digits_prefix default Spec.decimal_from]; eval_chars; cbv beta iota;
        rewrite digits_prefix_stop by done; reflexivity.
  destruct ds as [|d1 ds].
  - destruct (Hhex eq_refl) as [Hx HX].
    rewrite ?append_cons. change ("" +:+ String c tail) with (String c tail). unfold JS.parseInt. cbn [JS.trimStart]. eval_chars. cbv beta iota zeta.
    assert (JS.digits_prefix 10 None (String "0" (String c tail)) = Some 0) as Hprefix.
    { cbn [JS.digits_prefix]. eval_chars. cbv beta iota. cbn [default].
      cbn [JS.digits_prefix]. by rewrite digit_value_not_decimal. }
    destruct c as [[] [] [] [] [] [] [] []]; try done; by rewrite Hprefix.
  - simpl in Hds. apply andb_prop in Hds as [Hd1 Hds].
    apply is_digit_cases in Hd1.
    repeat (apply elem_of_cons in Hd1 as [-> | Hd1]); try (by apply elem_of_nil in Hd1).
    all: rewrite ?append_cons; unfold JS.parseInt; cbn [JS.trimStart JS.digits_prefix Spec.decimal_from];
         eval_chars; cbv beta iota zeta;
         cbn [JS.digits_prefix default Spec.decimal_from]; eval_chars;
         cbv beta iota zeta; cbn [JS.digits_prefix default Spec.decimal_from];
         eval_chars; cbv beta iota;
         rewrite digits_prefix_stop by done; reflexivity.
Qed.

Lemma trimStart_skips_spaces (ws s : string) :
  JS.all_chars JS.is_space ws = true → JS.trimStart (ws +:+ s) = JS.trimStart s.
Proof.
  induction ws as [|c ws IH]; [done|]. simpl.
  intros [Hc Hws]%andb_prop. rewrite Hc. by apply IH.
Qed.

(** C4, as worded, fails on a requirement whose leading component only
    starts with a number: [parseInt] reads the number and ignores what
    follows it, and it skips white space and a sign before it.  Under
    core version 1.0.0 the requirements [1abc.0.0], [1e3.0], [0x1.0],
    [ 1.0] and [+1.0] are admitted, though their leading components are
    not numbers. *)
Lemma isCompatible_prefix_counterexample :
  CORE_VERSION CONFIG = "1.0.0"
  ∧ (Spec.leading_component "1abc.0.0" = "1abc"
     ∧ JS.all_chars JS.is_digit "1abc" = false
     ∧ Validator.isCompatible CONFIG "1abc.0.0" = true)
  ∧ (Spec.leading_component "1e3.0" = "1e3"
     ∧ Validator.isCompatible CONFIG "1e3.0" = true)
  ∧ (Spec.leading_component "0x1.0" = "0x1"
     ∧ Validator.isCompatible CONFIG "0x1.0" = true)
  ∧ Validator.isCompatible CONFIG " 1.0" = true
  ∧ Validator.isCompatible CONFIG "+1.0" = true.
Proof. by vm_compute. Qed.

(** C4, amended.  [isCompatible] answers [true] exactly when [parseInt]
    reads a number at the start of the leading component of the
    requirement (the text before the first dot) and that number is the
    one it reads from the running core version.  Only the leading
    component counts: two requirements with the same one get the same
    answer whatever their minor and patch parts are.  What [parseInt]
    reads: for a leading component of decimal digits, the number they
    write (as a double: itself below [2^53]); for decimal digits followed
    by other text, the number the digits write, the rest being ignored
    (unless the text starts with [0x], which announces hexadecimal
    digits); white space before the number is skipped, and so is a plus
    sign.  A requirement in which [parseInt] reads no number is rejected,
    and so is every requirement whose first character is not white space,
    a sign or a digit.  With core version 1.3.2 the requirements 1.0.0
    and 1.9.9 are admitted and 2.0.0 is rejected. *)
Theorem isCompatible_iff_same_major (config : Config) (required : string) :
  (Validator.isCompatible config required = true ↔
     JS.parseInt (Spec.leading_component required)
     = JS.parseInt (Spec.leading_component (CORE_VERSION config))
     ∧ JS.parseInt (Spec.leading_component required) ≠ JS.NaN)
  ∧ (∀ leading rest rest',
       JS.all_chars (λ c, negb (Ascii.eqb c ".")) leading = true →
       Spec.leading_component (leading +:+ "." +:+ rest) = leading
       ∧ Validator.isCompatible config (leading +:+ "." +:+ rest)
         = Validator.isCompatible config (leading +:+ "." +:+ rest'))
  ∧ (∀ digits,
       JS.all_chars JS.is_digit digits = true → digits ≠ "" →
       JS.parseInt digits = JS.to_double (Spec.decimal digits)
       ∧ (Z.abs (Spec.decimal digits) < 2 ^ 53 →
          JS.parseInt digits = JS.Finite (Spec.decimal digits)))
  ∧ (∀ digits c tail,
       JS.all_chars JS.is_digit digits = true → digits ≠ "" → JS.is_digit c = false →
       (digits = "0" → c ≠ "x"%char ∧ c ≠ "X"%char) →
       JS.parseInt (digits +:+ String c tail) = JS.parseInt digits)
  ∧ (∀ ws text,
       JS.all_chars JS.is_space ws = true →
       JS.parseInt (ws +:+ text) = JS.parseInt text)
  ∧ (∀ d text,
       JS.is_digit d = true →
       JS.parseInt (String "+" (String d text)) = JS.parseInt (String d text))
  ∧ (JS.parseInt (Spec.leading_component required) = JS.NaN →
     Validator.isCompatible config required = false)
  ∧ (∀ c rest,
       JS.is_space c = false → JS.is_digit c = false → c ≠ "-"%char → c ≠ "+"%char →
       Validator.isCompatible config (String c rest) = false)
  ∧ (let core := mkConfig "1.3.2" "*" "en" in
     Validator.isCompatible core "1.0.0" = true
     ∧ Validator.isCompatible core "1.9.9" = true
     ∧ Validator.isCompatible core "2.0.0" = false).
Proof.
  assert (∀ v, Spec.major v = JS.NaN → Validator.isCompatible config v = false) as Hnan.
  { intros v Hv. rewrite isCompatible_major, Hv.
    by destruct (Spec.major (CORE_VERSION config)). }
  split; [|split; [|split; [|split; [|split; [|split; [|split; [|split]]]]]]].
  - rewrite isCompatible_major, strict_eq_spec. unfold Spec.major. split.
    + intros [E Hn]. split; congruence.
    + intros [E Hn]. split; congruence.
  - intros leading rest rest' Hdots.
    rewrite !isCompatible_major. unfold Spec.major.
    by rewrite !leading_component_app.
  - intros digits Hdigits Hne.
    pose proof (parseInt_digits digits Hdigits Hne) as E.
    split; [done|]. intros Hsmall. by rewrite E, to_double_exact.
  - intros digits c tail Hdigits Hne Hc Hhex.
    by rewrite parseInt_prefix, parseInt_digits.
  - intros ws text Hws. unfold JS.parseInt. by rewrite trimStart_skips_spaces.
  - intros d text Hd. apply is_digit_cases in Hd.
    repeat (apply elem_of_cons in Hd as [-> | Hd]); try (by apply elem_of_nil in Hd).
    all: reflexivity.
  - apply Hnan.
  - intros c rest Hs Hd Hm Hp. apply Hnan. unfold Spec.major. simpl.
    destruct (Ascii.eqb c "."); [done|].
    by apply parseInt_not_numeric.
  - by vm_compute.
Qed.

(* ====================================================================== *)
(** ** Registry: templates *)
(* ====================================================================== *)

Lemma themed_key_not_landing (theme view : string) : theme +:+ ":" +:+ view ≠ "landing".
Proof.
  intros E.
  assert (JS.includes ":" (theme +:+ ":" +:+ view) = true) as Hin.
  { clear E. induction theme as [|c theme IH]; simpl; [done|].
    rewrite IH. apply orb_true_r. }
  by rewrite E in Hin.
Qed.

(** C9.  [registerThemeView T 'landing' H] writes [H] at the two keys
    [T:landing] and [landing], replacing whatever bare [landing] alias was
    there, and leaves every other template as it was; for a view other
    than [landing] only the key [T:view] is written.  No other table of
    the Registry changes. *)
Theorem registerThemeView_writes (theme view html : string) (r : Registry.t) :
  Registry.templates (Registry.registerThemeView theme "landing" html r)
    = <["landing" := html]> (<[theme +:+ ":landing" := html]> (Registry.templates r))
  ∧ Registry.templates (Registry.registerThemeView theme "landing" html r)
      !! (theme +:+ ":landing") = Some html
  ∧ Registry.templates (Registry.registerThemeView theme "landing" html r)
      !! "landing" = Some html
  ∧ (∀ key, key ≠ theme +:+ ":landing" → key ≠ "landing" →
       Registry.templates (Registry.registerThemeView theme "landing" html r) !! key
       = Registry.templates r !! key)
  ∧ (view ≠ "landing" →
       Registry.templates (Registry.registerThemeView theme view html r)
       = <[theme +:+ ":" +:+ view := html]> (Registry.templates r)
       ∧ ∀ key, key ≠ theme +:+ ":" +:+ view →
           Registry.templates (Registry.registerThemeView theme view html r) !! key
           = Registry.templates r !! key)
  ∧ (let r' := Registry.registerThemeView theme view html r in
     Registry.menus r' = Registry.menus r ∧ Registry.schemas r' = Registry.schemas r
     ∧ Registry.activeTheme r' = Registry.activeTheme r
     ∧ Registry.pluginList r' = Registry.pluginList r
     ∧ Registry.systemLogs r' = Registry.systemLogs r
     ∧ Registry.translations r' = Registry.translations r).
Proof.
  assert (Registry.templates (Registry.registerThemeView theme "landing" html r)
          = <["landing" := html]> (<[theme +:+ ":landing" := html]> (Registry.templates r)))
    as Hlanding by done.
  split; [done|]. rewrite Hlanding.
  split.
  { rewrite lookup_insert_ne; [apply lookup_insert_eq|].
    intros E. symmetry in E. by apply (themed_key_not_landing theme "landing"). }
  split; [apply lookup_insert_eq|].
  split.
  { intros key H1 H2. by rewrite !lookup_insert_ne. }
  split.
  { intros Hview. unfold Registry.registerThemeView.
    rewrite bool_decide_eq_false_2 by done. simpl.
    split; [done|]. intros key Hkey. by rewrite lookup_insert_ne. }
  unfold Registry.registerThemeView. simpl.
  destruct (bool_decide (view = "landing")); by destruct r.
Qed.

(** C5, as worded, fails on an empty template: a bare entry that is the
    empty string is there, yet [getView] reports not-found, and an empty
    theme-scoped entry lets the bare one through.  The scenario fails
    when the bare alias is registered before the theme view:
    [registerThemeView] writes the bare [landing] entry too, so after the
    switch to the other theme the markup of [themeA] comes out, not the
    alias. *)
Lemma getView_empty_entry_counterexample :
  let r := Registry.registerView "about" "" Registry.initial in
  let r' := Registry.registerView "about" "<p>bare</p>"
              (Registry.registerThemeView "nebula" "about" "" Registry.initial) in
  let late := Registry.setActiveTheme "12:00:00" "aurora"
                (Registry.registerThemeView "nebula" "landing" "<h1>Nebula</h1>"
                   (Registry.registerView "landing" "<h1>Alias</h1>" Registry.initial)) in
  (Registry.templates r !! "nebula:about" = None
   ∧ Registry.templates r !! "about" = Some ""
   ∧ Spec.getView "about" r = Some ""
   ∧ Registry.getView "about" r = None)
  ∧ (Registry.templates r' !! "nebula:about" = Some ""
     ∧ Spec.getView "about" r' = Some ""
     ∧ Registry.getView "about" r' = Some "<p>bare</p>")
  ∧ (Registry.templates late !! "aurora:landing" = None
     ∧ Registry.templates late !! "nebula:landing" = Some "<h1>Nebula</h1>"
     ∧ Registry.getView "landing" late = Some "<h1>Nebula</h1>").
Proof. by vm_compute. Qed.

Lemma getView_usable (view : string) (r : Registry.t) :
  Registry.getView view r
  = match Spec.usable (Registry.templates r !! (Registry.activeTheme r +:+ ":" +:+ view)) with
    | Some html => Some html
    | None => Spec.usable (Registry.templates r !! view)
    end.
Proof.
  unfold Registry.getView, Registry.template_or_null, Spec.usable, present.
  destruct (Registry.templates r !! (Registry.activeTheme r +:+ ":" +:+ view)) as [h|];
    [destruct (JS.truthy h)|]; done.
Qed.

(** The bare [landing] entry after the active theme was switched to a
    theme without a usable landing entry of its own. *)
Lemma getView_landing_bare (time theme : string) (r : Registry.t) :
  Spec.usable (Registry.templates r !! (theme +:+ ":landing")) = None →
  Registry.getView "landing" (Registry.setActiveTheme time theme r)
  = Spec.usable (Registry.templates r !! "landing").
Proof.
  intros Hnone. rewrite getView_usable. simpl.
  change (theme +:+ ":" +:+ "landing") with (theme +:+ ":landing").
  by rewrite Hnone.
Qed.

(** C5, amended.  For a view name that [Object.prototype] does not
    define: [getView] looks up the entry keyed [activeTheme:view]; if
    that entry is absent or empty it falls back to the entry keyed by the
    bare view name; if that one is absent or empty too it answers
    [null].  On a table without empty templates this is the precedence
    of the design document.  After a template was registered under
    [(themeA, landing)] and a bare [landing] alias, and the active theme
    was switched to a [themeB] without a usable [(themeB, landing)]
    entry, [getView 'landing'] is the bare [landing] entry as the later
    of the two registrations left it: the alias when the alias was
    registered last and is not empty; the markup given for [themeA], which
    [registerThemeView] writes to the bare entry as well, when the theme
    view was registered last. *)
Theorem getView_precedence (view : string) (r : Registry.t) :
  JS.inherited view = false →
  Registry.getView view r
  = match Spec.usable (Registry.templates r !! (Registry.activeTheme r +:+ ":" +:+ view)) with
    | Some html => Some html
    | None => Spec.usable (Registry.templates r !! view)
    end
  ∧ ((∀ key html, Registry.templates r !! key = Some html → html ≠ "") →
     Registry.getView view r = Spec.getView view r)
  ∧ (∀ time themeA themeB htmlA alias,
       themeA ≠ themeB →
       Spec.usable (Registry.templates r !! (themeB +:+ ":landing")) = None →
       (alias ≠ "" →
        Registry.getView "landing"
          (Registry.setActiveTheme time themeB
             (Registry.registerView "landing" alias
                (Registry.registerThemeView themeA "landing" htmlA r)))
        = Some alias)
       ∧ (htmlA ≠ "" →
          Registry.getView "landing"
            (Registry.setActiveTheme time themeB
               (Registry.registerThemeView themeA "landing" htmlA
                  (Registry.registerView "landing" alias r)))
          = Some htmlA)).
Proof.
  intros _.
  split; [apply getView_usable|]. split.
  - intros Hne. rewrite getView_usable. unfold Spec.getView, Spec.usable.
    destruct (Registry.templates r !! (Registry.activeTheme r +:+ ":" +:+ view)) as [h|] eqn:E1.
    + apply Hne in E1. apply truthy_spec in E1. by rewrite E1.
    + destruct (Registry.templates r !! view) as [h|] eqn:E2; [|done].
      apply Hne in E2. apply truthy_spec in E2. by rewrite E2.
  - intros time themeA themeB htmlA alias Hthemes Hnone.
    assert (themeB +:+ ":landing" ≠ themeA +:+ ":landing") as Hkeys.
    { intros E. apply Hthemes. symmetry.
      clear -E. revert themeB E.
      induction themeA as [|a themeA IH]; intros [|b themeB] E; simpl in *; try done.
      - injection E as E1 E2. subst. exfalso.
        by apply (themed_key_not_landing themeB "landing").
      - injection E as E1 E2. subst. exfalso. symmetry in E2.
        by apply (themed_key_not_landing themeA "landing").
      - injection E as -> E. f_equal. by apply IH. }
    assert (themeB +:+ ":landing" ≠ "landing") as Hbare
      by apply (themed_key_not_landing themeB "landing").
    split.
    + intros Halias. rewrite getView_landing_bare.
      * simpl. rewrite lookup_insert_eq. simpl.
        apply truthy_spec in Halias. by rewrite Halias.
      * simpl. rewrite !lookup_insert_ne by done. exact Hnone.
    + intros HhtmlA. rewrite getView_landing_bare.
      * simpl. rewrite lookup_insert_eq. simpl.
        apply truthy_spec in HhtmlA. by rewrite HhtmlA.
      * simpl. rewrite !lookup_insert_ne by done. exact Hnone.
Qed.

Lemma getView_precedence_witness :
  Registry.getView "landing" Toy.mounted
  = Some "<p>{{status}} / {{plugin_count}} plugins / core {{core_version}} / {{theme_name}} {{year}} {{unknown}}</p>"
  ∧ Registry.getView "landing"
      (Registry.setActiveTheme "12:00:00" "aurora"
         (Registry.registerView "landing" "<h1>Alias</h1>"
            (Registry.registerThemeView "nebula" "landing" "<h1>Nebula</h1>" Registry.initial)))
    = Some "<h1>Alias</h1>".
Proof.
  assert (Hview : JS.inherited "landing" = false) by reflexivity.
  destruct (getView_precedence "landing" Toy.mounted Hview) as (Hmounted & _ & _).
  destruct (getView_precedence "landing" Registry.initial Hview) as (_ & _ & Hscenario).
  split.
  - rewrite Hmounted. reflexivity.
  - destruct (Hscenario "12:00:00" "nebula" "aurora" "<h1>Nebula</h1>" "<h1>Alias</h1>")
      as [Halias _]; [done | reflexivity |].
    apply Halias. done.
Defined.

(* ====================================================================== *)
(** ** Registry: translations *)
(* ====================================================================== *)

Lemma getTranslation_register (locale key : string) (data : gmap string string)
    (r : Registry.t) :
  Registry.getTranslation locale key (Registry.registerTranslation locale data r)
  = match data !! key with
    | Some text => Spec.usable (Some text)
    | None => Registry.getTranslation locale key r
    end.
Proof.
  unfold Registry.getTranslation, Registry.registerTranslation. simpl.
  rewrite lookup_insert_eq, lookup_union.
  destruct (data !! key) as [text|] eqn:E; simpl.
  - by destruct (default ∅ (Registry.translations r !! locale) !! key).
  - destruct (Registry.translations r !! locale) as [table|]; simpl.
    + by destruct (table !! key).
    + by rewrite lookup_empty.
Qed.

Lemma getTranslation_register_other_locale (locale locale' key : string)
    (data : gmap string string) (r : Registry.t) :
  locale ≠ locale' →
  Registry.getTranslation locale' key (Registry.registerTranslation locale data r)
  = Registry.getTranslation locale' key r.
Proof.
  intros Hne. unfold Registry.getTranslation, Registry.registerTranslation. simpl.
  by rewrite lookup_insert_ne.
Qed.




(* ====================================================================== *)
(** ** The database wrapper *)
(* ====================================================================== *)

(** Unfold the combinators of the monad down to the calls on the binding. *)
Ltac run_monad :=
  unfold try_catch, bind, d1_call, ret, throw, Spec.after.

Section DatabaseFacts.
Context {S D : Type} `{Duration D}.
Variable d1 : D1Database S D.

Lemma after_nil (w : World S) : Spec.after w (db w) [] = w.
Proof. destruct w. unfold Spec.after. simpl. by rewrite app_nil_r. Qed.

Lemma after_after (w : World S) (s s' : S) (cs cs' : list D1Call) :
  Spec.after (Spec.after w s cs) s' cs' = Spec.after w s' (cs ++ cs').
Proof. unfold Spec.after. simpl. by rewrite app_assoc. Qed.

Lemma findOne_eq (query : string) (params : list Val) (w : World S) :
  Database.findOne d1 query params w
  = (Ok (match (d1_first d1 query params (db w)).1 with
         | Ok row => row
         | Throw _ => None
         end),
     Spec.after w (d1_first d1 query params (db w)).2 [CallFirst query params]).
Proof.
  unfold Database.findOne. run_monad.
  by destruct (d1_first d1 query params (db w)) as [[row|e] s'].
Qed.

Lemma findAll_eq (query : string) (params : list Val) (w : World S) :
  Database.findAll d1 query params w
  = (Ok (match (d1_all d1 query params (db w)).1 with
         | Ok rows => default [] rows
         | Throw _ => []
         end),
     Spec.after w (d1_all d1 query params (db w)).2 [CallAll query params]).
Proof.
  unfold Database.findAll. run_monad.
  by destruct (d1_all d1 query params (db w)) as [[rows|e] s'].
Qed.

Lemma run_eq (query : string) (params : list Val) (w : World S) :
  Database.run d1 query params w
  = (match (d1_run d1 query params (db w)).1 with
     | Ok res =>
         Ok (match meta res with
             | None => mkD1Result (Some (mkMeta dzero 0%Z 0%Z "shim"))
             | Some _ => res
             end)
     | Throw e => Throw ("Database run error: " +:+ e)
     end,
     Spec.after w (d1_run d1 query params (db w)).2 [CallRun query params]).
Proof.
  unfold Database.run. run_monad.
  destruct (d1_run d1 query params (db w)) as [[res|e] s']; simpl; [|done].
  by destruct (meta res).
Qed.

(** [raw] never throws; it reports failure exactly when the binding
    throws on the statements, and it hands the statements to the binding
    in one call. *)
Lemma raw_eq (sql : string) (w : World S) :
  ∃ res,
    Database.raw d1 sql w
    = (Ok res, Spec.after w (Spec.executor_outcome d1 sql (db w)).2 (Spec.executor_calls sql))
    ∧ match (Spec.executor_outcome d1 sql (db w)).1 with
      | Some e => Database.success res = Some false ∧ Database.error res = Some e
      | None => Database.success res ≠ Some false
      end.
Proof.
  unfold Database.raw, Spec.executor_outcome, Spec.executor_calls, Spec.blank.
  destruct (negb (JS.truthy sql) || bool_decide (JS.trim sql = "")).
  { eexists. simpl. rewrite after_nil. split; [reflexivity|]. simpl. congruence. }
  run_monad.
  destruct (Database.splitStatements sql) as [|st [|st' sts]]; simpl.
  - destruct (d1_batch d1 [] (db w)) as [[rs|e] s']; simpl;
      eexists; (split; [reflexivity|]); simpl; try congruence; done.
  - destruct (d1_exec d1 st (db w)) as [[rs|e] s']; simpl;
      eexists; (split; [reflexivity|]); simpl; try congruence; done.
  - destruct (d1_batch d1 (st :: st' :: sts) (db w)) as [[rs|e] s']; simpl;
      eexists; (split; [reflexivity|]); simpl; try congruence; done.
Qed.

(** The page lookup of the homepage router hands back a value. *)
Lemma page_branch_total (homeType : Val) (target : option Row) (w : World S) :
  ∃ returned w', App.page_branch d1 homeType target w = (Ok returned, w').
Proof.
  unfold App.page_branch.
  destruct (bool_decide (homeType = VStr "page") && val_truthy (column_opt target "value"));
    [|by eexists _, _].
  unfold try_catch, bind. rewrite findOne_eq.
  destruct (d1_first d1 App.PAGE_BY_ID [column_opt target "value"] (db w)) as [[[page|]|e] s'];
    simpl; by eexists _, _.
Qed.

End DatabaseFacts.

(** C10.  [findOne] and [findAll] always hand back a value: the record
    or the rows the binding produced, and [null] or the empty list when
    the binding threw.  A read that failed and a read that matched
    nothing therefore give the caller the same answer.  The page lookup
    of the homepage router, which goes through [findOne], hands back a
    value as well. *)
Theorem findOne_findAll_never_throw {S D : Type} (d1 : D1Database S D)
    (query : string) (params : list Val) (w : World S) :
  Database.findOne d1 query params w
  = (Ok (match (d1_first d1 query params (db w)).1 with
         | Ok row => row
         | Throw _ => None
         end),
     Spec.after w (d1_first d1 query params (db w)).2 [CallFirst query params])
  ∧ Database.findAll d1 query params w
    = (Ok (match (d1_all d1 query params (db w)).1 with
           | Ok rows => default [] rows
           | Throw _ => []
           end),
       Spec.after w (d1_all d1 query params (db w)).2 [CallAll query params])
  ∧ (∀ e, (d1_first d1 query params (db w)).1 = Throw e →
          (Database.findOne d1 query params w).1 = Ok None)
  ∧ ((d1_first d1 query params (db w)).1 = Ok None →
     (Database.findOne d1 query params w).1 = Ok None)
  ∧ (∀ e, (d1_all d1 query params (db w)).1 = Throw e →
          (Database.findAll d1 query params w).1 = Ok [])
  ∧ ((d1_all d1 query params (db w)).1 = Ok (Some []) →
     (Database.findAll d1 query params w).1 = Ok [])
  ∧ (∀ homeType target,
       ∃ returned w', App.page_branch d1 homeType target w = (Ok returned, w')).
Proof.
  rewrite findOne_eq, findAll_eq. simpl.
  split; [done|]. split; [done|].
  split; [by intros e ->|]. split; [by intros ->|].
  split; [by intros e ->|]. split; [by intros ->|].
  intros homeType target. apply page_branch_total.
Qed.

(* ====================================================================== *)
(** ** The migrator *)
(* ====================================================================== *)

Section MigratorFacts.
Context {S D : Type} `{Duration D}.
Variable d1 : D1Database S D.

(** Every path through [applyMigration]. *)
Lemma applyMigration_eq (slug version sql : string) (w : World S) :
  let lookup := d1_first d1 Migrator.LEDGER_LOOKUP [VStr slug; VStr version] (db w) in
  let exec := Spec.executor_outcome d1 sql lookup.2 in
  let ins := d1_run d1 Migrator.LEDGER_INSERT [VStr slug; VStr version] exec.2 in
  ∃ duration : D,
    Migrator.applyMigration d1 slug version sql w
    = match lookup.1 with
      | Ok (Some _) =>
          (Ok (Migrator.skip_line slug version),
           Spec.after w lookup.2 [Spec.lookup_call slug version])
      | _ =>
          match exec.1 with
          | Some e =>
              (Ok (Migrator.failed_line slug version (Some e)),
               Spec.after w exec.2 (Spec.lookup_call slug version :: Spec.executor_calls sql))
          | None =>
              (Ok (match ins.1 with
                   | Ok _ => Migrator.success_line slug version (toFixed4 duration)
                   | Throw e => Migrator.fatal_line slug ("Database run error: " +:+ e)
                   end),
               Spec.after w ins.2
                 (Spec.lookup_call slug version :: Spec.executor_calls sql
                    ++ [Spec.insert_call slug version]))
          end
      end.
Proof.
  simpl. unfold Migrator.applyMigration, try_catch, bind.
  rewrite findOne_eq.
  destruct (d1_first d1 Migrator.LEDGER_LOOKUP [VStr slug; VStr version] (db w))
    as [lookup s1]. simpl.
  destruct (raw_eq d1 sql
              (Spec.after w s1 [CallFirst Migrator.LEDGER_LOOKUP [VStr slug; VStr version]]))
    as (res & Hraw & Hres).
  simpl in Hraw, Hres.
  exists (or_zero (Some (Database.duration res))).
  destruct lookup as [[row|]|e]; simpl; [done | |].
  all: rewrite Hraw; clear Hraw.
  all: destruct (Spec.executor_outcome d1 sql s1) as [[e'|] s2]; simpl in *.
  all: try (destruct Hres as [-> ->]; simpl; unfold ret; by rewrite after_after).
  all: rewrite bool_decide_eq_false_2 by done.
  all: rewrite run_eq, !after_after; simpl.
  all: destruct (d1_run d1 Migrator.LEDGER_INSERT [VStr slug; VStr version] s2)
         as [[res'|e''] s3]; simpl; unfold ret, Spec.lookup_call, Spec.insert_call.
  all: done.
Qed.

(** [applyMigration] hands back an outcome line on every path, and
    touches nothing but the store. *)
Lemma applyMigration_total (slug version sql : string) (w : World S) :
  ∃ line s' new_calls,
    Migrator.applyMigration d1 slug version sql w
    = (Ok line, Spec.after w s' new_calls).
Proof.
  destruct (applyMigration_eq slug version sql w) as [duration ->].
  destruct (d1_first _ _ _ _).1 as [[row|]|e];
    try destruct (Spec.executor_outcome _ _ _).1; by eexists _, _, _.
Qed.

End MigratorFacts.

Lemma insert_not_among_executor_calls (slug version sql : string) :
  Spec.insert_call slug version ∉ Spec.lookup_call slug version :: Spec.executor_calls sql.
Proof.
  unfold Spec.executor_calls, Spec.insert_call, Spec.lookup_call.
  intros Hin. apply elem_of_cons in Hin as [Hin|Hin]; [done|].
  destruct (Spec.blank sql); [by apply elem_of_nil in Hin|].
  destruct (Database.splitStatements sql) as [|st [|st' sts]];
    apply elem_of_cons in Hin as [Hin|Hin]; try done; by apply elem_of_nil in Hin.
Qed.

Lemma initSystem_eq {S D : Type} `{Duration D} (d1 : D1Database S D) (w : World S) :
  Migrator.initSystem d1 w
  = (match (d1_run d1 Migrator.CREATE_LEDGER [] (db w)).1 with
     | Ok _ => Ok tt
     | Throw e => Throw ("Migration System Init Failed: " +:+ "Database run error: " +:+ e)
     end,
     Spec.after w (d1_run d1 Migrator.CREATE_LEDGER [] (db w)).2
       [CallRun Migrator.CREATE_LEDGER []]).
Proof.
  unfold Migrator.initSystem, try_catch, bind. rewrite run_eq.
  by destruct (d1_run d1 Migrator.CREATE_LEDGER [] (db w)).1.
Qed.

Section SweepFacts.
Context {S D : Type} `{Duration D}.
Variable d1 : D1Database S D.

(** The loop of the sweep is [Spec.sweep]: every schema gets its run, in
    the world the runs before it left, and its line. *)
Lemma sweep_loop_eq (schemas : list Registry.MigrationSchema) (w : World S) :
  for_each schemas (λ s,
    result <- Migrator.applyMigration d1
                (Registry.slug s) (Registry.version s) (Registry.sql s) ;;
    push_log (Admin.outcome_line result)) w
  = (Ok tt, (Spec.sweep d1 schemas w).2)
  ∧ logs (Spec.sweep d1 schemas w).2
    = (logs w ++ (Admin.outcome_line <$> (Spec.sweep d1 schemas w).1))%list
  ∧ length (Spec.sweep d1 schemas w).1 = length schemas
  ∧ Forall2 (λ s result,
       ∃ w0 w1, Migrator.applyMigration d1
                  (Registry.slug s) (Registry.version s) (Registry.sql s) w0
                = (Ok result, w1))
      schemas (Spec.sweep d1 schemas w).1.
Proof.
  revert w. induction schemas as [|s schemas IH]; intros w.
  - simpl. rewrite app_nil_r. repeat split; constructor.
  - cbn [for_each Spec.sweep]. unfold bind at 1. unfold bind at 1.
    destruct (applyMigration_total d1 (Registry.slug s) (Registry.version s)
                (Registry.sql s) w) as (line & s' & cs & Hrun).
    rewrite Hrun. unfold push_log at 1.
    fold (Spec.pushed (Admin.outcome_line line) (Spec.after w s' cs)).
    destruct (IH (Spec.pushed (Admin.outcome_line line) (Spec.after w s' cs)))
      as (Hloop & Hlogs & Hlen & Htied).
    destruct (Spec.sweep d1 schemas
                (Spec.pushed (Admin.outcome_line line) (Spec.after w s' cs)))
      as [results w'] eqn:Hsweep.
    simpl in *. split; [exact Hloop|]. split; [by rewrite Hlogs, <- app_assoc|].
    split; [by rewrite Hlen|].
    constructor; [by eexists _, _ | done].
Qed.

End SweepFacts.

(** C2, as worded, fails in its last part: the sweep gives no outcome
    line at all, however many schemas are registered, when the D1 binding
    is absent (the one [[CRITICAL]] line, status 500) and when the ledger
    table cannot be created (the one [[FATAL]] line). *)
Lemma migrate_no_outcome_counterexample :
  let r := Registry.registerSchema "12:00:00" "shop" "1.0.0" "CREATE TABLE products (id INTEGER)"
             (Registry.registerSchema "12:00:00" "blog" "1.7.2" "CREATE TABLE posts (id INTEGER)"
                Registry.initial) in
  length (Registry.getSchemas r) = 2%nat
  ∧ (Admin.migrate Toy.d1 false (Toy.world Toy.fresh r)).1
    = Ok (Json (Some false) ["[CRITICAL] D1 Database not connected"] 500)
  ∧ (Admin.migrate Notions.offline true (mkWorld tt [] r Toy.noon [])).1
    = Ok (Json None
            [Admin.span (Some "#ff4444")
               "[FATAL] Migration System Init Failed: Database run error: D1_ERROR: database unavailable"]
            200)
  ∧ calls (Admin.migrate Notions.offline true (mkWorld tt [] r Toy.noon [])).2
    = [CallRun Migrator.CREATE_LEDGER []].
Proof. by vm_compute. Qed.

(** C2, amended.  [applyMigration] hands back an outcome line on every
    path: it never throws.  When the ledger lookup finds no row and the
    binding throws on the statements of the schema (so that the executor
    reports [success = false]), the line is the [[ERROR]] line carrying
    the message, and the only calls made are the lookup and the executor
    call: the pair is not inserted, and a later run whose lookup finds no
    row either hands the statements to the executor again.  When the
    insert itself throws the line is an [[ERROR]] line too.  In the sweep,
    once the D1 binding is there and the ledger table could be created,
    the response carries the ready line, the no-schemas line if there is
    no schema, and then, for every registered schema in turn, the line of
    what [applyMigration] returned for it in the world the schemas before
    it left: one line per schema, whatever happened to the others, each
    a [span] around the result, red for a result with [[ERROR]] in it.
    When the ledger table cannot be created the response is the one
    [[FATAL]] line and no schema is tried; without a binding it is the
    [[CRITICAL]] line with status 500. *)
Theorem applyMigration_failure_is_error {S D : Type} `{Duration D}
    (d1 : D1Database S D) (slug version sql : string) (w : World S) :
  let lookup := d1_first d1 Migrator.LEDGER_LOOKUP [VStr slug; VStr version] (db w) in
  let exec := Spec.executor_outcome d1 sql lookup.2 in
  let ins := d1_run d1 Migrator.LEDGER_INSERT [VStr slug; VStr version] exec.2 in
  let init := d1_run d1 Migrator.CREATE_LEDGER [] (db w) in
  let ready := Admin.span (Some "#00ff9d") "[SYSTEM] Migration Engine Ready." in
  let info := if bool_decide (length (Registry.getSchemas (registry w)) = 0%nat)
              then [Admin.span None "[INFO] No pending schemas found."]
              else [] in
  (∃ line s' new_calls,
     Migrator.applyMigration d1 slug version sql w = (Ok line, Spec.after w s' new_calls))
  ∧ (∀ e, (∀ row, lookup.1 ≠ Ok (Some row)) → exec.1 = Some e →
       let failed := Migrator.applyMigration d1 slug version sql w in
       failed
       = (Ok (Migrator.failed_line slug version (Some e)),
          Spec.after w exec.2 (Spec.lookup_call slug version :: Spec.executor_calls sql))
       ∧ JS.startsWith "[ERROR]" (Migrator.failed_line slug version (Some e)) = true
       ∧ (Spec.insert_call slug version
            ∉ Spec.lookup_call slug version :: Spec.executor_calls sql)
       ∧ ((∀ row, (d1_first d1 Migrator.LEDGER_LOOKUP [VStr slug; VStr version]
                     (db failed.2)).1 ≠ Ok (Some row)) →
          ∃ more,
            calls (Migrator.applyMigration d1 slug version sql failed.2).2
            = (calls failed.2
                 ++ Spec.lookup_call slug version :: Spec.executor_calls sql ++ more)%list))
  ∧ (∀ e, (∀ row, lookup.1 ≠ Ok (Some row)) → exec.1 = None → ins.1 = Throw e →
       ∃ line, (Migrator.applyMigration d1 slug version sql w).1 = Ok line
               ∧ JS.startsWith "[ERROR]" line = true)
  ∧ (∀ res, init.1 = Ok res →
       let swept :=
         Spec.sweep d1 (Registry.getSchemas (registry w))
           (mkWorld init.2 (calls w ++ [CallRun Migrator.CREATE_LEDGER []])
              (registry w) (clock w) (ready :: info)) in
       Admin.migrate d1 true w
       = (Ok (Json None (ready :: info ++ (Admin.outcome_line <$> swept.1)) 200), swept.2)
       ∧ length swept.1 = length (Registry.getSchemas (registry w))
       ∧ Forall2 (λ s result,
            ∃ w0 w1, Migrator.applyMigration d1
                       (Registry.slug s) (Registry.version s) (Registry.sql s) w0
                     = (Ok result, w1))
           (Registry.getSchemas (registry w)) swept.1)
  ∧ (∀ e, init.1 = Throw e →
       let fatal :=
         Admin.span (Some "#ff4444")
           ("[FATAL] Migration System Init Failed: Database run error: " +:+ e) in
       Admin.migrate d1 true w
       = (Ok (Json None [fatal] 200),
          mkWorld init.2 (calls w ++ [CallRun Migrator.CREATE_LEDGER []])
            (registry w) (clock w) [fatal]))
  ∧ Admin.migrate d1 false w
    = (Ok (Json (Some false) ["[CRITICAL] D1 Database not connected"] 500), w)
  ∧ (∀ result,
       (∃ colour, Admin.outcome_line result = Admin.span (Some colour) result)
       ∧ (JS.includes "[ERROR]" result = true →
          Admin.outcome_line result = Admin.span (Some "#ff4444") result)).
Proof.
  simpl. split; [apply applyMigration_total|].
  destruct (applyMigration_eq d1 slug version sql w) as [duration Heq]. simpl in Heq.
  split; [|split; [|split; [|split; [|split]]]].
  - intros e Hrow Hexec.
    assert (Hfailed : Migrator.applyMigration d1 slug version sql w
              = (Ok (Migrator.failed_line slug version (Some e)),
                 Spec.after w
                   (Spec.executor_outcome d1 sql
                      (d1_first d1 Migrator.LEDGER_LOOKUP [VStr slug; VStr version] (db w)).2).2
                   (Spec.lookup_call slug version :: Spec.executor_calls sql))).
    { rewrite Heq, Hexec.
      destruct (d1_first _ _ _ _).1 as [[row|]|e']; [by destruct (Hrow row) | done | done]. }
    split; [exact Hfailed|]. split; [done|].
    split; [apply insert_not_among_executor_calls|].
    rewrite Hfailed. cbn [snd]. clear Heq Hfailed.
    set (s1 := (Spec.executor_outcome d1 sql
                  (d1_first d1 Migrator.LEDGER_LOOKUP [VStr slug; VStr version] (db w)).2).2).
    intros Hrow'. change (db (Spec.after w s1 _)) with s1 in Hrow'.
    destruct (applyMigration_eq d1 slug version sql
                (Spec.after w s1 (Spec.lookup_call slug version :: Spec.executor_calls sql)))
      as [duration' Heq'].
    cbn zeta in Heq'. change (db (Spec.after w s1 _)) with s1 in Heq'.
    rewrite Heq'. clear Heq'.
    destruct (d1_first d1 Migrator.LEDGER_LOOKUP [VStr slug; VStr version] s1).1
      as [[row|]|e'] eqn:Hagain; [exfalso; by apply (Hrow' row) | |].
    all: destruct (Spec.executor_outcome d1 sql
                     (d1_first d1 Migrator.LEDGER_LOOKUP [VStr slug; VStr version] s1).2).1;
           simpl.
    all: try (exists []; by rewrite app_nil_r).
    all: by exists [Spec.insert_call slug version].
  - intros e Hrow Hexec Hins. rewrite Heq, Hexec, Hins.
    destruct (d1_first _ _ _ _).1 as [[row|]|e']; [by destruct (Hrow row) | |];
      by eexists.
  - intros res Hinit. unfold Admin.migrate. simpl.
    unfold bind at 1. unfold new_logs at 1.
    unfold bind at 1. unfold try_catch at 1.
    unfold bind at 1. rewrite initSystem_eq. simpl. rewrite Hinit.
    unfold bind at 1. unfold push_log at 1. simpl.
    unfold bind at 1. unfold get_registry at 1. simpl.
    unfold bind at 1.
    set (schemas := Registry.getSchemas (registry w)).
    destruct (bool_decide (length schemas = 0%nat)); simpl.
    all: match goal with |- context [for_each ?l ?b ?w2] =>
           destruct (sweep_loop_eq d1 l w2) as (Hloop & Hlogs & Hlen & Htied) end.
    all: unfold Spec.after in *; simpl in *.
    all: rewrite Hloop; simpl; unfold bind, get_logs, ret; simpl; rewrite Hlogs; simpl.
    all: by repeat split.
  - intros e Hinit. unfold Admin.migrate. simpl.
    unfold bind at 1. unfold new_logs at 1.
    unfold bind at 1. unfold try_catch at 1.
    unfold bind at 1. rewrite initSystem_eq. simpl. rewrite Hinit.
    unfold push_log, bind, get_logs, ret, Spec.after. simpl. done.
  - done.
  - intros result. unfold Admin.outcome_line.
    destruct (JS.includes "[ERROR]" result); [split; [by eexists | done]|].
    destruct (JS.includes "[SKIP]" result); (split; [by eexists | done]).
Qed.

Section LedgerFacts.
Context {S D : Type} `{Duration D}.
Variable d1 : D1Database S D.
Variable applied : S → string → string → bool.
Hypothesis contract : Spec.ledger_contract d1 applied.

Lemma executor_keeps_ledger (sql : string) (s : S) (slug version : string) :
  applied (Spec.executor_outcome d1 sql s).2 slug version = applied s slug version.
Proof.
  unfold Spec.executor_outcome.
  destruct (Spec.blank sql); [done|].
  destruct (Database.splitStatements sql) as [|st [|st' sts]].
  - rewrite <- (Spec.batch_keeps_ledger _ _ contract [] s slug version).
    by destruct (d1_batch d1 [] s) as [[?|?] ?].
  - rewrite <- (Spec.exec_keeps_ledger _ _ contract st s slug version).
    by destruct (d1_exec d1 st s) as [[?|?] ?].
  - rewrite <- (Spec.batch_keeps_ledger _ _ contract (st :: st' :: sts) s slug version).
    by destruct (d1_batch d1 (st :: st' :: sts) s) as [[?|?] ?].
Qed.

Lemma lookup_unapplied (s : S) (slug version : string) :
  applied s slug version = false →
  d1_first d1 Migrator.LEDGER_LOOKUP [VStr slug; VStr version] s = (Ok None, s).
Proof.
  intros Happlied.
  destruct (Spec.lookup_ledger _ _ contract s slug version) as ([row|] & -> & Hrow); [|done].
  destruct Hrow as [Hrow _]. rewrite Hrow in Happlied; [done | by eexists].
Qed.

Lemma lookup_applied (s : S) (slug version : string) :
  applied s slug version = true →
  ∃ row, d1_first d1 Migrator.LEDGER_LOOKUP [VStr slug; VStr version] s = (Ok (Some row), s).
Proof.
  intros Happlied.
  destruct (Spec.lookup_ledger _ _ contract s slug version) as ([row|] & -> & Hrow);
    [by eexists|].
  destruct Hrow as [_ Hrow]. by destruct (Hrow Happlied).
Qed.

End LedgerFacts.

Lemma toy_ledger_contract : Spec.ledger_contract Toy.d1 Toy.applied.
Proof.
  split.
  - intros s slug version. simpl. unfold Toy.first.
    rewrite bool_decide_eq_true_2 by done.
    eexists. split; [reflexivity|].
    destruct (Toy.applied s slug version); split; intros Hrow;
      try done; try (by eexists); by destruct Hrow.
  - intros s slug version Happlied. simpl. unfold Toy.run.
    rewrite bool_decide_eq_true_2 by done. rewrite Happlied.
    eexists _, _. split; [reflexivity|].
    unfold Toy.applied. simpl. apply bool_decide_eq_true_2.
    apply elem_of_app. right. apply list_elem_of_singleton. done.
  - intros statement s slug version. simpl. unfold Toy.exec.
    by destruct (Toy.accepts statement).
  - intros statements s slug version. simpl. unfold Toy.batch.
    by destruct (forallb Toy.accepts statements).
Qed.

(** C1, as worded, fails for a schema text the store rejects: both runs
    end in an [[ERROR]] line, and the store (whose ledger is initialised
    and which is a function of its state) is asked to execute the
    statement twice.  It fails for a pair that is in the ledger already:
    the first run is a [[SKIP]] as well.  Besides, for a blank schema
    text the executor reports neither success nor failure, and the pair
    is inserted all the same. *)
Lemma applyMigration_twice_counterexample :
  let w := Toy.world Toy.fresh Registry.initial in
  let run1 := Migrator.applyMigration Toy.d1 "shop" "1.0.0" "DROP TABLE products;" w in
  let run2 := Migrator.applyMigration Toy.d1 "shop" "1.0.0" "DROP TABLE products;" run1.2 in
  let blank := Migrator.applyMigration Toy.d1 "shop" "1.0.0" "  " w in
  let applied := Toy.world (Toy.mkStore [("shop", "1.0.0")] None None []) Registry.initial in
  let again := Migrator.applyMigration Toy.d1 "shop" "1.0.0" "CREATE TABLE products (id INTEGER)"
                 applied in
  (run1.1 = Ok "[ERROR] SQL Execution failed for shop v1.0.0: D1_ERROR: syntax error"
   ∧ run2.1 = Ok "[ERROR] SQL Execution failed for shop v1.0.0: D1_ERROR: syntax error"
   ∧ calls run2.2
     = [Spec.lookup_call "shop" "1.0.0"; CallExec "DROP TABLE products";
        Spec.lookup_call "shop" "1.0.0"; CallExec "DROP TABLE products"]
   ∧ Toy.ledger (db run2.2) = [])
  ∧ (again.1 = Ok "[SKIP] shop v1.0.0 is already applied."
     ∧ calls again.2 = [Spec.lookup_call "shop" "1.0.0"]
     ∧ Toy.executed (db again.2) = [])
  ∧ ((Database.raw Toy.d1 "  " w).1 = Ok (Database.mkRaw 0%nat 0%Z None None)
     ∧ blank.1 = Ok "[SUCCESS] shop v1.0.0 applied in 0.0000ms"
     ∧ calls blank.2 = [Spec.lookup_call "shop" "1.0.0"; Spec.insert_call "shop" "1.0.0"]
     ∧ Toy.ledger (db blank.2) = [("shop", "1.0.0")]).
Proof. by vm_compute. Qed.

(** C1, amended.  The premises speak of this pair, this schema text and
    the four store states the two runs go through, and of nothing else:
    the ledger lookup finds no row for the pair; the executor, handed
    the statements of the schema, does not report failure; the insert of
    the pair succeeds; the lookup after it finds the row.  Then the first
    [applyMigration] ends in the [[SUCCESS]] line and the second one in
    the [[SKIP]] line.  The two runs together make one lookup, hand the
    statements of the schema to the store in a single executor call (none
    for a blank text), then insert the pair, then make the second lookup:
    the statements are executed once, and the insert comes after the
    executor's answer.  On any store, an insert among the calls of a run
    means the executor had not failed. *)
Theorem applyMigration_success_then_skip {S D : Type} `{Duration D}
    (d1 : D1Database S D) (slug version sql : string) (w : World S)
    (s0 s1 s2 s3 : S) (inserted : D1Result D) (row : Row) :
  d1_first d1 Migrator.LEDGER_LOOKUP [VStr slug; VStr version] (db w) = (Ok None, s0) →
  Spec.executor_outcome d1 sql s0 = (None, s1) →
  d1_run d1 Migrator.LEDGER_INSERT [VStr slug; VStr version] s1 = (Ok inserted, s2) →
  d1_first d1 Migrator.LEDGER_LOOKUP [VStr slug; VStr version] s2 = (Ok (Some row), s3) →
  ∃ duration : D,
    let w1 := Spec.after w s2
                (Spec.lookup_call slug version :: Spec.executor_calls sql
                   ++ [Spec.insert_call slug version]) in
    Migrator.applyMigration d1 slug version sql w
      = (Ok (Migrator.success_line slug version (toFixed4 duration)), w1)
    ∧ Migrator.applyMigration d1 slug version sql w1
      = (Ok (Migrator.skip_line slug version),
         Spec.after w s3
           (Spec.lookup_call slug version :: Spec.executor_calls sql
              ++ [Spec.insert_call slug version; Spec.lookup_call slug version]))
    ∧ (∀ sql' w0,
         Spec.insert_call slug version
           ∈ drop (length (calls w0))
               (calls (Migrator.applyMigration d1 slug version sql' w0).2) →
         (Spec.executor_outcome d1 sql'
            (d1_first d1 Migrator.LEDGER_LOOKUP [VStr slug; VStr version] (db w0)).2).1
         = None).
Proof.
  intros Hlookup Hexec Hinsert Hfound.
  destruct (applyMigration_eq d1 slug version sql w) as [duration Heq]. simpl in Heq.
  rewrite Hlookup in Heq. simpl in Heq. rewrite Hexec in Heq. simpl in Heq.
  rewrite Hinsert in Heq. simpl in Heq.
  exists duration. simpl.
  split; [exact Heq|]. split.
  - destruct (applyMigration_eq d1 slug version sql
                (Spec.after w s2
                   (Spec.lookup_call slug version :: Spec.executor_calls sql
                      ++ [Spec.insert_call slug version]))) as [duration' Heq'].
    simpl in Heq'. rewrite Hfound in Heq'. simpl in Heq'. rewrite Heq'.
    rewrite after_after. do 3 f_equal. simpl. by rewrite <- app_assoc.
  - intros sql' w0 Hin.
    destruct (applyMigration_eq d1 slug version sql' w0) as [duration' Heq'].
    simpl in Heq'. rewrite Heq' in Hin. clear Heq'.
    destruct (Spec.executor_outcome d1 sql' _).1 as [e|] eqn:Hout; [exfalso|done].
    assert (∀ cs, Spec.insert_call slug version
                    ∈ drop (length (calls w0)) (calls w0 ++ cs) →
                  Spec.insert_call slug version ∈ cs) as Hdrop.
    { intros cs. by rewrite drop_app_length. }
    destruct (d1_first _ _ _ _).1 as [[row'|]|e']; simpl in Hin; apply Hdrop in Hin.
    + apply list_elem_of_singleton in Hin. done.
    + by apply insert_not_among_executor_calls in Hin.
    + by apply insert_not_among_executor_calls in Hin.
Qed.

Lemma applyMigration_success_then_skip_witness :
  let w := Toy.world Toy.fresh Registry.initial in
  let sql := "CREATE TABLE products (id INTEGER); INSERT INTO products VALUES (1);" in
  let statements :=
    ["CREATE TABLE products (id INTEGER)"; "INSERT INTO products VALUES (1)"] in
  let s2 := Toy.mkStore [("shop", "1.0.0")] None None statements in
  ∃ duration : Z,
    Migrator.applyMigration Toy.d1 "shop" "1.0.0" sql w
    = (Ok (Migrator.success_line "shop" "1.0.0" (toFixed4 duration)),
       Spec.after w s2
         [Spec.lookup_call "shop" "1.0.0"; CallBatch statements;
          Spec.insert_call "shop" "1.0.0"])
    ∧ Migrator.applyMigration Toy.d1 "shop" "1.0.0" sql
        (Spec.after w s2
           [Spec.lookup_call "shop" "1.0.0"; CallBatch statements;
            Spec.insert_call "shop" "1.0.0"])
      = (Ok (Migrator.skip_line "shop" "1.0.0"),
         Spec.after w s2
           [Spec.lookup_call "shop" "1.0.0"; CallBatch statements;
            Spec.insert_call "shop" "1.0.0"; Spec.lookup_call "shop" "1.0.0"]).
Proof.
  destruct (applyMigration_success_then_skip Toy.d1 "shop" "1.0.0"
              "CREATE TABLE products (id INTEGER); INSERT INTO products VALUES (1);"
              (Toy.world Toy.fresh Registry.initial) Toy.fresh
              (Toy.mkStore [] None None
                 ["CREATE TABLE products (id INTEGER)"; "INSERT INTO products VALUES (1)"])
              (Toy.mkStore [("shop", "1.0.0")] None None
                 ["CREATE TABLE products (id INTEGER)"; "INSERT INTO products VALUES (1)"])
              (Toy.mkStore [("shop", "1.0.0")] None None
                 ["CREATE TABLE products (id INTEGER)"; "INSERT INTO products VALUES (1)"])
              (mkD1Result (Some (mkMeta 1%Z 1%Z 1%Z "toy"))) [("id", VInt 1)]
              eq_refl eq_refl eq_refl eq_refl)
    as (duration & Hfirst & Hsecond & _).
  exists duration. split; [exact Hfirst | exact Hsecond].
Defined.

(* ====================================================================== *)
(** ** The view engine on keys that stand for themselves *)
(* ====================================================================== *)

Lemma substitute_keys_literal (regexp : string → string → string → Res string)
    (bag : JS.object ViewEngine.DataVal) (ks : list string) (template : string) :
  Forall (λ k, JS.literal_source (ViewEngine.placeholder k) = true) ks →
  ViewEngine.substitute_keys regexp bag ks template
  = Ok (Spec.render_passes bag ks template).
Proof.
  intros Hks. revert template.
  induction Hks as [|k ks Hk Hks IH]; intros template; simpl; [done|].
  unfold ViewEngine.substitute. rewrite Hk. apply IH.
Qed.

Lemma landing_keys_eq (config : Config) (r : Registry.t) (year : Z) :
  JS.keys (ViewEngine.finalData_of r year (App.landing_data config r)) = Spec.landing_keys.
Proof. reflexivity. Qed.

Lemma landing_keys_literal :
  Forall (λ k, JS.literal_source (ViewEngine.placeholder k) = true) Spec.landing_keys.
Proof. repeat constructor. Qed.

Lemma usable_truthy (entry : option string) (html : string) :
  Spec.usable entry = Some html → JS.truthy html = true.
Proof.
  unfold Spec.usable. destruct entry as [h|]; [|done].
  destruct (JS.truthy h) eqn:E; [|done]. by intros [= <-].
Qed.

Lemma getView_truthy (view : string) (r : Registry.t) (html : string) :
  Registry.getView view r = Some html → JS.truthy html = true.
Proof.
  rewrite getView_usable.
  destruct (Spec.usable (Registry.templates r !! _)) as [h|] eqn:E.
  - intros [= <-]. by apply usable_truthy in E.
  - apply usable_truthy.
Qed.

(** The default landing page: the view engine's answer for [landing],
    which is a response, never an exception. *)
Lemma render_landing (regexp : string → string → string → Res string)
    (config : Config) (r : Registry.t) (year : Z) :
  ViewEngine.render regexp r year "landing" (App.landing_data config r)
  = Ok (match Registry.getView "landing" r with
        | Some template =>
            Html (Spec.render_passes
                    (ViewEngine.finalData_of r year (App.landing_data config r))
                    Spec.landing_keys template) 200
        | None =>
            Html ("<h1>Error: View 'landing' not found in '"
                    +:+ Registry.getActiveThemeName r +:+ "'</h1>") 500
        end).
Proof.
  unfold ViewEngine.render.
  destruct (Registry.getView "landing" r) as [template|] eqn:Hview; [|done].
  rewrite (getView_truthy _ _ _ Hview).
  simpl negb. cbv iota.
  rewrite landing_keys_eq.
  by rewrite substitute_keys_literal by apply landing_keys_literal.
Qed.

(** C6, as worded, fails when no landing template is registered: on a
    fresh install whose theme was not admitted, with two plugins mounted,
    the read of the settings fails and the handler answers the view
    engine's error page with status 500, in which no plugin count
    appears. *)
Lemma root_without_landing_counterexample :
  let r := Registry.registerPlugin "12:00:00" "site-manager"
             (Registry.registerPlugin "12:00:00" "blog-manager" Registry.initial) in
  let answered := App.root CONFIG Toy.regexp Toy.d1 (Toy.world Toy.fresh r) in
  Registry.getPluginCount r = 2%nat
  ∧ Registry.getView "landing" r = None
  ∧ (d1_first Toy.d1 App.HOMEPAGE_TYPE [] Toy.fresh).1
    = Throw "D1_ERROR: no such table: core_settings"
  ∧ answered.1 = Ok (Html "<h1>Error: View 'landing' not found in 'nebula'</h1>" 500).
Proof. by vm_compute. Qed.

(** C6, amended.  When the read of the homepage-type setting fails,
    finds no row, or finds an empty value, the root handler answers, and
    throws nothing.  With a landing template registered (under the
    active theme or under the bare name, and not empty) the answer is
    that template with status 200 after the passes of the view engine:
    first every [{{plugin_count}}] replaced by the length of the plugin
    list in decimal digits, then the core version, the system log (the
    line appended by this very request included), the status text, the
    name of the active theme and the year.  With none registered it is
    the view engine's error page with status 500.  Either way the only
    calls that reach the database are the two settings reads made before
    the fallback: the default-landing state makes none; and one line is
    appended to the system log. *)
Theorem root_renders_default_landing {S D : Type} `{Duration D}
    (config : Config) (regexp : string → string → string → Res string)
    (d1 : D1Database S D) (w : World S) :
  val_truthy
    (column_opt
       (match (d1_first d1 App.HOMEPAGE_TYPE [] (db w)).1 with
        | Ok row => row
        | Throw _ => None
        end) "value") = false →
  let s1 := (d1_first d1 App.HOMEPAGE_TYPE [] (db w)).2 in
  let s2 := (d1_first d1 App.HOMEPAGE_TARGET [] s1).2 in
  let r := Registry.log (hhmmss (clock w))
             "System Status: Rendering Default Landing Page." (registry w) in
  let mounted := Z.of_nat (length (Registry.pluginList (registry w))) in
  let bag :=
    [ ("plugin_count", ViewEngine.DNum mounted);
      ("core_version", ViewEngine.DStr (CORE_VERSION config));
      ("system_logs", ViewEngine.DArr (Registry.systemLogs r));
      ("status", ViewEngine.DStr "System Ready - Please configure Homepage in Admin");
      ("theme_name", ViewEngine.DStr (Registry.activeTheme (registry w)));
      ("year", ViewEngine.DNum (fullYear (clock w))) ] in
  App.root config regexp d1 w
  = (Ok (match Registry.getView "landing" (registry w) with
         | Some template =>
             Html (Spec.render_passes bag
                     ["core_version"; "system_logs"; "status"; "theme_name"; "year"]
                     (JS.replace_all "{{plugin_count}}" (pretty mounted) template)) 200
         | None =>
             Html ("<h1>Error: View 'landing' not found in '"
                     +:+ Registry.activeTheme (registry w) +:+ "'</h1>") 500
         end),
     mkWorld s2
       (calls w ++ [CallFirst App.HOMEPAGE_TYPE []; CallFirst App.HOMEPAGE_TARGET []])
       r (clock w) (logs w)).
Proof.
  intros Htype. simpl.
  unfold App.root, try_catch, bind.
  rewrite findOne_eq. simpl. rewrite findOne_eq. simpl.
  rewrite Htype.
  rewrite bool_decide_eq_false_2 by done.
  unfold App.page_branch.
  rewrite bool_decide_eq_false_2 by done. simpl.
  unfold App.default_landing, bind, Registry_log, bind, get_clock, update_registry,
    get_registry, lift, Spec.after. simpl.
  rewrite render_landing. rewrite <- app_assoc. simpl.
  f_equal.
Qed.

Lemma root_renders_default_landing_witness :
  App.root CONFIG Toy.regexp Toy.d1 (Toy.world Toy.fresh Toy.mounted)
  = (Ok (Html "<p>System Ready - Please configure Homepage in Admin / 2 plugins / core 1.0.0 / nebula-theme 2026 {{unknown}}</p>" 200),
     mkWorld Toy.fresh
       [CallFirst App.HOMEPAGE_TYPE []; CallFirst App.HOMEPAGE_TARGET []]
       (Registry.log "12:00:00" "System Status: Rendering Default Landing Page." Toy.mounted)
       Toy.noon []).
Proof.
  rewrite (root_renders_default_landing CONFIG Toy.regexp Toy.d1
             (Toy.world Toy.fresh Toy.mounted) eq_refl).
  reflexivity.
Defined.

(* ====================================================================== *)
(** ** Placeholder substitution *)
(* ====================================================================== *)

Lemma getSubstitution_plain (matched before after v : string) :
  Spec.plain_replacement v = true → JS.getSubstitution matched before after v = v.
Proof.
  induction v as [|c v IH]; simpl; [done|].
  destruct (Ascii.eqb c "$") eqn:Hc.
  - destruct v as [|d v']; [done|].
    intros [Hd Hv]%andb_prop. apply negb_true_iff in Hd.
    apply orb_false_elim in Hd as [Hd H4]. apply orb_false_elim in Hd as [Hd H3].
    apply orb_false_elim in Hd as [H1 H2].
    rewrite H1, H2, H3, H4. f_equal. by apply IH.
  - intros Hv. f_equal. by apply IH.
Qed.

Lemma replace_all_plain (pat v : string) (skip : nat) (before s : string) :
  Spec.plain_replacement v = true →
  JS.replace_all_from pat v skip before s = Spec.replace_every_from pat v skip s.
Proof.
  intros Hv. revert skip before.
  induction s as [|c s IH]; intros skip before; simpl; [done|].
  destruct skip as [|k]; [|apply IH].
  destruct (JS.startsWith pat (String c s)).
  - by rewrite getSubstitution_plain, IH.
  - by rewrite IH.
Qed.

Lemma render_passes_plain (bag : JS.object ViewEngine.DataVal) (ks : list string)
    (template : string) :
  Forall (λ k, Spec.plain_replacement (Spec.value_of bag k) = true) ks →
  Spec.render_passes bag ks template = Spec.substitute_keys bag ks template.
Proof.
  intros Hks. revert template.
  induction Hks as [|k ks Hk Hks IH]; intros template; simpl; [done|].
  unfold Spec.render_passes, Spec.substitute_keys in *. simpl.
  unfold JS.replace_all. rewrite replace_all_plain by done. apply IH.
Qed.

(** A pass for a placeholder that does not occur changes nothing. *)
Lemma replace_every_absent (pat v s : string) :
  JS.includes pat s = false → Spec.replace_every pat v s = s.
Proof.
  unfold Spec.replace_every.
  induction s as [|c s IH]; simpl; [done|].
  intros [Hhere Hlater]%orb_false_elim.
  change (match pat with
          | "" => true
          | String a p' =>
              Ascii.eqb a c && JS.startsWith p' s
          end) with (JS.startsWith pat (String c s)).
  rewrite Hhere. f_equal. by apply IH.
Qed.

Lemma startsWith_length (p u : string) :
  JS.startsWith p u = true → (String.length p ≤ String.length u)%nat.
Proof.
  revert u. induction p as [|a p IH]; intros [|b u]; simpl; try done; try lia.
  intros [_ Hp]%andb_prop. apply IH in Hp. lia.
Qed.

(** In the proofs below [simpl] computes an append whose first argument
    starts with a character, and leaves comparisons of characters
    folded. *)
Local Arguments String.append !_ _ / : simpl nomatch.
Local Arguments Ascii.eqb : simpl never.

Lemma append_assoc (x y z : string) : (x +:+ y) +:+ z = x +:+ y +:+ z.
Proof. induction x as [|c x IH]; simpl; [done | by f_equal]. Qed.

Lemma brace_free_cons (c : ascii) (x : string) :
  Spec.brace_free (String c x) = true →
  Ascii.eqb c "{" = false ∧ Ascii.eqb c "}" = false ∧ Spec.brace_free x = true.
Proof.
  unfold Spec.brace_free. simpl. intros [Hc Hx]%andb_prop.
  apply negb_true_iff, orb_false_elim in Hc as [? ?]. done.
Qed.

Lemma replace_every_step (pat v : string) (c : ascii) (s : string) :
  Spec.replace_every_from pat v 0 (String c s)
  = if JS.startsWith pat (String c s)
    then v +:+ Spec.replace_every_from pat v (String.length pat - 1) s
    else String c (Spec.replace_every_from pat v 0 s).
Proof. reflexivity. Qed.

Lemma replace_every_skip (pat v : string) (n : nat) (c : ascii) (s : string) :
  Spec.replace_every_from pat v (S n) (String c s) = Spec.replace_every_from pat v n s.
Proof. reflexivity. Qed.

Section Placeholders.
(** [a] is the key of the pass, [k] the key of a placeholder in the
    text, [post] the text after that placeholder; neither key contains
    a brace. *)
Variables a k post : string.
Hypothesis a_free : Spec.brace_free a = true.
Hypothesis k_free : Spec.brace_free k = true.
Hypothesis distinct : a ≠ k.

(** The tail [x}}] of a pattern cannot run into the placeholder. *)
Lemma tail_no_overlap (x u : string) :
  Spec.brace_free x = true →
  JS.startsWith (x +:+ "}}") (u +:+ (Spec.from_placeholder k post)) = JS.startsWith (x +:+ "}}") u.
Proof.
  unfold Spec.from_placeholder.
  revert u. induction x as [|x0 x IH]; intros u Hx.
  - by destruct u as [|c [|c' u]].
  - apply brace_free_cons in Hx as (Hx0 & _ & Hx).
    destruct u as [|c u]; simpl.
    + by rewrite Hx0.
    + by rewrite IH.
Qed.

(** A match that starts before the placeholder ends before it. *)
Lemma match_before_placeholder (u : string) :
  u ≠ "" →
  JS.startsWith (ViewEngine.placeholder a) (u +:+ (Spec.from_placeholder k post))
  = JS.startsWith (ViewEngine.placeholder a) u.
Proof.
  intros Hu. unfold ViewEngine.placeholder.
  destruct u as [|c1 [|c2 u]]; [done| |].
  - unfold Spec.from_placeholder. simpl.
    destruct a as [|a0 a']; simpl.
    + by rewrite ?andb_false_r.
    + apply brace_free_cons in a_free as (Ha0 & _ & _).
      by rewrite Ha0, ?andb_false_r.
  - simpl.
    by rewrite (tail_no_overlap a u a_free).
Qed.

(** The pass goes over the key of a placeholder and its closing
    braces without a match. *)
Lemma pass_over_key (v x : string) :
  Spec.brace_free x = true →
  Spec.replace_every_from (ViewEngine.placeholder a) v 0 (x +:+ "}}" +:+ post)
  = x +:+ "}}" +:+ Spec.replace_every_from (ViewEngine.placeholder a) v 0 post.
Proof.
  unfold ViewEngine.placeholder.
  induction x as [|x0 x IH]; intros Hx.
  - done.
  - apply brace_free_cons in Hx as (Hx0 & _ & Hx).
    simpl.
    rewrite Ascii.eqb_sym, Hx0. simpl. f_equal. by apply IH.
Qed.

Lemma keys_differ (x y : string) :
  Spec.brace_free x = true → Spec.brace_free y = true →
  JS.startsWith (x +:+ "}}") (y +:+ "}}" +:+ post) = true → x = y.
Proof.
  revert y. induction x as [|x0 x IH]; intros [|y0 y] Hx Hy;
    simpl; try done.
  - apply brace_free_cons in Hy as (_ & Hy0 & _).
    by rewrite Ascii.eqb_sym, Hy0.
  - apply brace_free_cons in Hx as (_ & Hx0 & _). by rewrite Hx0.
  - apply brace_free_cons in Hx as (_ & _ & Hx).
    apply brace_free_cons in Hy as (_ & _ & Hy).
    intros [->%Ascii.eqb_eq Hxy]%andb_prop. f_equal. by apply IH.
Qed.

(** The pass for [a] leaves the placeholder of [k] as it is. *)
Lemma pass_over_placeholder (v : string) :
  Spec.replace_every_from (ViewEngine.placeholder a) v 0 (Spec.from_placeholder k post)
  = "{{" +:+ k +:+ "}}" +:+ Spec.replace_every_from (ViewEngine.placeholder a) v 0 post.
Proof.
  assert (JS.startsWith (ViewEngine.placeholder a)
            (String "{" (String "{" (k +:+ "}}" +:+ post))) = false) as Hhere.
  { destruct (JS.startsWith _ _) eqn:E; [|done].
    unfold ViewEngine.placeholder in E. simpl in E.
    destruct distinct. by apply (keys_differ a k). }
  assert (JS.startsWith (ViewEngine.placeholder a)
            (String "{" (k +:+ "}}" +:+ post)) = false) as Hnext.
  { unfold ViewEngine.placeholder. simpl.
    destruct k as [|k0 k']; simpl.
    - by rewrite ?andb_false_r.
    - apply brace_free_cons in k_free as (Hk0 & _ & _).
      by rewrite (Ascii.eqb_sym "{" k0), Hk0, ?andb_false_r. }
  change (Spec.from_placeholder k post) with (String "{" (String "{" (k +:+ "}}" +:+ post))).
  rewrite replace_every_step, Hhere, replace_every_step, Hnext.
  by rewrite pass_over_key.
Qed.

(** A pass over a text with the placeholder of [k] in it is the pass
    over the text before it, the placeholder, and the pass over the
    text after it. *)
Lemma pass_around_placeholder (v pre : string) (skip : nat) :
  (skip ≤ String.length pre)%nat →
  Spec.replace_every_from (ViewEngine.placeholder a) v skip (pre +:+ (Spec.from_placeholder k post))
  = Spec.replace_every_from (ViewEngine.placeholder a) v skip pre
      +:+ "{{" +:+ k +:+ "}}"
      +:+ Spec.replace_every_from (ViewEngine.placeholder a) v 0 post.
Proof.
  revert skip. induction pre as [|c pre IH]; intros skip Hskip.
  - assert (skip = 0%nat) as -> by (simpl in Hskip; lia).
    change ("" +:+ (Spec.from_placeholder k post)) with (Spec.from_placeholder k post).
    by rewrite pass_over_placeholder.
  - change (String c pre +:+ (Spec.from_placeholder k post)) with (String c (pre +:+ (Spec.from_placeholder k post))).
    destruct skip as [|skip].
    + rewrite !replace_every_step.
      replace (JS.startsWith (ViewEngine.placeholder a) (String c (pre +:+ (Spec.from_placeholder k post))))
        with (JS.startsWith (ViewEngine.placeholder a) (String c pre))
        by (symmetry; by apply (match_before_placeholder (String c pre))).
      destruct (JS.startsWith (ViewEngine.placeholder a) (String c pre)) eqn:Hmatch.
      * apply startsWith_length in Hmatch.
        change (String.length (String c pre)) with (S (String.length pre)) in Hmatch.
        rewrite IH by lia. by rewrite append_assoc.
      * by rewrite IH by (simpl; lia).
    + rewrite !replace_every_skip. apply IH.
      change (String.length (String c pre)) with (S (String.length pre)) in Hskip. lia.
Qed.

End Placeholders.

Lemma word_char_not_brace (c : ascii) :
  JS.is_word_char c = true → negb (Ascii.eqb c "{" || Ascii.eqb c "}") = true.
Proof. destruct c as [[] [] [] [] [] [] [] []]; vm_compute; done. Qed.

Lemma word_chars_brace_free (x : string) :
  JS.all_chars JS.is_word_char x = true → Spec.brace_free x = true.
Proof.
  unfold Spec.brace_free. induction x as [|c x IH]; simpl; [done|].
  intros [Hc Hx]%andb_prop. by rewrite word_char_not_brace, IH.
Qed.

Lemma identifier_brace_free (key : string) :
  JS.is_identifier key = true → Spec.brace_free key = true.
Proof.
  destruct key as [|c key]; [done|]. unfold JS.is_identifier.
  intros [Hc Hkey]%andb_prop. apply word_chars_brace_free. simpl.
  rewrite Hkey, andb_true_r. unfold JS.is_word_char.
  apply orb_prop in Hc as [-> | ->]; [done | by rewrite orb_true_r].
Qed.

Lemma word_char_plain (c : ascii) :
  JS.is_word_char c = true →
  JS.is_syntax_char c = false ∧ ∀ s, JS.quantifier_at (String c s) = false.
Proof. destruct c as [[] [] [] [] [] [] [] []]; vm_compute; done. Qed.

Lemma literal_word_chars (x post : string) :
  JS.all_chars JS.is_word_char x = true →
  JS.literal_source post = true → JS.literal_source (x +:+ post) = true.
Proof.
  intros Hx Hpost. induction x as [|c x IH]; [done|].
  simpl in Hx. apply andb_prop in Hx as [Hc Hx].
  destruct (word_char_plain c Hc) as [Hsyntax Hquantifier].
  change (negb (JS.is_syntax_char c) && negb (JS.quantifier_at (String c (x +:+ post)))
          && JS.literal_source (x +:+ post) = true).
  by rewrite Hsyntax, Hquantifier, IH.
Qed.

(** An identifier (a letter or underscore followed by letters, digits
    and underscores) stands for itself between the braces, and holds no
    brace. *)
Lemma identifier_literal (key : string) :
  JS.is_identifier key = true →
  JS.literal_source (ViewEngine.placeholder key) = true ∧ Spec.brace_free key = true.
Proof.
  intros Hkey. split; [|by apply identifier_brace_free].
  destruct key as [|c key]; [done|]. unfold JS.is_identifier in Hkey.
  apply andb_prop in Hkey as [Hc Hkey].
  assert (Hword : JS.is_word_char c = true).
  { unfold JS.is_word_char. apply orb_prop in Hc as [-> | ->]; [done | by rewrite orb_true_r]. }
  assert (Hdigit : JS.is_digit c = false).
  { unfold JS.is_letter, JS.is_digit in *.
    destruct (48 <=? JS.code c)%Z eqn:H1, (JS.code c <=? 57)%Z eqn:H2; try done.
    apply Z.leb_le in H1, H2.
    apply orb_prop in Hc as [Hc|Hc%Z.eqb_eq]; [|lia].
    apply orb_prop in Hc as [[H3 H4]%andb_prop|[H3 H4]%andb_prop];
      apply Z.leb_le in H3, H4; lia. }
  unfold ViewEngine.placeholder.
  change ("{{" +:+ String c key +:+ "}}")
    with (String "{" (String "{" (String c key +:+ "}}"))).
  change (JS.literal_source (String "{" (String "{" (String c key +:+ "}}"))))
    with (negb (JS.quantifier_at (String "{" (String c key +:+ "}}")))
          && JS.literal_source (String c key +:+ "}}")).
  rewrite (literal_word_chars (String c key) "}}"); [|by simpl; rewrite Hword|done].
  simpl. by rewrite Hdigit.
Qed.

Lemma substitute_keys_cons (bag : JS.object ViewEngine.DataVal) (key : string)
    (ks : list string) (text : string) :
  Spec.substitute_keys bag (key :: ks) text
  = Spec.substitute_keys bag ks
      (Spec.replace_every (ViewEngine.placeholder key) (Spec.value_of bag key) text).
Proof. reflexivity. Qed.

Lemma replace_every_around (a k v pre post : string) :
  Spec.brace_free a = true → Spec.brace_free k = true → a ≠ k →
  Spec.replace_every (ViewEngine.placeholder a) v (pre +:+ "{{" +:+ k +:+ "}}" +:+ post)
  = Spec.replace_every (ViewEngine.placeholder a) v pre +:+ "{{" +:+ k +:+ "}}"
      +:+ Spec.replace_every (ViewEngine.placeholder a) v post.
Proof.
  intros Ha Hk Hne. unfold Spec.replace_every.
  apply (pass_around_placeholder a k post Ha Hk Hne v pre 0). lia.
Qed.

(** Every pass leaves a placeholder whose key is not among the keys
    where it is. *)
Lemma substitute_keys_around (bag : JS.object ViewEngine.DataVal) (ks : list string)
    (k pre post : string) :
  Spec.brace_free k = true →
  Forall (λ key, Spec.brace_free key = true) ks →
  k ∉ ks →
  Spec.substitute_keys bag ks (pre +:+ "{{" +:+ k +:+ "}}" +:+ post)
  = Spec.substitute_keys bag ks pre +:+ "{{" +:+ k +:+ "}}"
      +:+ Spec.substitute_keys bag ks post.
Proof.
  intros Hk Hks. revert pre post.
  induction Hks as [|key ks Hkey Hks IH]; intros pre post Hnotin; [done|].
  apply not_elem_of_cons in Hnotin as [Hne Hnotin].
  rewrite !substitute_keys_cons.
  rewrite replace_every_around; [by apply IH | done | done | congruence].
Qed.

Lemma keys_set {V : Type} (key : string) (v : V) (o : JS.object V) :
  JS.keys (JS.set key v o)
  = if bool_decide (key ∈ JS.keys o) then JS.keys o else (JS.keys o ++ [key])%list.
Proof.
  unfold JS.keys. induction o as [|[k' v'] o IH]; [done|].
  cbn [JS.set]. destruct (String.eqb k' key) eqn:E.
  - apply String.eqb_eq in E as ->. rewrite !fmap_cons. cbn [fst].
    rewrite bool_decide_eq_true_2; [done | left].
  - apply String.eqb_neq in E. rewrite !fmap_cons, IH. cbn [fst].
    destruct (decide (key ∈ o.*1)) as [Hin|Hnotin].
    + rewrite !bool_decide_eq_true_2; [done | by right | done].
    + rewrite !bool_decide_eq_false_2; [done | | done].
      intros [?|?]%elem_of_cons; [congruence | done].
Qed.

(** The keys of the merged bag: those of the data bag, then
    [theme_name] and [year] unless the data bag has them. *)
Lemma finalData_keys (r : Registry.t) (year : Z) (data : JS.object ViewEngine.DataVal)
    (key : string) :
  key ∈ JS.keys (ViewEngine.finalData_of r year data) →
  key ∈ JS.keys data ∨ key = "theme_name" ∨ key = "year".
Proof.
  unfold ViewEngine.finalData_of. rewrite !keys_set.
  repeat case_bool_decide; rewrite ?elem_of_app, ?list_elem_of_singleton; tauto.
Qed.

Lemma plain_without_dollar (s : string) :
  JS.all_chars (λ c, negb (Ascii.eqb c "$")) s = true → Spec.plain_replacement s = true.
Proof.
  induction s as [|c s IH]; [done|].
  intros [Hc Hs]%andb_prop. apply negb_true_iff in Hc.
  change (Spec.plain_replacement (String c s))
    with (if Ascii.eqb c "$"
          then match s with
               | String d _ =>
                   negb (Ascii.eqb d "$" || Ascii.eqb d "&" || Ascii.eqb d "`"
                         || Ascii.eqb d "'")
                   && Spec.plain_replacement s
               | EmptyString => true
               end
          else Spec.plain_replacement s).
  rewrite Hc. by apply IH.
Qed.

Lemma pretty_N_go_no_dollar (x : N) (s : string) :
  JS.all_chars (λ c, negb (Ascii.eqb c "$")) s = true →
  JS.all_chars (λ c, negb (Ascii.eqb c "$")) (pretty_N_go x s) = true.
Proof.
  revert s. induction (N.lt_wf_0 x) as [x _ IH]; intros s Hs.
  assert (x = 0 ∨ 0 < x)%N as [->|Hpos] by lia.
  - by rewrite pretty_N_go_0.
  - rewrite pretty_N_go_step by done. apply IH; [by apply N.div_lt|].
    change (negb (Ascii.eqb (pretty_N_char (x `mod` 10)) "$")
            && JS.all_chars (λ c, negb (Ascii.eqb c "$")) s = true).
    rewrite Hs, andb_true_r. unfold pretty_N_char. by repeat case_match.
Qed.

(** A number prints without a dollar sign. *)
Lemma pretty_Z_plain (z : Z) : Spec.plain_replacement (pretty z) = true.
Proof.
  apply plain_without_dollar.
  assert (∀ p, JS.all_chars (λ c, negb (Ascii.eqb c "$")) (pretty (Npos p)) = true) as Hpos.
  { intros p. unfold pretty, pretty_N. rewrite decide_False by done.
    by apply pretty_N_go_no_dollar. }
  destruct z as [|p|p]; [done | apply Hpos |].
  change (pretty (Zneg p)) with ("-" +:+ pretty (Npos p)).
  change (negb (Ascii.eqb "-" "$")
          && JS.all_chars (λ c, negb (Ascii.eqb c "$")) (pretty (Npos p)) = true).
  by rewrite Hpos.
Qed.

Lemma get_set_eq {V : Type} (key : string) (v : V) (o : JS.object V) :
  JS.get (JS.set key v o) key = Some v.
Proof.
  induction o as [|[k' v'] o IH]; simpl.
  - by rewrite String.eqb_refl.
  - destruct (String.eqb k' key) eqn:E; simpl.
    + by rewrite String.eqb_refl.
    + by rewrite E.
Qed.

Lemma get_set_ne {V : Type} (key other : string) (v : V) (o : JS.object V) :
  key ≠ other → JS.get (JS.set key v o) other = JS.get o other.
Proof.
  intros Hne. induction o as [|[k' v'] o IH]; simpl.
  - by apply String.eqb_neq in Hne as ->.
  - destruct (String.eqb k' key) eqn:E; simpl.
    + apply String.eqb_eq in E as ->.
      by apply String.eqb_neq in Hne as ->.
    + by rewrite IH.
Qed.

(** C8, as worded, fails on a value that carries a replacement pattern:
    [$$] comes out as a single dollar sign, and [$&] puts the placeholder
    back in place of the value; the name of the active theme is such a
    value too.  It fails on a value that carries the placeholder of a
    later key: the later pass replaces it, so the value does not come out
    as it is.  And it fails on keys that a regular expression does not
    read as they are written: for the key [2] the expression matches
    [{{}] and leaves [{{2}}] in place, for the key [user.name] it also
    matches [{{user_name}}], and a key with braces in it can reach over
    the placeholders of other keys. *)
Lemma render_dollar_counterexample :
  let r := Registry.registerView "receipt" "Total: {{price}}" Registry.initial in
  let dollars := [("price", ViewEngine.DStr "$$5")] in
  let matched := [("price", ViewEngine.DStr "$&")] in
  let nested := [("price", ViewEngine.DStr "5 in {{year}}")] in
  let themed := Registry.setActiveTheme "12:00:00" "a$$b"
                  (Registry.registerView "badge" "T={{theme_name}}" Registry.initial) in
  let row := Registry.registerView "row" "{{2}} and {{}" Registry.initial in
  let card := Registry.registerView "card" "{{user.name}} {{user_name}}" Registry.initial in
  let pair := Registry.registerView "pair" "{{a}}{{b}}" Registry.initial in
  Registry.getView "receipt" r = Some "Total: {{price}}"
  ∧ JS.keys (ViewEngine.finalData_of r 2026 dollars) = ["price"; "theme_name"; "year"]
  ∧ (Spec.substitute_at_once (ViewEngine.finalData_of r 2026 dollars) "Total: {{price}}"
     = "Total: $$5"
     ∧ ViewEngine.render Toy.regexp r 2026 "receipt" dollars = Ok (Html "Total: $5" 200))
  ∧ (Spec.substitute_at_once (ViewEngine.finalData_of r 2026 matched) "Total: {{price}}"
     = "Total: $&"
     ∧ ViewEngine.render Toy.regexp r 2026 "receipt" matched
       = Ok (Html "Total: {{price}}" 200))
  ∧ (Spec.substitute_at_once (ViewEngine.finalData_of r 2026 nested) "Total: {{price}}"
     = "Total: 5 in {{year}}"
     ∧ ViewEngine.render Toy.regexp r 2026 "receipt" nested
       = Ok (Html "Total: 5 in 2026" 200))
  ∧ (Spec.substitute_at_once (ViewEngine.finalData_of themed 2026 []) "T={{theme_name}}"
     = "T=a$$b"
     ∧ ViewEngine.render Toy.regexp themed 2026 "badge" [] = Ok (Html "T=a$b" 200))
  ∧ (Spec.substitute_at_once
       (ViewEngine.finalData_of row 2026 [("2", ViewEngine.DStr "X")]) "{{2}} and {{}"
     = "X and {{}"
     ∧ ViewEngine.render Toy.regexp row 2026 "row" [("2", ViewEngine.DStr "X")]
       = Ok (Html "{{2}} and X" 200))
  ∧ (Spec.substitute_at_once
       (ViewEngine.finalData_of card 2026 [("user.name", ViewEngine.DStr "Ann")])
       "{{user.name}} {{user_name}}"
     = "Ann {{user_name}}"
     ∧ ViewEngine.render Toy.regexp card 2026 "card" [("user.name", ViewEngine.DStr "Ann")]
       = Ok (Html "Ann Ann" 200))
  ∧ (Spec.substitute_at_once
       (ViewEngine.finalData_of pair 2026 [("a}}{{b", ViewEngine.DStr "X")]) "{{a}}{{b}}"
     = "X"
     ∧ ("a" ∉ JS.keys (ViewEngine.finalData_of pair 2026 [("a}}{{b", ViewEngine.DStr "X")]))
     ∧ ViewEngine.render Toy.regexp pair 2026 "pair" [("a}}{{b", ViewEngine.DStr "X")]
       = Ok (Html "X" 200)).
Proof.
  repeat split; try by vm_compute.
  vm_compute. intros Hin.
  repeat (apply elem_of_cons in Hin as [Hin|Hin]; [done|]).
  by apply elem_of_nil in Hin.
Qed.

(** C8, amended.  For a resolvable view, a data bag whose keys a regular
    expression reads as they are written ([JS.literal_source]: none of
    [\ ^ $ . * + ? ( ) [ |], no braced quantifier) and whose values, as
    strings, carry no replacement pattern ([$$], [$&], [$`], [$']), and
    an active theme whose name carries none: the response is the template
    after one pass per key of the merged bag, in key order, each pass
    replacing every occurrence of [{{key}}] in the text produced so far
    by the value of that key as it is.  The merged bag always holds
    [theme_name] (the active theme) and [year], overriding what the
    caller gave under these names.  A pass whose placeholder does not
    occur leaves the text as it is.  When no key of the data bag holds a
    brace, a placeholder [{{k}}] whose brace-free key is not in the
    merged bag comes out verbatim, between the substituted text before it
    and the substituted text after it. *)
Theorem render_substitutes_placeholders
    (regexp : string → string → string → Res string) (r : Registry.t) (year : Z)
    (view : string) (data : JS.object ViewEngine.DataVal) (template : string) :
  Registry.getView view r = Some template →
  Forall (λ key, JS.literal_source (ViewEngine.placeholder key) = true
                 ∧ Spec.plain_replacement (Spec.value_of data key) = true)
         (JS.keys data) →
  Spec.plain_replacement (Registry.getActiveThemeName r) = true →
  let bag := ViewEngine.finalData_of r year data in
  ViewEngine.render regexp r year view data
    = Ok (Html (Spec.substitute_all bag template) 200)
  ∧ JS.get bag "theme_name" = Some (ViewEngine.DStr (Registry.getActiveThemeName r))
  ∧ JS.get bag "year" = Some (ViewEngine.DNum year)
  ∧ (∀ key, key ≠ "theme_name" → key ≠ "year" → JS.get bag key = JS.get data key)
  ∧ (∀ key value text,
       JS.includes (ViewEngine.placeholder key) text = false →
       Spec.replace_every (ViewEngine.placeholder key) value text = text)
  ∧ (Forall (λ key, Spec.brace_free key = true) (JS.keys data) →
     ∀ k pre post,
       Spec.brace_free k = true → k ∉ JS.keys bag →
       Spec.substitute_all bag (pre +:+ "{{" +:+ k +:+ "}}" +:+ post)
       = Spec.substitute_all bag pre +:+ "{{" +:+ k +:+ "}}"
           +:+ Spec.substitute_all bag post).
Proof.
  intros Hview Hdata Htheme. simpl.
  assert (Htheme_name : JS.get (ViewEngine.finalData_of r year data) "theme_name"
                        = Some (ViewEngine.DStr (Registry.getActiveThemeName r))).
  { unfold ViewEngine.finalData_of. rewrite get_set_ne by done. apply get_set_eq. }
  assert (Hyear : JS.get (ViewEngine.finalData_of r year data) "year"
                  = Some (ViewEngine.DNum year)) by apply get_set_eq.
  assert (Hother : ∀ key, key ≠ "theme_name" → key ≠ "year" →
            JS.get (ViewEngine.finalData_of r year data) key = JS.get data key).
  { intros key Hne1 Hne2. unfold ViewEngine.finalData_of.
    rewrite get_set_ne by done. by rewrite get_set_ne. }
  assert (Hkeys : Forall (λ key, JS.literal_source (ViewEngine.placeholder key) = true
                    ∧ Spec.plain_replacement
                        (Spec.value_of (ViewEngine.finalData_of r year data) key) = true)
                    (JS.keys (ViewEngine.finalData_of r year data))).
  { apply Forall_forall. intros key Hin.
    rewrite Forall_forall in Hdata.
    destruct (decide (key = "theme_name")) as [->|Hne1].
    { split; [done|]. unfold Spec.value_of. by rewrite Htheme_name. }
    destruct (decide (key = "year")) as [->|Hne2].
    { split; [done|]. unfold Spec.value_of. rewrite Hyear. apply pretty_Z_plain. }
    apply finalData_keys in Hin as [Hin|[?|?]]; [|done|done].
    unfold Spec.value_of. rewrite Hother by done. by apply Hdata. }
  apply Forall_and in Hkeys as [Hliteral Hplain].
  split; [|split; [|split; [|split; [|split]]]]; try done.
  - unfold ViewEngine.render. rewrite Hview, (getView_truthy _ _ _ Hview). simpl.
    rewrite substitute_keys_literal by done.
    by rewrite render_passes_plain.
  - intros key value text. apply replace_every_absent.
  - intros Hfree k pre post Hk Hnotin. apply substitute_keys_around; [done| |done].
    apply Forall_forall. intros key Hin. rewrite Forall_forall in Hfree.
    apply finalData_keys in Hin as [Hin|[->| ->]]; [by apply Hfree | done | done].
Qed.

Lemma render_substitutes_placeholders_witness :
  ViewEngine.render Toy.regexp Toy.mounted 2026 "landing"
    [("status", ViewEngine.DStr "ready"); ("plugin_count", ViewEngine.DNum 2)]
  = Ok (Html "<p>ready / 2 plugins / core {{core_version}} / nebula-theme 2026 {{unknown}}</p>"
          200).
Proof.
  pose proof (render_substitutes_placeholders Toy.regexp Toy.mounted 2026 "landing"
                [("status", ViewEngine.DStr "ready"); ("plugin_count", ViewEngine.DNum 2)]
                "<p>{{status}} / {{plugin_count}} plugins / core {{core_version}} / {{theme_name}} {{year}} {{unknown}}</p>"
                eq_refl) as Hrender.
  destruct Hrender as [Hrender _].
  - repeat (constructor; [split; reflexivity|]). constructor.
  - reflexivity.
  - rewrite Hrender. reflexivity.
Defined.

(* ====================================================================== *)
(** ** The handlers on the small binding *)
(* ====================================================================== *)

(** A schema the store rejects does not stop the sweep: the schema
    after it is still applied, and each gets its line. *)
Example sweep_continues_after_failure :
  let r := Registry.registerSchema "12:00:00" "shop" "1.0.0" "CREATE TABLE products (id INTEGER)"
             (Registry.registerSchema "12:00:00" "blog" "1.7.2" "DROP TABLE posts"
                Registry.initial) in
  let swept := Admin.migrate Toy.d1 true (Toy.world Toy.fresh r) in
  swept.1
  = Ok (Json None
          [ Admin.span (Some "#00ff9d") "[SYSTEM] Migration Engine Ready.";
            Admin.span (Some "#ff4444")
              "[ERROR] SQL Execution failed for blog v1.7.2: D1_ERROR: syntax error";
            Admin.span (Some "#00ff9d") "[SUCCESS] shop v1.0.0 applied in 2.0000ms" ]
          200)
  ∧ Toy.ledger (db swept.2) = [("shop", "1.0.0")]
  ∧ Toy.executed (db swept.2) = ["CREATE TABLE products (id INTEGER)"].
Proof. by vm_compute. Qed.

(** A second sweep retries the rejected schema and skips the applied one. *)
Example sweep_twice :
  let r := Registry.registerSchema "12:00:00" "shop" "1.0.0" "CREATE TABLE products (id INTEGER)"
             (Registry.registerSchema "12:00:00" "blog" "1.7.2" "DROP TABLE posts"
                Registry.initial) in
  let once := Admin.migrate Toy.d1 true (Toy.world Toy.fresh r) in
  let twice := Admin.migrate Toy.d1 true once.2 in
  twice.1
  = Ok (Json None
          [ Admin.span (Some "#00ff9d") "[SYSTEM] Migration Engine Ready.";
            Admin.span (Some "#ff4444")
              "[ERROR] SQL Execution failed for blog v1.7.2: D1_ERROR: syntax error";
            Admin.span (Some "#888") "[SKIP] shop v1.0.0 is already applied." ]
          200)
  ∧ Toy.executed (db twice.2) = ["CREATE TABLE products (id INTEGER)"].
Proof. by vm_compute. Qed.

(** Without a D1 binding the sweep answers with the critical line. *)
Example sweep_without_binding :
  (Admin.migrate Toy.d1 false (Toy.world Toy.fresh Registry.initial)).1
  = Ok (Json (Some false) ["[CRITICAL] D1 Database not connected"] 500).
Proof. reflexivity. Qed.

(** A read of a table that does not exist and a read that matches no row
    both come back as [null]. *)
Example findOne_missing_table :
  let missing := Toy.world Toy.fresh Registry.initial in
  let empty := Toy.world (Toy.mkStore [] (Some []) None []) Registry.initial in
  (d1_first Toy.d1 App.HOMEPAGE_TYPE [] (db missing)).1
    = Throw "D1_ERROR: no such table: core_settings"
  ∧ (d1_first Toy.d1 App.HOMEPAGE_TYPE [] (db empty)).1 = Ok None
  ∧ (Database.findOne Toy.d1 App.HOMEPAGE_TYPE [] missing).1 = Ok None
  ∧ (Database.findOne Toy.d1 App.HOMEPAGE_TYPE [] empty).1 = Ok None.
Proof. by vm_compute. Qed.

(** Homepage type [page] with target 5 and a page 5 titled [Hi]: the
    page is rendered, with the built-in markup when no [public_page] view
    is registered. *)
Example root_renders_page :
  let store := Toy.mkStore []
                 (Some [("homepage_type", VStr "page"); ("homepage_target_id", VStr "5")])
                 (Some [[("id", VInt 5); ("title", VStr "Hi");
                         ("content", VStr "Hello"); ("slug", VStr "hi")]]) [] in
  let r := Registry.registerView "public_page" "<h1>{{title}}</h1>{{content}}" Toy.mounted in
  (App.root CONFIG Toy.regexp Toy.d1 (Toy.world store r)).1
    = Ok (Html "<h1>Hi</h1>Hello" 200)
  ∧ ∃ body, (App.root CONFIG Toy.regexp Toy.d1 (Toy.world store Toy.mounted)).1
            = Ok (Html body 200)
            ∧ JS.includes "<h1>Hi</h1>" body = true.
Proof. split; [by vm_compute | eexists; split; [by vm_compute | by vm_compute]]. Qed.

(** Homepage type [blog]: a redirect to the blog index, and no read of
    the pages table. *)
Example root_redirects_to_blog :
  let store := Toy.mkStore [] (Some [("homepage_type", VStr "blog")]) None [] in
  let answered := App.root CONFIG Toy.regexp Toy.d1 (Toy.world store Toy.mounted) in
  answered.1 = Ok (Redirect "/blog")
  ∧ calls answered.2
    = [CallFirst App.HOMEPAGE_TYPE []; CallFirst App.HOMEPAGE_TARGET []].
Proof. by vm_compute. Qed.

(** A target page that does not exist, or a pages table that does not
    exist, ends in the default landing page. *)
Example root_page_missing :
  let settings := Some [("homepage_type", VStr "page"); ("homepage_target_id", VStr "5")] in
  let no_table := Toy.mkStore [] settings None [] in
  let no_page := Toy.mkStore [] settings (Some []) [] in
  let landing :=
    Ok (Html "<p>System Ready - Please configure Homepage in Admin / 2 plugins / core 1.0.0 / nebula-theme 2026 {{unknown}}</p>" 200) in
  (App.root CONFIG Toy.regexp Toy.d1 (Toy.world no_table Toy.mounted)).1 = landing
  ∧ (App.root CONFIG Toy.regexp Toy.d1 (Toy.world no_page Toy.mounted)).1 = landing.
Proof. by vm_compute. Qed.

(* ====================================================================== *)
(** ** Registry: plugins, menus, schemas and what the tables keep *)
(* ====================================================================== *)

(** X1.  Registering a plugin name a second time changes nothing: the
    Registry is the one the first registration left, whatever the clock
    says.  After a registration the name is in the list; the plugin count
    grows by one for a new name and stays for a known one; every name
    that was in the list is still there. *)
Theorem registerPlugin_idempotent (time time' name : string) (r : Registry.t) :
  Registry.registerPlugin time' name (Registry.registerPlugin time name r)
  = Registry.registerPlugin time name r
  ∧ name ∈ Registry.pluginList (Registry.registerPlugin time name r)
  ∧ Registry.getPluginCount (Registry.registerPlugin time name r)
    = (if bool_decide (name ∈ Registry.pluginList r)
       then Registry.getPluginCount r
       else S (Registry.getPluginCount r))
  ∧ (∀ other, other ∈ Registry.pluginList r →
       other ∈ Registry.pluginList (Registry.registerPlugin time name r)).
Proof.
  unfold Registry.registerPlugin, Registry.getPluginCount.
  destruct (bool_decide (name ∈ Registry.pluginList r)) eqn:Hin.
  - rewrite Hin. apply bool_decide_eq_true in Hin. done.
  - simpl. rewrite bool_decide_eq_true_2 by (apply elem_of_app; right; by left).
    split; [done|]. split; [apply elem_of_app; right; by left|].
    split; [rewrite length_app; simpl; lia|].
    intros other Hother. apply elem_of_app. by left.
Qed.

Lemma apply_op_pluginList (op : Notions.Op) (r : Registry.t) :
  Registry.pluginList (Notions.apply_op op r)
  = match op with
    | Notions.RegisterPlugin _ name =>
        if bool_decide (name ∈ Registry.pluginList r)
        then Registry.pluginList r
        else (Registry.pluginList r ++ [name])%list
    | _ => Registry.pluginList r
    end.
Proof.
  destruct op; simpl; try done.
  - unfold Registry.registerThemeView. by destruct (bool_decide (view = "landing")).
  - unfold Registry.registerView. by destruct (bool_decide (name = "__proto__")).
  - unfold Registry.registerPlugin.
    by destruct (bool_decide (name ∈ Registry.pluginList r)).
Qed.

Lemma run_ops_snoc (ops : list Notions.Op) (op : Notions.Op) (r : Registry.t) :
  Notions.run_ops (ops ++ [op]) r = Notions.apply_op op (Notions.run_ops ops r).
Proof. unfold Notions.run_ops. by rewrite foldl_app. Qed.

(** X2.  Whatever sequence of Registry calls ran since the process
    started, the plugin list holds no name twice, and it holds exactly
    the names that [registerPlugin] was called with; so [getPluginCount]
    counts the distinct registered names. *)
Theorem pluginList_distinct_names (ops : list Notions.Op) :
  NoDup (Registry.pluginList (Notions.run_ops ops Registry.initial))
  ∧ (∀ name,
       name ∈ Registry.pluginList (Notions.run_ops ops Registry.initial)
       ↔ ∃ time, Notions.RegisterPlugin time name ∈ ops).
Proof.
  induction ops as [|op ops IH] using rev_ind.
  - simpl. split; [constructor|].
    intros name. split; [intros Hin; by apply elem_of_nil in Hin|].
    intros [time Hin]. by apply elem_of_nil in Hin.
  - destruct IH as [Hdup Hnames]. rewrite run_ops_snoc, apply_op_pluginList.
    set (r := Notions.run_ops ops Registry.initial) in *.
    assert (Hother : ∀ name,
              (∃ time, Notions.RegisterPlugin time name ∈ (ops ++ [op])%list)
              ↔ name ∈ Registry.pluginList r
                ∨ ∃ time, op = Notions.RegisterPlugin time name).
    { intros name. rewrite Hnames. split.
      - intros [time [Hin|Hin%list_elem_of_singleton]%elem_of_app];
          [left | right]; by exists time.
      - intros [[time Hin]|[time ->]]; exists time; apply elem_of_app;
          [by left | right; by apply list_elem_of_singleton]. }
    destruct op as [| | | | |time name| |];
      try (split; [done|]; intros name'; rewrite Hother;
           split; [by left | by intros [?|[? ?]]]).
    destruct (bool_decide (name ∈ Registry.pluginList r)) eqn:Hin.
    + apply bool_decide_eq_true in Hin. split; [done|].
      intros name'. rewrite Hother. split; [by left|].
      intros Hin'. destruct Hin' as [?|[time' Heq]]; [done|]. by injection Heq as _ ->.
    + apply bool_decide_eq_false in Hin. split.
      * apply NoDup_app. split; [done|]. split; [|apply NoDup_singleton].
        intros x Hx Hx'%list_elem_of_singleton. by subst.
      * intros name'. rewrite Hother, elem_of_app, list_elem_of_singleton.
        split.
        { intros Hin'. destruct Hin' as [?| ->]; [by left | right; by exists time]. }
        intros Hin'. destruct Hin' as [?|[time' Heq]]; [by left|].
        right. by injection Heq as _ ->.
Qed.

Lemma apply_op_grows (op : Notions.Op) (r : Registry.t) :
  Registry.getLogs r `prefix_of` Registry.getLogs (Notions.apply_op op r)
  ∧ Registry.getMenus None r `prefix_of` Registry.getMenus None (Notions.apply_op op r)
  ∧ Registry.getSchemas r `prefix_of` Registry.getSchemas (Notions.apply_op op r)
  ∧ Registry.pluginList r `prefix_of` Registry.pluginList (Notions.apply_op op r)
  ∧ dom (Registry.templates r) ⊆ dom (Registry.templates (Notions.apply_op op r))
  ∧ (∀ locale, dom (Registry.getTranslations locale r)
               ⊆ dom (Registry.getTranslations locale (Notions.apply_op op r))).
Proof.
  unfold Registry.getLogs, Registry.getMenus, Registry.getSchemas, Registry.getTranslations.
  destruct op; simpl.
  - repeat split; try done. by apply prefix_app_r.
  - repeat split; try done; by apply prefix_app_r.
  - unfold Registry.registerThemeView.
    destruct (bool_decide (view = "landing")); simpl; repeat split; try done.
    + rewrite !dom_insert. set_solver.
    + rewrite !dom_insert. set_solver.
  - unfold Registry.registerView.
    destruct (bool_decide (name = "__proto__")); simpl; repeat split; try done.
    rewrite dom_insert. set_solver.
  - repeat split; try done. by apply prefix_app_r.
  - unfold Registry.registerPlugin.
    destruct (bool_decide (name ∈ Registry.pluginList r)); simpl; repeat split; try done;
      by apply prefix_app_r.
  - repeat split; try done. intros locale'.
    destruct (decide (locale' = locale)) as [->|Hne].
    + rewrite lookup_insert_eq. simpl. rewrite dom_union. set_solver.
    + by rewrite lookup_insert_ne.
  - repeat split; try done. by apply prefix_app_r.
Qed.

(** X3.  No call of the Registry takes anything away.  After any
    sequence of calls, the log lines, the menus, the schemas and the
    plugin names that were there are still there, in the same order and
    before everything newer (the old list is a prefix of the new one);
    every template key still has an entry; and every key of every
    locale's translation table still has one. *)
Theorem registry_only_grows (ops : list Notions.Op) (r : Registry.t) :
  Registry.getLogs r `prefix_of` Registry.getLogs (Notions.run_ops ops r)
  ∧ Registry.getMenus None r `prefix_of` Registry.getMenus None (Notions.run_ops ops r)
  ∧ Registry.getSchemas r `prefix_of` Registry.getSchemas (Notions.run_ops ops r)
  ∧ Registry.pluginList r `prefix_of` Registry.pluginList (Notions.run_ops ops r)
  ∧ dom (Registry.templates r) ⊆ dom (Registry.templates (Notions.run_ops ops r))
  ∧ (∀ locale, dom (Registry.getTranslations locale r)
               ⊆ dom (Registry.getTranslations locale (Notions.run_ops ops r))).
Proof.
  induction ops as [|op ops IH] using rev_ind.
  - simpl. repeat split; done.
  - rewrite run_ops_snoc.
    destruct IH as (Hl & Hm & Hs & Hp & Ht & Htr).
    destruct (apply_op_grows op (Notions.run_ops ops r)) as (Hl' & Hm' & Hs' & Hp' & Ht' & Htr').
    split; [by etrans|]. split; [by etrans|]. split; [by etrans|]. split; [by etrans|].
    split; [by etrans|]. intros locale. etrans; [apply Htr | apply Htr'].
Qed.

(** X4.  [getMenus] with a category answers the menus of exactly that
    category, in the order they were registered; with no category, or
    with the empty text, it answers all of them.  A newly registered menu
    shows up last, and only under its own category. *)
Theorem getMenus_registerMenu (category_ : option string) (menu : Registry.AdminMenuItem)
    (r : Registry.t) :
  Registry.getMenus category_ (Registry.registerMenu menu r)
  = (Registry.getMenus category_ r
       ++ (if present category_
           then (if bool_decide (Registry.category menu = default "" category_)
                 then [menu] else [])
           else [menu]))%list
  ∧ Registry.getMenus (Some "") r = Registry.getMenus None r
  ∧ Registry.getMenus None r = Registry.menus r
  ∧ (∀ m, m ∈ Registry.getMenus category_ r
          ↔ m ∈ Registry.menus r
            ∧ (present category_ = true → Registry.category m = default "" category_)).
Proof.
  unfold Registry.getMenus. simpl.
  split; [|split; [done|split; [done|]]].
  - destruct (present category_); [|done].
    rewrite filter_app. f_equal.
    rewrite filter_cons, filter_nil.
    destruct (decide (Registry.category menu = default "" category_)) as [Heq|Hne].
    + by rewrite bool_decide_eq_true_2.
    + by rewrite bool_decide_eq_false_2.
  - intros m. destruct (present category_).
    + rewrite list_elem_of_filter. split; intros [? ?]; split; auto.
    + split; [intros ?; split; [done | intros ?; done] | by intros [? _]].
Qed.

(** X5.  [getSchema] answers the schema that was registered first
    under a slug.  Registering the slug again, with a newer version,
    adds a schema to the list of the sweep but leaves the answer of
    [getSchema] as it was; a schema is only found under its own slug. *)
Theorem getSchema_first_registration (time slug_ slug' version_ sql_ : string)
    (r : Registry.t) :
  Registry.getSchema slug_ (Registry.registerSchema time slug' version_ sql_ r)
  = match Registry.getSchema slug_ r with
    | Some s => Some s
    | None =>
        if bool_decide (slug' = slug_)
        then Some (Registry.mkSchema slug' version_ sql_ (Some sql_))
        else None
    end
  ∧ Registry.getSchemas (Registry.registerSchema time slug' version_ sql_ r)
    = (Registry.getSchemas r ++ [Registry.mkSchema slug' version_ sql_ (Some sql_)])%list
  ∧ (∀ s, Registry.getSchema slug_ r = Some s →
          Registry.slug s = slug_ ∧ s ∈ Registry.getSchemas r).
Proof.
  unfold Registry.getSchema, Registry.getSchemas, Registry.registerSchema. simpl.
  split; [|split; [done|]].
  - destruct (list_find (λ s, Registry.slug s = slug_) (Registry.schemas r))
      as [[i s]|] eqn:Hfind.
    + by rewrite (list_find_app_l _ _ _ _ _ Hfind).
    + rewrite (list_find_app_r _ _ _ Hfind). simpl.
      destruct (decide (slug' = slug_)) as [Heq|Hne].
      * by rewrite bool_decide_eq_true_2.
      * by rewrite bool_decide_eq_false_2.
  - intros s Hs.
    destruct (list_find (λ s, Registry.slug s = slug_) (Registry.schemas r))
      as [[i s']|] eqn:Hfind; [|done].
    simpl in Hs. injection Hs as ->.
    apply list_find_Some in Hfind as (Hi & Hslug & _).
    split; [done|]. by eapply list_elem_of_lookup_2.
Qed.

Lemma themed_key_inj (theme theme' view view' : string) :
  Notions.colon_free theme = true → Notions.colon_free theme' = true →
  theme +:+ ":" +:+ view = theme' +:+ ":" +:+ view' → theme = theme' ∧ view = view'.
Proof.
  unfold Notions.colon_free.
  revert theme'. induction theme as [|c theme IH]; intros [|c' theme']; simpl.
  - intros _ _ Heq. split; [done|]. by injection Heq.
  - intros _ [Hc _]%andb_prop Heq. injection Heq as <- _.
    by rewrite Ascii.eqb_refl in Hc.
  - intros [Hc _]%andb_prop _ Heq. injection Heq as -> _.
    by rewrite Ascii.eqb_refl in Hc.
  - intros [_ Ht]%andb_prop [_ Ht']%andb_prop Heq. injection Heq as -> Heq.
    destruct (IH theme' Ht Ht' Heq) as [-> ->]. done.
Qed.

(** X6.  Theme-scoped templates of themes whose names hold no colon do
    not get in each other's way: after [registerThemeView theme view
    html], [getThemeView] answers [html] (or [null] for an empty [html])
    under [(theme, view)], and under every other pair of a colon-free
    theme and a view it answers what it answered before.  The answer does
    not depend on the active theme. *)
Theorem getThemeView_registerThemeView (theme view html theme' view' time name : string)
    (r : Registry.t) :
  Notions.colon_free theme = true → Notions.colon_free theme' = true →
  Registry.getThemeView theme' view' (Registry.registerThemeView theme view html r)
  = (if bool_decide (theme' = theme ∧ view' = view)
     then Spec.usable (Some html)
     else Registry.getThemeView theme' view' r)
  ∧ Registry.getThemeView theme' view' (Registry.setActiveTheme time name r)
    = Registry.getThemeView theme' view' r.
Proof.
  intros Ht Ht'. split; [|done].
  unfold Registry.getThemeView, Registry.template_or_null, Registry.registerThemeView.
  assert (Hlanding : Registry.templates
            (if bool_decide (view = "landing")
             then Registry.with_templates
                    (<["landing" := html]>
                       (Registry.templates
                          (Registry.with_templates
                             (<[theme +:+ ":" +:+ view := html]> (Registry.templates r)) r)))
                    (Registry.with_templates
                       (<[theme +:+ ":" +:+ view := html]> (Registry.templates r)) r)
             else Registry.with_templates
                    (<[theme +:+ ":" +:+ view := html]> (Registry.templates r)) r)
            !! (theme' +:+ ":" +:+ view')
          = <[theme +:+ ":" +:+ view := html]> (Registry.templates r)
            !! (theme' +:+ ":" +:+ view')).
  { destruct (bool_decide (view = "landing")); simpl; [|done].
    rewrite lookup_insert_ne; [done|].
    intros Heq. by apply (themed_key_not_landing theme' view'). }
  rewrite Hlanding. clear Hlanding.
  destruct (decide (theme' = theme ∧ view' = view)) as [[-> ->]|Hne].
  - rewrite bool_decide_eq_true_2 by done. by rewrite lookup_insert_eq.
  - rewrite bool_decide_eq_false_2 by done.
    rewrite lookup_insert_ne; [done|].
    intros Heq. apply Hne.
    destruct (themed_key_inj _ _ _ _ Ht Ht' Heq) as [-> ->]. done.
Qed.

Lemma getThemeView_registerThemeView_witness :
  Registry.getThemeView "default" "landing"
    (Registry.registerThemeView "nebula-theme" "landing" "<p>nebula</p>"
       (Registry.registerThemeView "default" "landing" "<p>default</p>" Registry.initial))
  = Some "<p>default</p>".
Proof.
  destruct (getThemeView_registerThemeView "nebula-theme" "landing" "<p>nebula</p>"
              "default" "landing" "" ""
              (Registry.registerThemeView "default" "landing" "<p>default</p>"
                 Registry.initial) eq_refl eq_refl) as [Hget _].
  rewrite Hget. reflexivity.
Defined.

(** Without the condition on the names, two pairs can share a key. *)
Example getThemeView_colon_collision :
  Registry.getThemeView "a" "b:c" (Registry.registerThemeView "a:b" "c" "<p>x</p>" Registry.initial)
  = Some "<p>x</p>".
Proof. reflexivity. Qed.

Lemma registry_eq (r r' : Registry.t) :
  Registry.menus r = Registry.menus r' → Registry.schemas r = Registry.schemas r' →
  Registry.templates r = Registry.templates r' →
  Registry.activeTheme r = Registry.activeTheme r' →
  Registry.pluginList r = Registry.pluginList r' →
  Registry.systemLogs r = Registry.systemLogs r' →
  Registry.translations r = Registry.translations r' → r = r'.
Proof. destruct r, r'; simpl; by intros -> -> -> -> -> -> ->. Qed.

(** X7.  On a registry where nothing was registered under the locale
    name [__proto__], and for locales and a key that [Object.prototype]
    does not name: [registerTranslation] merges, the table of the locale
    becomes the new entries over the old ones, the tables of the other
    locales stay, and registering the same entries again changes
    nothing.  The two getters agree: [getTranslation] is the entry of
    [getTranslations] with an empty text read as [null]; a locale that
    was never registered has the empty table. *)
Theorem registerTranslation_merges (locale locale' key : string)
    (data : gmap string string) (r : Registry.t) :
  Registry.prototype_intact r →
  JS.inherited locale = false → JS.inherited locale' = false → JS.inherited key = false →
  Registry.getTranslations locale (Registry.registerTranslation locale data r)
  = data ∪ Registry.getTranslations locale r
  ∧ (locale' ≠ locale →
     Registry.getTranslations locale' (Registry.registerTranslation locale data r)
     = Registry.getTranslations locale' r)
  ∧ Registry.registerTranslation locale data (Registry.registerTranslation locale data r)
    = Registry.registerTranslation locale data r
  ∧ Registry.getTranslation locale key r
    = Spec.usable (Registry.getTranslations locale r !! key)
  ∧ (Registry.translations r !! locale = None → Registry.getTranslations locale r = ∅)
  ∧ Registry.prototype_intact (Registry.registerTranslation locale data r).
Proof.
  intros Hintact Hlocale _ _.
  unfold Registry.getTranslations, Registry.getTranslation, Registry.registerTranslation,
    Spec.usable, Registry.prototype_intact in *.
  simpl. split; [by rewrite lookup_insert_eq|].
  split; [intros Hne; by rewrite lookup_insert_ne|].
  split.
  - apply registry_eq; simpl; try done.
    rewrite lookup_insert_eq. simpl. rewrite insert_insert_eq.
    by rewrite (assoc_L (∪)), (idemp_L (∪)).
  - split; [|split; [by intros ->|]].
    + destruct (Registry.translations r !! locale) as [table|]; simpl; [done|].
      by rewrite lookup_empty.
    + assert (locale ≠ "__proto__") as Hne by (intros ->; done).
      by rewrite lookup_insert_ne.
Qed.

Lemma registerTranslation_merges_witness :
  Registry.getTranslations "id"
    (Registry.registerTranslation "id" {["Dashboard" := "Dasbor"]}
       (Registry.registerTranslation "id" {["Settings" := "Pengaturan"]} Registry.initial))
  = {["Dashboard" := "Dasbor"]} ∪ {["Settings" := "Pengaturan"]}.
Proof.
  assert (Hintact : Registry.prototype_intact
                      (Registry.registerTranslation "id" {["Settings" := "Pengaturan"]}
                         Registry.initial)) by reflexivity.
  assert (Hid : JS.inherited "id" = false) by reflexivity.
  assert (Hen : JS.inherited "en" = false) by reflexivity.
  assert (Hkey : JS.inherited "Settings" = false) by reflexivity.
  destruct (registerTranslation_merges "id" "en" "Settings" {["Dashboard" := "Dasbor"]}
              _ Hintact Hid Hen Hkey) as [Hmerged _].
  rewrite Hmerged. reflexivity.
Defined.

(* ====================================================================== *)
(** ** The validator on every manifest *)
(* ====================================================================== *)

(** X8.  [validate] admits a module exactly when it has a manifest with
    a non-empty slug and a non-empty version, whose type is the expected
    one, and whose [requires] is there, non-empty and compatible with the
    core.  It gives an error text exactly when it does not admit. *)
Theorem validate_admits_iff (config : Config) (module : option Validator.PasPagesModule)
    (type : option string) :
  (Validator.isValid (Validator.validate config module type) = true
   ↔ ∃ mf, module = Some (Validator.mkModule (Some mf))
           ∧ present (Validator.m_slug mf) = true
           ∧ present (Validator.m_version mf) = true
           ∧ Validator.m_type mf = type
           ∧ present (Validator.m_requires mf) = true
           ∧ Validator.isCompatible config (default "" (Validator.m_requires mf)) = true)
  ∧ (Validator.error (Validator.validate config module type) = None
     ↔ Validator.isValid (Validator.validate config module type) = true).
Proof.
  unfold Validator.validate.
  destruct module as [[[mf|]]|]; simpl.
  2,3: split; [split; [done | by intros (mf & Heq & _)] | done].
  destruct (present (Validator.m_slug mf)) eqn:Hslug; simpl.
  2: { split; [split; [done | intros (mf' & Heq & Hs & _)] | done].
       injection Heq as <-. congruence. }
  destruct (present (Validator.m_version mf)) eqn:Hversion; simpl.
  2: { split; [split; [done | intros (mf' & Heq & _ & Hv & _)] | done].
       injection Heq as <-. congruence. }
  destruct (decide (Validator.m_type mf = type)) as [Htype|Htype].
  2: { rewrite bool_decide_eq_false_2 by done. simpl.
       split; [split; [done | intros (mf' & Heq & _ & _ & Ht & _)] | done].
       injection Heq as <-. done. }
  rewrite bool_decide_eq_true_2 by done. simpl.
  destruct (present (Validator.m_requires mf)) eqn:Hrequires; simpl.
  2: { split; [split; [done | intros (mf' & Heq & _ & _ & _ & Hr & _)] | done].
       injection Heq as <-. congruence. }
  destruct (Validator.isCompatible config (default "" (Validator.m_requires mf)))
    eqn:Hcompatible; simpl.
  - split; [|done]. split; [|done]. intros _. by exists mf.
  - split; [split; [done | intros (mf' & Heq & _ & _ & _ & _ & Hc)] | done].
    injection Heq as <-. congruence.
Qed.

(** X9.  A core version is compatible with itself exactly when it
    starts with a number; under a core version that does not, no module
    at all is compatible, so none is admitted.  Compatibility is
    symmetric: a module requiring [b] fits a core [a] exactly when a
    module requiring [a] fits a core [b]. *)
Theorem isCompatible_core_version (config : Config) (required : string)
    (module : option Validator.PasPagesModule) (type : option string) :
  Validator.isCompatible config (CORE_VERSION config)
  = match Spec.major (CORE_VERSION config) with
    | JS.NaN => false
    | _ => true
    end
  ∧ (Spec.major (CORE_VERSION config) = JS.NaN →
     Validator.isCompatible config required = false
     ∧ Validator.isValid (Validator.validate config module type) = false)
  ∧ Validator.isCompatible config required
    = Validator.isCompatible
        (mkConfig required (corsOrigin config) (defaultLocale config))
        (CORE_VERSION config).
Proof.
  rewrite !isCompatible_major. simpl.
  split; [|split].
  - destruct (Spec.major (CORE_VERSION config)) as [|z|s]; simpl;
      [done | apply Z.eqb_refl | by destruct s].
  - intros Hnan.
    assert (Hno : ∀ v, Validator.isCompatible config v = false).
    { intros v. rewrite isCompatible_major, Hnan. done. }
    split; [by rewrite <- isCompatible_major|].
    unfold Validator.validate.
    destruct module as [[[mf|]]|]; simpl; try done.
    destruct (present (Validator.m_slug mf)), (present (Validator.m_version mf)),
      (bool_decide (Validator.m_type mf = type)), (present (Validator.m_requires mf));
      simpl; try done.
    by rewrite Hno.
  - destruct (Spec.major (CORE_VERSION config)) as [|x|s],
      (Spec.major required) as [|y|t]; simpl; try done.
    + apply Z.eqb_sym.
    + by destruct s, t.
Qed.

(* ====================================================================== *)
(** ** Splitting and trimming *)
(* ====================================================================== *)

Lemma all_chars_app (p : ascii → bool) (a b : string) :
  JS.all_chars p (a +:+ b) = JS.all_chars p a && JS.all_chars p b.
Proof. induction a as [|c a IH]; simpl; [done|]. by rewrite IH, andb_assoc. Qed.

Lemma rev_app_append (a acc : string) :
  String.rev_app a acc = String.rev_app a "" +:+ acc.
Proof.
  revert acc. induction a as [|c a IH]; intros acc; simpl; [done|].
  rewrite (IH (String c acc)), (IH (String c "")).
  by rewrite append_assoc.
Qed.

Lemma rev_cons (c : ascii) (s : string) :
  String.rev (String c s) = String.rev s +:+ String c "".
Proof. unfold String.rev. simpl. apply rev_app_append. Qed.

Lemma rev_app_snoc (s : string) (c : ascii) (acc : string) :
  String.rev_app (s +:+ String c "") acc = String c (String.rev_app s acc).
Proof. revert acc. induction s as [|d s IH]; intros acc; simpl; [done | apply IH]. Qed.

Lemma rev_snoc (s : string) (c : ascii) :
  String.rev (s +:+ String c "") = String c (String.rev s).
Proof. apply rev_app_snoc. Qed.

Lemma all_chars_rev (p : ascii → bool) (s : string) :
  JS.all_chars p (String.rev s) = JS.all_chars p s.
Proof.
  induction s as [|c s IH]; [done|].
  rewrite rev_cons, all_chars_app, IH. simpl.
  by rewrite andb_true_r, andb_comm.
Qed.

Lemma trimStart_spaces (s : string) :
  JS.all_chars JS.is_space s = true → JS.trimStart s = "".
Proof.
  induction s as [|c s IH]; simpl; [done|].
  intros [Hc Hs]%andb_prop. rewrite Hc. by apply IH.
Qed.

Lemma trimStart_snoc (s : string) (c : ascii) :
  JS.trimStart (s +:+ String c "")
  = if JS.all_chars JS.is_space s
    then (if JS.is_space c then "" else String c "")
    else JS.trimStart s +:+ String c "".
Proof.
  induction s as [|d s IH]; simpl; [done|].
  destruct (JS.is_space d); simpl; [apply IH | done].
Qed.

(** [trimEnd] without the detour through the reversed text: from the
    first position after which only white space follows, the rest is
    dropped. *)
Lemma trimEnd_cons (c : ascii) (s : string) :
  JS.trimEnd (String c s)
  = if JS.all_chars JS.is_space (String c s) then "" else String c (JS.trimEnd s).
Proof.
  unfold JS.trimEnd. rewrite rev_cons, trimStart_snoc, all_chars_rev.
  change (JS.all_chars JS.is_space (String c s))
    with (JS.is_space c && JS.all_chars JS.is_space s).
  destruct (JS.all_chars JS.is_space s) eqn:Hs.
  - rewrite andb_true_r.
    rewrite trimStart_spaces by by rewrite all_chars_rev.
    by destruct (JS.is_space c).
  - rewrite andb_false_r. by rewrite rev_snoc.
Qed.

Lemma trimEnd_nil : JS.trimEnd "" = "".
Proof. done. Qed.

Lemma all_chars_trimStart (p : ascii → bool) (s : string) :
  JS.all_chars p s = true → JS.all_chars p (JS.trimStart s) = true.
Proof.
  induction s as [|c s IH]; simpl; [done|].
  intros [Hc Hs]%andb_prop. destruct (JS.is_space c); [by apply IH|].
  simpl. by rewrite Hc, Hs.
Qed.

Lemma all_chars_trimEnd (p : ascii → bool) (s : string) :
  JS.all_chars p s = true → JS.all_chars p (JS.trimEnd s) = true.
Proof.
  induction s as [|c s IH]; [done|].
  rewrite trimEnd_cons. intros [Hc Hs]%andb_prop.
  destruct (JS.all_chars JS.is_space (String c s)); [done|].
  simpl. by rewrite Hc, IH.
Qed.

Lemma all_chars_trim (p : ascii → bool) (s : string) :
  JS.all_chars p s = true → JS.all_chars p (JS.trim s) = true.
Proof. intros Hs. unfold JS.trim. by apply all_chars_trimEnd, all_chars_trimStart. Qed.

Lemma first_char_trimStart (s : string) (c : ascii) :
  Notions.first_char (JS.trimStart s) = Some c → JS.is_space c = false.
Proof.
  induction s as [|d s IH]; simpl; [done|].
  destruct (JS.is_space d) eqn:Hd; [done|].
  simpl. by intros [= <-].
Qed.

Lemma first_char_trimEnd (s : string) (c : ascii) :
  Notions.first_char (JS.trimEnd s) = Some c → Notions.first_char s = Some c.
Proof.
  destruct s as [|d s]; [done|]. rewrite trimEnd_cons.
  by destruct (JS.all_chars JS.is_space (String d s)).
Qed.

Lemma last_char_trimEnd (s : string) (c : ascii) :
  Notions.last_char (JS.trimEnd s) = Some c → JS.is_space c = false.
Proof.
  induction s as [|d s IH]; [done|].
  rewrite trimEnd_cons.
  destruct (JS.all_chars JS.is_space (String d s)) eqn:Hall; [done|].
  simpl. destruct (JS.trimEnd s) as [|e t] eqn:Ht.
  - intros [= <-]. destruct s as [|e s]; simpl in Hall.
    + by rewrite andb_true_r in Hall.
    + rewrite trimEnd_cons in Ht.
      destruct (JS.all_chars JS.is_space (String e s)) eqn:Hs; [|done].
      simpl in Hs. rewrite Hs in Hall. by rewrite andb_true_r in Hall.
  - apply IH.
Qed.

(** A trimmed text neither starts nor ends with white space. *)
Lemma trim_trimmed (s : string) (c : ascii) :
  (Notions.first_char (JS.trim s) = Some c → JS.is_space c = false)
  ∧ (Notions.last_char (JS.trim s) = Some c → JS.is_space c = false).
Proof.
  unfold JS.trim. split.
  - intros Hc%first_char_trimEnd. by eapply first_char_trimStart.
  - apply last_char_trimEnd.
Qed.

Lemma split_pieces (sep : ascii) (s : string) :
  Forall (λ piece, JS.all_chars (λ c, negb (Ascii.eqb c sep)) piece = true) (JS.split sep s)
  ∧ JS.split sep s ≠ [].
Proof.
  induction s as [|c s [IH Hne]]; simpl.
  - split; [by repeat constructor | done].
  - destruct (Ascii.eqb c sep) eqn:Hc.
    + split; [by constructor | done].
    + destruct (JS.split sep s) as [|h t]; [done|].
      split; [|done]. apply Forall_cons in IH as [Hh Ht].
      constructor; [|done]. simpl. by rewrite Hc, Hh.
Qed.

(** The pieces of a text between separators, trimmed, the empty ones
    dropped: none is empty, none holds the separator, none starts or ends
    with white space. *)
Lemma trimmed_pieces (sep : ascii) (keep : string → Prop) `{∀ s, Decision (keep s)}
    (s : string) :
  (∀ piece, keep piece → piece ≠ "") →
  Forall (λ piece,
            piece ≠ ""
            ∧ JS.all_chars (λ c, negb (Ascii.eqb c sep)) piece = true
            ∧ (∀ c, Notions.first_char piece = Some c → JS.is_space c = false)
            ∧ (∀ c, Notions.last_char piece = Some c → JS.is_space c = false))
         (filter keep (JS.trim <$> JS.split sep s)).
Proof.
  intros Hkeep. apply Forall_forall. intros piece [Hk Hin]%list_elem_of_filter.
  apply list_elem_of_fmap in Hin as (raw & -> & Hraw).
  destruct (split_pieces sep s) as [Hfree _].
  rewrite Forall_forall in Hfree.
  split; [by apply Hkeep|]. split; [by apply all_chars_trim, Hfree|].
  split; intros c; apply trim_trimmed.
Qed.

(* ====================================================================== *)
(** ** The database wrapper: statements, [raw] and [run] *)
(* ====================================================================== *)

(** X10.  The statements [splitStatements] hands to the binding: none
    is empty, none holds a semicolon (a semicolon inside a quoted SQL
    text splits the statement like any other), none starts or ends with
    white space; and there are at most as many as the text has pieces
    between semicolons. *)
Theorem splitStatements_statements (sql : string) :
  Forall (λ statement,
            statement ≠ ""
            ∧ Notions.semicolon_free statement = true
            ∧ (∀ c, Notions.first_char statement = Some c → JS.is_space c = false)
            ∧ (∀ c, Notions.last_char statement = Some c → JS.is_space c = false))
         (Database.splitStatements sql)
  ∧ (length (Database.splitStatements sql) ≤ length (JS.split ";" sql))%nat.
Proof.
  unfold Database.splitStatements. split.
  - apply (trimmed_pieces ";"). intros piece Hlen ->. simpl in Hlen. lia.
  - etrans; [apply length_filter|]. by rewrite length_fmap.
Qed.

(** A semicolon inside a quoted text splits like any other. *)
Example splitStatements_quoted_semicolon :
  Database.splitStatements "INSERT INTO t (v) VALUES ('a;b'); "
  = ["INSERT INTO t (v) VALUES ('a"; "b')"].
Proof. by vm_compute. Qed.

(** X11.  The tag names the blog editor saves: none is empty, none
    holds a comma, none starts or ends with white space; a missing or
    empty [tags] field gives no tag. *)
Theorem tagList_tags (tags : option string) :
  Forall (λ tag,
            tag ≠ ""
            ∧ JS.all_chars (λ c, negb (Ascii.eqb c ",")) tag = true
            ∧ (∀ c, Notions.first_char tag = Some c → JS.is_space c = false)
            ∧ (∀ c, Notions.last_char tag = Some c → JS.is_space c = false))
         (Blog.tagList tags)
  ∧ Blog.tagList None = []
  ∧ Blog.tagList (Some "") = [].
Proof.
  split; [|done].
  unfold Blog.tagList. apply (trimmed_pieces ","). by intros piece Hp ->.
Qed.

Section DatabaseShape.
Context {S D : Type} `{Duration D}.
Variable d1 : D1Database S D.

(** X12.  [run] makes exactly one call to the binding.  A result it
    hands back always carries a [meta] record (the binding's, or the
    stand-in with [served_by = 'shim']); an exception it throws always
    carries the binding's message behind the text [Database run error: ]. *)
Theorem run_result_shape (query : string) (params : list Val) (w : World S) :
  ∃ outcome s',
    Database.run d1 query params w = (outcome, Spec.after w s' [CallRun query params])
    ∧ s' = (d1_run d1 query params (db w)).2
    ∧ match outcome, (d1_run d1 query params (db w)).1 with
      | Ok res, Ok res' =>
          is_Some (meta res)
          ∧ (is_Some (meta res') → res = res')
          ∧ (meta res' = None → meta res = Some (mkMeta dzero 0 0 "shim"))
      | Throw e, Throw e' => e = "Database run error: " +:+ e'
      | _, _ => False
      end.
Proof.
  rewrite run_eq. eexists _, _. split; [reflexivity|]. split; [done|].
  destruct (d1_run d1 query params (db w)).1 as [res|e]; [|done].
  destruct (meta res) as [m|] eqn:Hmeta.
  - split; [by rewrite Hmeta|]. split; [done | by rewrite Hmeta].
  - simpl. split; [done|]. split; [by intros [? ?] | done].
Qed.

(** [raw] never throws and makes at most one call to the
    binding.  It reports no [success] flag at all exactly for a blank
    text, for which it makes no call and counts zero statements; it
    reports [success = false], with the message and a count of zero,
    exactly when the binding threw; otherwise [success = true] and no
    error. *)
Lemma raw_reports_outcome (sql : string) (w : World S) :
  ∃ res,
    Database.raw d1 sql w
    = (Ok res, Spec.after w (Spec.executor_outcome d1 sql (db w)).2 (Spec.executor_calls sql))
    ∧ (length (Spec.executor_calls sql) ≤ 1)%nat
    ∧ (Spec.blank sql = true →
       Database.success res = None ∧ Database.count res = 0%nat
       ∧ Spec.executor_calls sql = [])
    ∧ (Spec.blank sql = false →
       length (Spec.executor_calls sql) = 1%nat
       ∧ match (Spec.executor_outcome d1 sql (db w)).1 with
         | Some e =>
             Database.success res = Some false ∧ Database.error res = Some e
             ∧ Database.count res = 0%nat
         | None => Database.success res = Some true ∧ Database.error res = None
         end).
Proof.
  unfold Database.raw, Spec.executor_outcome, Spec.executor_calls, Spec.blank.
  destruct (negb (JS.truthy sql) || bool_decide (JS.trim sql = "")).
  { eexists. simpl. rewrite after_nil. split; [reflexivity|]. simpl.
    split; [lia|]. split; [done|]. intros [=]. }
  run_monad.
  destruct (Database.splitStatements sql) as [|st [|st' sts]]; simpl.
  - destruct (d1_batch d1 [] (db w)) as [[rs|e] s']; simpl;
      eexists; (split; [reflexivity|]); simpl; (split; [lia|]);
      (split; [intros [=]|]); done.
  - destruct (d1_exec d1 st (db w)) as [[rs|e] s']; simpl;
      eexists; (split; [reflexivity|]); simpl; (split; [lia|]);
      (split; [intros [=]|]); done.
  - destruct (d1_batch d1 (st :: st' :: sts) (db w)) as [[rs|e] s']; simpl;
      eexists; (split; [reflexivity|]); simpl; (split; [lia|]);
      (split; [intros [=]|]); done.
Qed.

End DatabaseShape.

(* ====================================================================== *)
(** ** The migration sweep: a ledger that cannot be set up, a ledger that
       holds everything *)
(* ====================================================================== *)

(** X13.  When the statement that creates the ledger table fails, the
    sweep stops there: the response carries the one [[FATAL]] line with
    the message of the binding behind the two prefixes, the only call
    made is that statement, no schema is looked up or executed however
    many are registered, and the Registry is as before.  Without a D1
    binding the answer is the status-500 line and nothing is touched. *)
Theorem migrate_init_failure {S D : Type} `{Duration D} (d1 : D1Database S D)
    (w : World S) (e : string) :
  (d1_run d1 Migrator.CREATE_LEDGER [] (db w)).1 = Throw e →
  let fatal :=
    Admin.span (Some "#ff4444")
      ("[FATAL] Migration System Init Failed: Database run error: " +:+ e) in
  Admin.migrate d1 true w
  = (Ok (Json None [fatal] 200),
     mkWorld (d1_run d1 Migrator.CREATE_LEDGER [] (db w)).2
       (calls w ++ [CallRun Migrator.CREATE_LEDGER []]) (registry w) (clock w) [fatal])
  ∧ Admin.migrate d1 false w
    = (Ok (Json (Some false) ["[CRITICAL] D1 Database not connected"] 500), w).
Proof.
  intros Hinit. simpl. split; [|done].
  unfold Admin.migrate. simpl.
  unfold bind at 1. unfold new_logs at 1.
  unfold bind at 1. unfold try_catch at 1.
  unfold bind at 1. rewrite initSystem_eq. simpl. rewrite Hinit.
  unfold push_log, bind, get_logs, ret, Spec.after. simpl. done.
Qed.

Lemma migrate_init_failure_witness :
  Admin.migrate Notions.offline true (mkWorld tt [] Toy.mounted Toy.noon [])
  = (Ok (Json None
           ["<span style=" +:+ dq +:+ "color: #ff4444;" +:+ dq
              +:+ ">[FATAL] Migration System Init Failed: Database run error: D1_ERROR: database unavailable</span>"]
           200),
     mkWorld tt [CallRun Migrator.CREATE_LEDGER []] Toy.mounted Toy.noon
       ["<span style=" +:+ dq +:+ "color: #ff4444;" +:+ dq
          +:+ ">[FATAL] Migration System Init Failed: Database run error: D1_ERROR: database unavailable</span>"]).
Proof.
  exact (proj1 (migrate_init_failure Notions.offline
                  (mkWorld tt [] Toy.mounted Toy.noon []) Notions.unavailable eq_refl)).
Defined.

Section AppliedLedger.
Context {S D : Type} `{Duration D}.
Variable d1 : D1Database S D.
Variable applied : S → string → string → bool.
Hypothesis contract : Spec.ledger_contract d1 applied.

Lemma sweep_loop_applied (schemas : list Registry.MigrationSchema) (w : World S) :
  Forall (λ s, applied (db w) (Registry.slug s) (Registry.version s) = true) schemas →
  for_each schemas (λ s,
    result <- Migrator.applyMigration d1
                (Registry.slug s) (Registry.version s) (Registry.sql s) ;;
    push_log (Admin.outcome_line result)) w
  = (Ok tt,
     mkWorld (db w)
       (calls w ++ ((λ s, Spec.lookup_call (Registry.slug s) (Registry.version s)) <$> schemas))
       (registry w) (clock w)
       (logs w ++ ((λ s, Admin.outcome_line
                           (Migrator.skip_line (Registry.slug s) (Registry.version s)))
                     <$> schemas))).
Proof.
  revert w. induction schemas as [|s schemas IH]; intros w Hall; simpl.
  - unfold ret. rewrite !app_nil_r. by destruct w.
  - apply Forall_cons in Hall as [Hs Hall].
    unfold bind at 1. unfold bind at 1.
    destruct (applyMigration_eq d1 (Registry.slug s) (Registry.version s)
                (Registry.sql s) w) as [duration ->].
    destruct (lookup_applied d1 applied contract (db w) _ _ Hs) as [row ->]. simpl.
    unfold push_log at 1. simpl.
    rewrite IH by done. simpl. by rewrite <- !app_assoc.
Qed.


End AppliedLedger.


(* ====================================================================== *)
(** ** The root route on every path *)
(* ====================================================================== *)

Section RootFacts.
Context {S D : Type} `{Duration D}.
Variable config : Config.
Variable regexp : string → string → string → Res string.
Variable d1 : D1Database S D.

Lemma default_landing_eq (w : World S) :
  App.default_landing config regexp w
  = (ViewEngine.render regexp
       (Registry.log (hhmmss (clock w)) "System Status: Rendering Default Landing Page."
          (registry w))
       (fullYear (clock w)) "landing"
       (App.landing_data config
          (Registry.log (hhmmss (clock w)) "System Status: Rendering Default Landing Page."
             (registry w))),
     mkWorld (db w) (calls w)
       (Registry.log (hhmmss (clock w)) "System Status: Rendering Default Landing Page."
          (registry w))
       (clock w) (logs w)).
Proof. done. Qed.

(** Every path through the handler. *)
Lemma root_eq (w : World S) :
  let first1 := d1_first d1 App.HOMEPAGE_TYPE [] (db w) in
  let row1 := match first1.1 with Ok row => row | Throw _ => None end in
  let first2 := d1_first d1 App.HOMEPAGE_TARGET [] first1.2 in
  let row2 := match first2.1 with Ok row => row | Throw _ => None end in
  let homeType :=
    if val_truthy (column_opt row1 "value") then column_opt row1 "value"
    else VStr "default" in
  let target := column_opt row2 "value" in
  let settings_calls := [CallFirst App.HOMEPAGE_TYPE []; CallFirst App.HOMEPAGE_TARGET []] in
  let first3 := d1_first d1 App.PAGE_BY_ID [target] first2.2 in
  App.root config regexp d1 w
  = if bool_decide (homeType = VStr "blog")
    then (Ok (Redirect "/blog"), Spec.after w first2.2 settings_calls)
    else if bool_decide (homeType = VStr "page") && val_truthy target
    then
      match first3.1 with
      | Ok (Some page) =>
          (Ok (Html
                 (JS.replace_first "{{slug}}" (val_to_string (column page "slug"))
                    (JS.replace_first "{{content}}" (val_to_string (column page "content"))
                       (JS.replace_first "{{title}}" (val_to_string (column page "title"))
                          (match Registry.getView "public_page" (registry w) with
                           | Some t => if JS.truthy t then t else App.fallback_template page
                           | None => App.fallback_template page
                           end)))) 200),
           Spec.after w first3.2 (settings_calls ++ [CallFirst App.PAGE_BY_ID [target]]))
      | _ =>
          App.default_landing config regexp
            (Spec.after w first3.2 (settings_calls ++ [CallFirst App.PAGE_BY_ID [target]]))
      end
    else App.default_landing config regexp (Spec.after w first2.2 settings_calls).
Proof.
  simpl. unfold App.root, try_catch, bind.
  rewrite findOne_eq. simpl. rewrite findOne_eq. simpl. rewrite after_after. simpl.
  destruct (bool_decide (_ = VStr "blog")); [done|].
  unfold App.page_branch.
  destruct (bool_decide (_ = VStr "page") && val_truthy _); [|done].
  unfold try_catch, bind. rewrite findOne_eq. simpl. rewrite after_after. simpl.
  destruct (d1_first d1 App.PAGE_BY_ID _ _).1 as [[page|]|e]; done.
Qed.

(** X15.  The root route never ends in an exception, whatever the
    binding, the Registry and the regular-expression engine do.  It only
    reads: it makes two or three calls, all of them [first()] queries, the
    first two being the reads of the two homepage settings; and it leaves
    the clock and the response log of the world alone. *)
Theorem root_never_throws (w : World S) :
  ∃ response w' more,
    App.root config regexp d1 w = (Ok response, w')
    ∧ calls w'
      = (calls w ++ CallFirst App.HOMEPAGE_TYPE [] :: CallFirst App.HOMEPAGE_TARGET [] :: more)%list
    ∧ (length more ≤ 1)%nat
    ∧ Forall (λ c, Notions.is_first c = true) more
    ∧ clock w' = clock w ∧ logs w' = logs w.
Proof.
  rewrite root_eq. simpl.
  destruct (bool_decide (_ = VStr "blog")).
  { eexists _, _, []. simpl. repeat split; try done; lia. }
  destruct (bool_decide (_ = VStr "page") && val_truthy _).
  - destruct (d1_first d1 App.PAGE_BY_ID _ _).1 as [[page|]|e].
    2,3: rewrite default_landing_eq, render_landing.
    all: eexists _, _, [_]; simpl; (split; [reflexivity|]);
      rewrite <- ?app_assoc; simpl; repeat split; try done; try lia; by repeat constructor.
  - rewrite default_landing_eq, render_landing.
    eexists _, _, []. simpl. repeat split; try done; lia.
Qed.

(** X16.  What the root route does to the Registry: nothing, when it
    answers with a redirect or with a page; and when it answers with the
    default landing page, it appends the one line [System Status:
    Rendering Default Landing Page.] to the system log and renders
    [landing] over the Registry with that line.  No other line is ever
    written: the line [Error: Page plugin missing or table not found.] of
    the inner [catch] cannot appear, since the page lookup does not
    throw. *)
Theorem root_registry_log (w : World S) :
  let answered := App.root config regexp d1 w in
  let logged :=
    Registry.log (hhmmss (clock w)) "System Status: Rendering Default Landing Page."
      (registry w) in
  (registry answered.2 = registry w
   ∧ (answered.1 = Ok (Redirect "/blog") ∨ ∃ body, answered.1 = Ok (Html body 200)))
  ∨ (registry answered.2 = logged
     ∧ answered.1
       = ViewEngine.render regexp logged (fullYear (clock w)) "landing"
           (App.landing_data config logged)
     ∧ Registry.getLogs logged
       = (Registry.getLogs (registry w)
            ++ ["[" +:+ hhmmss (clock w)
                  +:+ "] System Status: Rendering Default Landing Page."])%list).
Proof.
  simpl. rewrite root_eq. simpl.
  destruct (bool_decide (_ = VStr "blog")); [left; split; [done | by left]|].
  destruct (bool_decide (_ = VStr "page") && val_truthy _).
  - destruct (d1_first d1 App.PAGE_BY_ID _ _).1 as [[page|]|e].
    + left. split; [done|]. right. by eexists.
    + right. by rewrite default_landing_eq.
    + right. by rewrite default_landing_eq.
  - right. by rewrite default_landing_eq.
Qed.

(** X17.  Homepage type [blog]: the answer is a redirect to [/blog]
    after the two settings reads; the pages table is not read, the
    Registry is not touched, and neither the target setting nor the
    registered views matter. *)
Theorem root_blog_redirect (w : World S) (row : Row) (s1 : S) :
  d1_first d1 App.HOMEPAGE_TYPE [] (db w) = (Ok (Some row), s1) →
  column row "value" = VStr "blog" →
  App.root config regexp d1 w
  = (Ok (Redirect "/blog"),
     mkWorld (d1_first d1 App.HOMEPAGE_TARGET [] s1).2
       (calls w ++ [CallFirst App.HOMEPAGE_TYPE []; CallFirst App.HOMEPAGE_TARGET []])
       (registry w) (clock w) (logs w)).
Proof.
  intros Hfirst Hvalue. rewrite root_eq. simpl. rewrite Hfirst. simpl.
  rewrite Hvalue. done.
Qed.

(** X18.  Homepage type [page]: with a target whose page the lookup
    finds, the answer is a status-200 page made of the [public_page] view
    (of the active theme, or the bare one), or of the built-in markup
    when no such view is registered, with the first [{{title}}], then the
    first [{{content}}], then the first [{{slug}}] replaced by the
    columns of the page; three reads are made and the Registry is not
    touched.  With an empty target the pages table is not even read and
    the answer is the default landing page. *)
Theorem root_page (w : World S) (row1 row2 : option Row) (s1 s2 : S) :
  d1_first d1 App.HOMEPAGE_TYPE [] (db w) = (Ok row1, s1) →
  column_opt row1 "value" = VStr "page" →
  d1_first d1 App.HOMEPAGE_TARGET [] s1 = (Ok row2, s2) →
  let target := column_opt row2 "value" in
  (∀ page s3,
     val_truthy target = true →
     d1_first d1 App.PAGE_BY_ID [target] s2 = (Ok (Some page), s3) →
     App.root config regexp d1 w
     = (Ok (Html
              (JS.replace_first "{{slug}}" (val_to_string (column page "slug"))
                 (JS.replace_first "{{content}}" (val_to_string (column page "content"))
                    (JS.replace_first "{{title}}" (val_to_string (column page "title"))
                       (default (App.fallback_template page)
                          (Registry.getView "public_page" (registry w)))))) 200),
        mkWorld s3
          (calls w ++ [CallFirst App.HOMEPAGE_TYPE []; CallFirst App.HOMEPAGE_TARGET [];
                       CallFirst App.PAGE_BY_ID [target]])
          (registry w) (clock w) (logs w)))
  ∧ (val_truthy target = false →
     App.root config regexp d1 w
     = App.default_landing config regexp
         (mkWorld s2
            (calls w ++ [CallFirst App.HOMEPAGE_TYPE []; CallFirst App.HOMEPAGE_TARGET []])
            (registry w) (clock w) (logs w))).
Proof.
  intros Hfirst Hvalue Hsecond. simpl. split.
  - intros page s3 Htarget Hthird.
    rewrite root_eq. simpl. rewrite Hfirst. simpl. rewrite Hsecond. simpl.
    rewrite Hvalue. simpl. rewrite Htarget, Hthird. simpl.
    unfold Spec.after. simpl.
    destruct (Registry.getView "public_page" (registry w)) as [t|] eqn:Hview; [|done].
    by rewrite (getView_truthy _ _ _ Hview).
  - intros Htarget.
    rewrite root_eq. simpl. rewrite Hfirst. simpl. rewrite Hsecond. simpl.
    rewrite Hvalue. simpl. by rewrite Htarget.
Qed.

End RootFacts.

Lemma root_blog_redirect_witness :
  let store := Toy.mkStore [] (Some [("homepage_type", VStr "blog")]) None [] in
  App.root CONFIG Toy.regexp Toy.d1 (Toy.world store Toy.mounted)
  = (Ok (Redirect "/blog"),
     mkWorld store [CallFirst App.HOMEPAGE_TYPE []; CallFirst App.HOMEPAGE_TARGET []]
       Toy.mounted Toy.noon []).
Proof.
  exact (root_blog_redirect CONFIG Toy.regexp Toy.d1
           (Toy.world (Toy.mkStore [] (Some [("homepage_type", VStr "blog")]) None [])
              Toy.mounted)
           [("value", VStr "blog")] _ eq_refl eq_refl).
Defined.

Lemma root_page_witness :
  let store := Toy.mkStore []
                 (Some [("homepage_type", VStr "page"); ("homepage_target_id", VStr "5")])
                 (Some [[("id", VInt 5); ("title", VStr "Hi");
                         ("content", VStr "Hello"); ("slug", VStr "hi")]]) [] in
  let r := Registry.registerView "public_page" "<h1>{{title}}</h1>{{content}}" Toy.mounted in
  App.root CONFIG Toy.regexp Toy.d1 (Toy.world store r)
  = (Ok (Html "<h1>Hi</h1>Hello" 200),
     mkWorld store
       [CallFirst App.HOMEPAGE_TYPE []; CallFirst App.HOMEPAGE_TARGET [];
        CallFirst App.PAGE_BY_ID [VStr "5"]]
       r Toy.noon []).
Proof.
  exact (proj1 (root_page CONFIG Toy.regexp Toy.d1
                  (Toy.world
                     (Toy.mkStore []
                        (Some [("homepage_type", VStr "page");
                               ("homepage_target_id", VStr "5")])
                        (Some [[("id", VInt 5); ("title", VStr "Hi");
                                ("content", VStr "Hello"); ("slug", VStr "hi")]]) [])
                     (Registry.registerView "public_page" "<h1>{{title}}</h1>{{content}}"
                        Toy.mounted))
                  (Some [("value", VStr "page")]) (Some [("value", VStr "5")]) _ _
                  eq_refl eq_refl eq_refl)
           [("id", VInt 5); ("title", VStr "Hi"); ("content", VStr "Hello");
            ("slug", VStr "hi")] _ eq_refl eq_refl).
Defined.

(* ====================================================================== *)
(** ** The module loader and the shipped modules *)
(* ====================================================================== *)

(** What the loader passes to the validator as the expected type is the
    type the manifest declares, so the type check of the validator always
    passes there. *)
Lemma validate_own_type (config : Config) (mf : Validator.ModuleManifest) :
  Validator.isValid
    (Validator.validate config (Some (Validator.mkModule (Some mf))) (Validator.m_type mf))
  = present (Validator.m_slug mf) && present (Validator.m_version mf)
    && present (Validator.m_requires mf)
    && Validator.isCompatible config (default "" (Validator.m_requires mf)).
Proof.
  unfold Validator.validate. simpl.
  destruct (present (Validator.m_slug mf)); simpl; [|done].
  destruct (present (Validator.m_version mf)); simpl; [|done].
  rewrite bool_decide_eq_true_2 by done. simpl.
  destruct (present (Validator.m_requires mf)); simpl; [|done].
  by destruct (Validator.isCompatible config (default "" (Validator.m_requires mf))).
Qed.

Lemma load_module_eq {S : Type} (config : Config) (mf : Validator.ModuleManifest)
    (mount : M S unit) (w : World S) :
  Loader.load_module config (Some (Loader.mkModule (Some mf) mount)) w
  = (if present (Validator.m_slug mf) && present (Validator.m_version mf)
        && present (Validator.m_requires mf)
        && Validator.isCompatible config (default "" (Validator.m_requires mf))
     then
       ((if bool_decide (Validator.m_type mf = Some "plugin")
         then update_registry
                (Registry.registerPlugin (hhmmss (clock w)) (show (Validator.m_slug mf)))
         else ret tt) ;;;
        mount ;;;
        Registry_log ("Module mounted: " +:+ show (Validator.m_slug mf)
                        +:+ " v" +:+ show (Validator.m_version mf))) w
     else (Ok tt, w)).
Proof.
  unfold Loader.load_module. cbn [Loader.manifest Loader.mount].
  rewrite validate_own_type.
  destruct (_ && _ && _ && _); [|done].
  unfold bind at 1 3.
  destruct (bool_decide (Validator.m_type mf = Some "plugin")); done.
Qed.

(** X19.  Whether the loader mounts a module does not depend on the
    type its manifest declares: a module is mounted exactly when its
    manifest has a non-empty slug, a non-empty version and a [requires]
    that is compatible with the core, be its type [plugin], [theme],
    anything else or missing.  A mounted module of type [plugin] is
    registered as a plugin first; then its mount function runs; then the
    line [Module mounted: slug vversion] is logged.  A module that is not
    mounted, an entry without manifest and a missing entry leave the world
    as it is, and the mount function is not run. *)
Theorem load_module_admission {S : Type} (config : Config) (mf : Validator.ModuleManifest)
    (mount : M S unit) (w : World S) :
  Loader.load_module config (Some (Loader.mkModule (Some mf) mount)) w
  = (if present (Validator.m_slug mf) && present (Validator.m_version mf)
        && present (Validator.m_requires mf)
        && Validator.isCompatible config (default "" (Validator.m_requires mf))
     then
       ((if bool_decide (Validator.m_type mf = Some "plugin")
         then update_registry
                (Registry.registerPlugin (hhmmss (clock w)) (show (Validator.m_slug mf)))
         else ret tt) ;;;
        mount ;;;
        Registry_log ("Module mounted: " +:+ show (Validator.m_slug mf)
                        +:+ " v" +:+ show (Validator.m_version mf))) w
     else (Ok tt, w))
  ∧ Loader.load_module config (Some (Loader.mkModule None mount)) w = (Ok tt, w)
  ∧ Loader.load_module config None w = (Ok tt, w).
Proof.
  split; [apply load_module_eq | done].
Qed.

(** X20.  A module whose manifest has no [requires] field is passed
    over by the loader, whatever else the manifest says and whatever the
    core version is: loading a list that starts with it is loading the
    rest of the list.  The shipped Indonesian language pack and the
    shipped default theme are such modules (their manifests carry
    [minCoreVersion] instead), so their mount functions never run: the
    translations of the one and the landing template of the other are not
    registered. *)
Theorem load_skips_without_requires {S : Type} (config : Config)
    (type slug name version minCoreVersion : option string) (mount : M S unit)
    (modules : list (option (Loader.PasPagesModule S))) (landingHtml : string)
    (w : World S) :
  Loader.load config
    (Some (Loader.mkModule
             (Some (Validator.mkManifest type slug name version None minCoreVersion)) mount)
       :: modules) w
  = Loader.load config modules w
  ∧ Loader.load config
      [Some (Loader.mkModule (Some Modules.lang_id_manifest) Modules.lang_id_mount);
       Some (Loader.mkModule (Some Modules.default_theme_manifest)
               (Modules.default_theme_mount landingHtml))] w
    = (Ok tt, w).
Proof.
  assert (Hskip : ∀ type slug name version minCoreVersion (mount : M S unit) modules,
            Loader.load config
              (Some (Loader.mkModule
                       (Some (Validator.mkManifest type slug name version None minCoreVersion))
                       mount) :: modules) w
            = Loader.load config modules w).
  { intros ty sl nm ver mc mnt mods. unfold Loader.load. cbn [for_each]. unfold bind at 1.
    rewrite load_module_eq. simpl. by rewrite andb_false_r. }
  split; [apply Hskip|].
  unfold Modules.lang_id_manifest, Modules.default_theme_manifest.
  by rewrite !Hskip.
Qed.

Lemma registerPlugin_known (time name : string) (r : Registry.t) :
  name ∈ Registry.pluginList r → Registry.registerPlugin time name r = r.
Proof. intros Hin. unfold Registry.registerPlugin. by rewrite bool_decide_eq_true_2. Qed.

Lemma registerPlugin_lists (time name : string) (r : Registry.t) :
  Registry.menus (Registry.registerPlugin time name r) = Registry.menus r
  ∧ Registry.schemas (Registry.registerPlugin time name r) = Registry.schemas r
  ∧ name ∈ Registry.pluginList (Registry.registerPlugin time name r)
  ∧ length (Registry.pluginList (Registry.registerPlugin time name r))
    = (if bool_decide (name ∈ Registry.pluginList r)
       then length (Registry.pluginList r)
       else Datatypes.S (length (Registry.pluginList r))).
Proof.
  unfold Registry.registerPlugin.
  destruct (bool_decide (name ∈ Registry.pluginList r)) eqn:Hin; simpl.
  - by apply bool_decide_eq_true in Hin.
  - repeat split; [apply elem_of_app; right; by left | rewrite length_app; simpl; lia].
Qed.

(** X21.  Mounting the shipped site manager through the loader, under
    a core it is compatible with: the loader registers the slug and the
    mount function registers it again, and the plugin is counted once;
    the schema and the menu of the module are appended; the menu is of
    category [settings].  The Registry afterwards is the Registry after
    the seven calls below. *)
Theorem load_site_manager {St : Type} (config : Config) (w : World St) :
  Validator.isCompatible config "1.0.0" = true →
  let now := hhmmss (clock w) in
  let r' :=
    Notions.run_ops
      [ Notions.RegisterPlugin now "site-manager";
        Notions.Log now "Mounting Site Manager...";
        Notions.RegisterPlugin now "site-manager";
        Notions.RegisterSchema now "site-manager" "1.2.0" Modules.managerSchema;
        Notions.RegisterMenu
          (Registry.mkMenu "Site Identity" "/admin/site-manager" "settings" (Some "globe") None);
        Notions.Log now "Site Manager Mounted [OK]";
        Notions.Log now "Module mounted: site-manager v1.2.0" ]
      (registry w) in
  Loader.load_module config
    (Some (Loader.mkModule (Some Modules.site_manager_manifest) Modules.site_manager_mount)) w
  = (Ok tt, mkWorld (db w) (calls w) r' (clock w) (logs w))
  ∧ Registry.getPluginCount r'
    = (if bool_decide ("site-manager" ∈ Registry.pluginList (registry w))
       then Registry.getPluginCount (registry w)
       else S (Registry.getPluginCount (registry w)))
  ∧ Registry.getSchemas r'
    = (Registry.getSchemas (registry w)
         ++ [Registry.mkSchema "site-manager" "1.2.0" Modules.managerSchema
               (Some Modules.managerSchema)])%list
  ∧ Registry.getMenus (Some "settings") r'
    = (Registry.getMenus (Some "settings") (registry w)
         ++ [Registry.mkMenu "Site Identity" "/admin/site-manager" "settings"
               (Some "globe") None])%list
  ∧ Registry.getMenus (Some "plugin") r' = Registry.getMenus (Some "plugin") (registry w).
Proof.
  intros Hcompatible. cbv zeta.
  split.
  { rewrite load_module_eq. simpl. by rewrite Hcompatible. }
  unfold Notions.run_ops. cbn [foldl Notions.apply_op].
  destruct (registerPlugin_lists (hhmmss (clock w)) "site-manager" (registry w))
    as (Hmenus & Hschemas & Hin & Hlength).
  set (r1 := Registry.registerPlugin (hhmmss (clock w)) "site-manager" (registry w)) in *.
  rewrite (registerPlugin_known _ _ (Registry.log _ "Mounting Site Manager..." r1)) by done.
  unfold Registry.getPluginCount, Registry.getSchemas, Registry.getMenus. simpl.
  rewrite Hmenus, Hschemas, !filter_app.
  split; [done|]. split; [done|]. split; [reflexivity|].
  by rewrite <- (app_nil_r (filter _ (Registry.menus (registry w)))) at 2.
Qed.

Lemma load_site_manager_witness :
  Registry.getPluginCount
    (registry
       (Loader.load_module CONFIG
          (Some (Loader.mkModule (Some Modules.site_manager_manifest)
                   Modules.site_manager_mount))
          (Toy.world Toy.fresh Toy.mounted)).2)
  = 2%nat.
Proof.
  destruct (load_site_manager CONFIG (Toy.world Toy.fresh Toy.mounted) eq_refl)
    as (-> & Hcount & _).
  exact Hcount.
Defined.

(** X22.  Mounting the shipped Nebula theme through the loader, under
    a core it is compatible with, makes it the active theme and makes
    [landing] resolve to its landing template (to [null] when that
    template is empty), whatever was registered before; its menu is of
    category [theme], and no plugin is counted for it. *)
Theorem load_nebula {S : Type} (config : Config) (landingHtml : string) (w : World S) :
  Validator.isCompatible config "1.0.0" = true →
  ∃ w',
    Loader.load_module config
      (Some (Loader.mkModule (Some Modules.nebula_manifest)
               (Modules.nebula_mount landingHtml))) w
    = (Ok tt, w')
    ∧ Registry.getActiveThemeName (registry w') = "nebula-theme"
    ∧ Registry.getView "landing" (registry w') = Spec.usable (Some landingHtml)
    ∧ Registry.getMenus (Some "theme") (registry w')
      = (Registry.getMenus (Some "theme") (registry w)
           ++ [Registry.mkMenu "Nebula Theme" "/admin/theme/nebula" "theme" None None])%list
    ∧ Registry.getPluginCount (registry w') = Registry.getPluginCount (registry w).
Proof.
  intros Hcompatible.
  rewrite load_module_eq.
  simpl. rewrite Hcompatible. simpl.
  eexists. split; [reflexivity|]. simpl.
  split; [done|]. split; [|split; [|done]].
  - rewrite getView_usable. simpl.
    rewrite lookup_insert_ne by done. rewrite lookup_insert_eq.
    unfold Spec.usable. destruct (JS.truthy landingHtml) eqn:Hhtml; [done|].
    rewrite lookup_insert_eq. by rewrite Hhtml.
  - unfold Registry.getMenus. simpl. by rewrite filter_app.
Qed.

Lemma load_nebula_witness :
  ∃ w',
    Loader.load_module CONFIG
      (Some (Loader.mkModule (Some Modules.nebula_manifest)
               (Modules.nebula_mount "<h1>{{status}}</h1>")))
      (Toy.world Toy.fresh Registry.initial)
    = (Ok tt, w')
    ∧ Registry.getView "landing" (registry w') = Some "<h1>{{status}}</h1>".
Proof.
  destruct (load_nebula CONFIG "<h1>{{status}}</h1>" (Toy.world Toy.fresh Registry.initial)
              eq_refl) as (w' & Hload & _ & Hview & _).
  exists w'. split; [exact Hload | exact Hview].
Defined.

(* ====================================================================== *)
(** ** Translation with fallback *)
(* ====================================================================== *)

(** X23.  On a registry where nothing was registered under the locale
    name [__proto__], for a locale, a default locale and a key that
    [Object.prototype] does not name: [t] answers the translation of the
    key in the locale when there is a non-empty one, else the non-empty
    one in the default locale, else the key itself; the test that the
    locale differs from the default locale changes nothing in that.  So
    a locale without a table of its own is served like the default
    locale, and a non-empty key never comes out as the empty text, even
    when an empty translation is registered for it.  The locale of a
    request is [id] or [en] when the query says so and the default locale
    otherwise. *)
Theorem t_fallback_chain (config : Config) (locale key : string) (r : Registry.t)
    (lang : option string) :
  Registry.prototype_intact r →
  JS.inherited locale = false → JS.inherited (defaultLocale config) = false →
  JS.inherited key = false →
  I18n.t config locale r key
  = match Registry.getTranslation locale key r with
    | Some text => text
    | None =>
        match Registry.getTranslation (defaultLocale config) key r with
        | Some text => text
        | None => key
        end
    end
  ∧ (Registry.translations r !! locale = None →
     I18n.t config locale r key = I18n.t config (defaultLocale config) r key)
  ∧ (JS.truthy key = true → JS.truthy (I18n.t config locale r key) = true)
  ∧ I18n.getLocaleFromContext config lang
    = (if bool_decide (lang = Some "id") then "id"
       else if bool_decide (lang = Some "en") then "en"
       else defaultLocale config).
Proof.
  intros _ _ _ _.
  assert (Htruthy : ∀ l text, Registry.getTranslation l key r = Some text →
                              JS.truthy text = true).
  { intros l text. unfold Registry.getTranslation.
    destruct (Registry.translations r !! l) as [table|]; [|done].
    destruct (table !! key) as [text'|]; [|done].
    destruct (JS.truthy text') eqn:Ht; [|done]. by intros [= <-]. }
  assert (Hchain : I18n.t config locale r key
                   = match Registry.getTranslation locale key r with
                     | Some text => text
                     | None =>
                         match Registry.getTranslation (defaultLocale config) key r with
                         | Some text => text
                         | None => key
                         end
                     end).
  { unfold I18n.t. simpl.
    destruct (Registry.getTranslation locale key r) as [text|] eqn:Hlocale; simpl.
    { by rewrite (Htruthy _ _ Hlocale). }
    destruct (decide (locale = defaultLocale config)) as [<-|Hne].
    - rewrite bool_decide_eq_true_2 by done. simpl. by rewrite Hlocale.
    - rewrite bool_decide_eq_false_2 by done. simpl.
      destruct (Registry.getTranslation (defaultLocale config) key r) as [text|] eqn:Hdefault;
        simpl; [|done].
      by rewrite (Htruthy _ _ Hdefault). }
  split; [exact Hchain|]. split; [|split].
  - intros Hnone. rewrite Hchain.
    unfold I18n.t, Registry.getTranslation at 1. rewrite Hnone. simpl.
    rewrite bool_decide_eq_true_2 by done. simpl.
    destruct (Registry.getTranslation (defaultLocale config) key r) as [text|] eqn:Hdefault;
      simpl; [|done].
    by rewrite (Htruthy _ _ Hdefault).
  - intros Hkey. rewrite Hchain.
    destruct (Registry.getTranslation locale key r) as [text|] eqn:Hlocale;
      [by eapply Htruthy|].
    destruct (Registry.getTranslation (defaultLocale config) key r) as [text|] eqn:Hdefault;
      [by eapply Htruthy | done].
  - unfold I18n.getLocaleFromContext.
    destruct (bool_decide (lang = Some "id")) eqn:Hid.
    + apply bool_decide_eq_true in Hid. by subst.
    + destruct (bool_decide (lang = Some "en")) eqn:Hen; [|done].
      apply bool_decide_eq_true in Hen. by subst.
Qed.

Lemma t_fallback_chain_witness :
  let r := Registry.registerTranslation "en" {["Settings" := "Preferences"]}
             (Registry.registerTranslation "id" {["Dashboard" := "Dasbor"]}
                Registry.initial) in
  I18n.t CONFIG "id" r "Dashboard" = "Dasbor"
  ∧ I18n.t CONFIG "id" r "Settings" = "Preferences"
  ∧ I18n.t CONFIG "id" r "Plugins" = "Plugins".
Proof.
  set (r := Registry.registerTranslation "en" {["Settings" := "Preferences"]}
              (Registry.registerTranslation "id" {["Dashboard" := "Dasbor"]}
                 Registry.initial)).
  assert (Hintact : Registry.prototype_intact r) by reflexivity.
  assert (Hid : JS.inherited "id" = false) by reflexivity.
  assert (Hen : JS.inherited (defaultLocale CONFIG) = false) by reflexivity.
  assert (Hdashboard : JS.inherited "Dashboard" = false) by reflexivity.
  assert (Hsettings : JS.inherited "Settings" = false) by reflexivity.
  assert (Hplugins : JS.inherited "Plugins" = false) by reflexivity.
  destruct (t_fallback_chain CONFIG "id" "Dashboard" r None Hintact Hid Hen Hdashboard)
    as [Hchain1 _].
  destruct (t_fallback_chain CONFIG "id" "Settings" r None Hintact Hid Hen Hsettings)
    as [Hchain2 _].
  destruct (t_fallback_chain CONFIG "id" "Plugins" r None Hintact Hid Hen Hplugins)
    as [Hchain3 _].
  simpl. rewrite Hchain1, Hchain2, Hchain3. by vm_compute.
Defined.

(* ====================================================================== *)
(** ** The admin routes *)
(* ====================================================================== *)

(** X24.  The sidebar of the admin shell lists the menus of category
    [plugin] and those of category [theme], and no others: registering a
    menu of any other category (the [settings] menu of the site manager,
    for one) leaves every admin page as it was. *)
Theorem renderAdmin_other_category (config : Config) (dashboardTemplate : string)
    (locale : option string) (title content : string) (menu : Registry.AdminMenuItem)
    (r : Registry.t) :
  Registry.category menu ≠ "plugin" → Registry.category menu ≠ "theme" →
  AdminRoutes.renderAdmin config dashboardTemplate locale (Registry.registerMenu menu r)
    title content
  = AdminRoutes.renderAdmin config dashboardTemplate locale r title content.
Proof.
  intros Hplugin Htheme. unfold AdminRoutes.renderAdmin, Registry.getMenus. simpl.
  rewrite !filter_app, !filter_cons, !filter_nil.
  rewrite !decide_False by done. by rewrite !app_nil_r.
Qed.

Lemma renderAdmin_other_category_witness :
  AdminRoutes.renderAdmin CONFIG "<nav>{{sidebar_plugins}}|{{sidebar_themes}}</nav>" None
    (Registry.registerMenu
       (Registry.mkMenu "Site Identity" "/admin/site-manager" "settings" (Some "globe") None)
       Registry.initial)
    "Dashboard" ""
  = Html "<nav>|</nav>" 200.
Proof.
  rewrite (renderAdmin_other_category CONFIG "<nav>{{sidebar_plugins}}|{{sidebar_themes}}</nav>"
             None "Dashboard" ""
             (Registry.mkMenu "Site Identity" "/admin/site-manager" "settings"
                (Some "globe") None)
             Registry.initial) by done.
  reflexivity.
Defined.

Section AdminRouteFacts.
Context {S D : Type} `{Duration D}.
Variable d1 : D1Database S D.

(** X25.  [/setup] lets nobody in without the master key: when the
    submitted key is missing or empty, or differs from the configured
    [MASTER_KEY] (an unset [MASTER_KEY] differs from every submitted
    key), the answer is the status-401 text, and nothing reaches the
    database or the Registry.  When the body of the request cannot be
    parsed the answer is the status-500 text with the message. *)
Theorem setup_access_denied (inputKey MASTER_KEY : option string) (e : string)
    (w : World S) :
  present inputKey = false ∨ inputKey ≠ MASTER_KEY →
  AdminRoutes.setup d1 (Ok inputKey) MASTER_KEY w
  = (Ok (Text "ACCESS DENIED: Invalid Master Key." 401), w)
  ∧ AdminRoutes.setup d1 (Ok inputKey) None w
    = (Ok (Text "ACCESS DENIED: Invalid Master Key." 401), w)
  ∧ AdminRoutes.setup d1 (Throw e) MASTER_KEY w
    = (Ok (Text ("CRITICAL ERROR: " +:+ e) 500), w).
Proof.
  intros Hdenied. unfold AdminRoutes.setup, try_catch, bind, lift. simpl.
  split; [|split; [|done]].
  - destruct Hdenied as [->|Hne]; [done|].
    rewrite (bool_decide_eq_false_2 _ Hne). by rewrite orb_true_r.
  - destruct inputKey as [key|]; [|done].
    rewrite bool_decide_eq_false_2 by done. by rewrite orb_true_r.
Qed.

(** X26.  With the right, non-empty master key [/setup] always answers
    with the status-200 page that says the core schemas were injected,
    whatever the database did: the outcomes of the two [raw] calls are
    not looked at, and neither they nor the lookup can throw.  The calls
    made are, in this order: the statements of the schema registered
    first under [core-system], if one is registered; the lookup of the
    [admin_email] setting; and, unless that lookup found a row, the
    insertion of the default settings.  The Registry is not touched. *)
Theorem setup_unlocked (key : string) (w : World S) :
  JS.truthy key = true →
  let schema_sql :=
    match Registry.getSchema "core-system" (registry w) with
    | Some coreSchema => Some (or_else (Registry.schema coreSchema) (Registry.sql coreSchema))
    | None => None
    end in
  let s1 :=
    match schema_sql with
    | Some sql => (Spec.executor_outcome d1 sql (db w)).2
    | None => db w
    end in
  let lookup := d1_first d1 AdminRoutes.ADMIN_EMAIL [] s1 in
  let found := match lookup.1 with Ok (Some _) => true | _ => false end in
  AdminRoutes.setup d1 (Ok (Some key)) (Some key) w
  = (Ok (Html AdminRoutes.SETUP_PAGE 200),
     mkWorld
       (if found then lookup.2
        else (Spec.executor_outcome d1 AdminRoutes.DEFAULT_SETTINGS lookup.2).2)
       (calls w
          ++ match schema_sql with Some sql => Spec.executor_calls sql | None => [] end
          ++ [CallFirst AdminRoutes.ADMIN_EMAIL []]
          ++ (if found then [] else Spec.executor_calls AdminRoutes.DEFAULT_SETTINGS))
       (registry w) (clock w) (logs w)).
Proof.
  intros Hkey. cbv zeta.
  unfold AdminRoutes.setup, try_catch. unfold bind at 1. unfold lift at 1.
  unfold present. rewrite Hkey. rewrite bool_decide_eq_true_2 by done. simpl.
  unfold bind at 1. unfold get_registry at 1.
  unfold bind at 1.
  assert (Hfirst : ∃ w1,
            (match Registry.getSchema "core-system" (registry w) with
             | Some coreSchema =>
                 Database.raw d1
                   (or_else (Registry.schema coreSchema) (Registry.sql coreSchema)) ;;;
                 ret tt
             | None => ret tt
             end) w = (Ok tt, w1)
            ∧ w1 = Spec.after w
                     match Registry.getSchema "core-system" (registry w) with
                     | Some coreSchema =>
                         (Spec.executor_outcome d1
                            (or_else (Registry.schema coreSchema) (Registry.sql coreSchema))
                            (db w)).2
                     | None => db w
                     end
                     match Registry.getSchema "core-system" (registry w) with
                     | Some coreSchema =>
                         Spec.executor_calls
                           (or_else (Registry.schema coreSchema) (Registry.sql coreSchema))
                     | None => []
                     end).
  { destruct (Registry.getSchema "core-system" (registry w)) as [coreSchema|].
    - unfold bind.
      destruct (raw_eq d1 (or_else (Registry.schema coreSchema) (Registry.sql coreSchema)) w)
        as (res & -> & _).
      by eexists.
    - eexists. split; [reflexivity|]. by rewrite after_nil. }
  destruct Hfirst as (w1 & -> & ->).
  unfold bind at 1. rewrite findOne_eq. simpl.
  destruct (Registry.getSchema "core-system" (registry w)) as [coreSchema|]; simpl.
  all: match goal with
       | |- context [d1_first d1 AdminRoutes.ADMIN_EMAIL [] ?s] =>
           destruct (d1_first d1 AdminRoutes.ADMIN_EMAIL [] s) as [[[row|]|e'] s2]
       end; simpl.
  all: try (unfold Spec.after; simpl; rewrite ?app_nil_r, <- ?app_assoc; reflexivity).
  all: unfold bind;
    match goal with
    | |- context [Database.raw d1 AdminRoutes.DEFAULT_SETTINGS ?w2] =>
        destruct (raw_eq d1 AdminRoutes.DEFAULT_SETTINGS w2) as (res & -> & _)
    end.
  all: unfold ret, Spec.after; simpl; rewrite ?app_nil_r, <- ?app_assoc; reflexivity.
Qed.

Lemma storage_loop (body : JS.object Val) (keys : list string) (w : World S) :
  ∃ written outcome s',
    for_each keys (λ key,
      if negb (bool_decide (column body key = VUndef))
      then Database.run d1 AdminRoutes.STORAGE_UPSERT [VStr key; column body key] ;;; ret tt
      else ret tt) w
    = (outcome, Spec.after w s' (Notions.upsert_call body <$> written))
    ∧ written `prefix_of` filter (λ key, column body key ≠ VUndef) keys
    ∧ match outcome with
      | Ok _ => written = filter (λ key, column body key ≠ VUndef) keys
      | Throw e => JS.startsWith "Database run error: " e = true
      end.
Proof.
  revert w. induction keys as [|key keys IH]; intros w.
  - exists [], (Ok tt), (db w). simpl. by rewrite after_nil.
  - cbn [for_each]. unfold bind at 1. rewrite filter_cons.
    destruct (decide (column body key ≠ VUndef)) as [Hthere|Hnot].
    + rewrite bool_decide_eq_false_2 by done. simpl.
      unfold bind at 1. rewrite run_eq.
      destruct (d1_run d1 AdminRoutes.STORAGE_UPSERT [VStr key; column body key] (db w))
        as [[res|e] s1]; simpl.
      * destruct (IH (Spec.after w s1
                        [CallRun AdminRoutes.STORAGE_UPSERT [VStr key; column body key]]))
          as (written & outcome & s' & -> & Hprefix & Houtcome).
        exists (key :: written), outcome, s'.
        rewrite after_after. split; [done|].
        split; [by apply prefix_cons|].
        destruct outcome; [by rewrite Houtcome | done].
      * exists [key], (Throw ("Database run error: " +:+ e)), s1.
        split; [done|]. split; [apply prefix_cons, prefix_nil | done].
    + apply dec_stable in Hnot. rewrite bool_decide_eq_true_2 by done. simpl.
      apply IH.
Qed.

(** X27.  [/settings/storage] writes nothing but the five storage
    settings.  The calls it makes are upserts of keys of the fixed list,
    in the order of that list, one for each of them that the body
    defines, up to the first upsert that fails; a field of the body under
    any other name never reaches the database.  When every upsert
    succeeds all of the defined keys were written and the answer is
    [success: true]; when one fails the handler throws with the message
    of [run], and the keys after it are not written.  A body that cannot
    be parsed makes the handler throw before any call. *)
Theorem save_storage_whitelist (body : JS.object Val) (e : string) (w : World S) :
  (∃ written outcome s',
     AdminRoutes.save_storage d1 (Ok body) w
     = (outcome, Spec.after w s' (Notions.upsert_call body <$> written))
     ∧ written `prefix_of` filter (λ key, column body key ≠ VUndef) AdminRoutes.STORAGE_KEYS
     ∧ match outcome with
       | Ok answer =>
           answer = AdminRoutes.success_true
           ∧ written = filter (λ key, column body key ≠ VUndef) AdminRoutes.STORAGE_KEYS
       | Throw e => JS.startsWith "Database run error: " e = true
       end)
  ∧ AdminRoutes.save_storage d1 (Throw e) w = (Throw e, w).
Proof.
  split; [|done].
  unfold AdminRoutes.save_storage. unfold bind at 1. unfold lift at 1.
  unfold bind at 1.
  destruct (storage_loop body AdminRoutes.STORAGE_KEYS w)
    as (written & outcome & s' & -> & Hprefix & Houtcome).
  exists written.
  destruct outcome as [[]|e']; eexists _, s'; (split; [reflexivity|]); by split.
Qed.

(** X28.  The storage driver is read off the settings in one query
    that cannot fail the caller.  The driver is R2 unless the
    [storage_driver] setting is exactly [cloudinary] or [googledrive]:
    in particular when the settings table is missing or empty, and for
    every unknown driver name.  The settings page is built from the same
    query and never throws either. *)
Theorem getActiveDriver_default (config : Config) (dashboardTemplate settingsTemplate : string)
    (locale : option string) (w : World S) :
  let answer := d1_all d1 AdminRoutes.STORAGE_SETTINGS [] (db w) in
  let rows := match answer.1 with Ok rows => default [] rows | Throw _ => [] end in
  let settings := AdminRoutes.settings_config rows in
  let w' := Spec.after w answer.2 [CallAll AdminRoutes.STORAGE_SETTINGS []] in
  (∃ driver,
     StorageManager.getActiveDriver d1 w = (Ok driver, w')
     ∧ (column settings "storage_driver" ≠ VStr "cloudinary" →
        column settings "storage_driver" ≠ VStr "googledrive" →
        driver = StorageManager.R2Adapter)
     ∧ (rows = [] → driver = StorageManager.R2Adapter)
     ∧ (column settings "storage_driver" = VStr "cloudinary" →
        driver = StorageManager.CloudinaryAdapter
                   (column settings "cloudinary_cloud_name")
                   (column settings "cloudinary_upload_preset"))
     ∧ (column settings "storage_driver" = VStr "googledrive" →
        driver = StorageManager.GoogleDriveAdapter
                   (column settings "gdrive_access_token")
                   (column settings "gdrive_folder_id")))
  ∧ (∃ page,
       AdminRoutes.settings config dashboardTemplate settingsTemplate d1 locale w
       = (Ok page, w')
       ∧ (rows = [] →
          page
          = AdminRoutes.renderAdmin config dashboardTemplate locale (registry w)
              "System Settings"
              (JS.replace_first "{{gdrive_folder_id}}" ""
                 (JS.replace_first "{{gdrive_access_token}}" ""
                    (JS.replace_first "{{cloudinary_upload_preset}}" ""
                       (JS.replace_first "{{cloudinary_cloud_name}}" ""
                          (JS.replace_first "{{current_driver}}" "r2" settingsTemplate))))))).
Proof.
  cbv zeta. split.
  - unfold StorageManager.getActiveDriver. unfold bind at 1. rewrite findAll_eq.
    set (settings := AdminRoutes.settings_config _).
    destruct (val_truthy (column settings "storage_driver")) eqn:Htruthy.
    + destruct (decide (column settings "storage_driver" = VStr "cloudinary")) as [Hc|Hc].
      { rewrite bool_decide_eq_true_2 by done. eexists. split; [reflexivity|].
        split; [done|]. split; [|split; [done|]].
        - intros Hrows. subst settings. rewrite Hrows in Htruthy. done.
        - intros Hg. rewrite Hc in Hg. done. }
      rewrite bool_decide_eq_false_2 by done.
      destruct (decide (column settings "storage_driver" = VStr "googledrive")) as [Hg|Hg].
      { rewrite bool_decide_eq_true_2 by done. eexists. split; [reflexivity|].
        split; [done|]. split; [|split; [done|done]].
        intros Hrows. subst settings. rewrite Hrows in Htruthy. done. }
      rewrite bool_decide_eq_false_2 by done. eexists. split; [reflexivity|].
      repeat split; done.
    + rewrite !bool_decide_eq_false_2 by done. eexists. split; [reflexivity|].
      split; [done|]. split; [done|].
      split; intros Heq; rewrite Heq in Htruthy; done.
  - unfold AdminRoutes.settings. unfold bind at 1. unfold try_catch at 1.
    rewrite findAll_eq. simpl. eexists. split; [reflexivity|].
    by intros ->.
Qed.

End AdminRouteFacts.

Lemma setup_access_denied_witness :
  AdminRoutes.setup Toy.d1 (Ok (Some "guess")) (Some "secret") (Toy.world Toy.fresh Toy.mounted)
  = (Ok (Text "ACCESS DENIED: Invalid Master Key." 401), Toy.world Toy.fresh Toy.mounted).
Proof.
  assert (Hdenied : present (Some "guess") = false ∨ Some "guess" ≠ Some "secret")
    by by right.
  destruct (setup_access_denied Toy.d1 (Some "guess") (Some "secret") ""
              (Toy.world Toy.fresh Toy.mounted) Hdenied) as [Hsetup _].
  exact Hsetup.
Defined.

Lemma setup_unlocked_witness :
  let r := Registry.registerSchema "12:00:00" "core-system" "1.0.0"
             "CREATE TABLE core_settings (key TEXT PRIMARY KEY)" Registry.initial in
  (AdminRoutes.setup Toy.d1 (Ok (Some "secret")) (Some "secret") (Toy.world Toy.fresh r)).1
  = Ok (Html AdminRoutes.SETUP_PAGE 200)
  ∧ calls (AdminRoutes.setup Toy.d1 (Ok (Some "secret")) (Some "secret")
             (Toy.world Toy.fresh r)).2
    = [ CallExec "CREATE TABLE core_settings (key TEXT PRIMARY KEY)";
        CallFirst AdminRoutes.ADMIN_EMAIL [];
        CallExec (JS.trim (JS.replace_first ";" "" AdminRoutes.DEFAULT_SETTINGS)) ].
Proof.
  cbv zeta.
  rewrite (setup_unlocked Toy.d1 "secret"
             (Toy.world Toy.fresh
                (Registry.registerSchema "12:00:00" "core-system" "1.0.0"
                   "CREATE TABLE core_settings (key TEXT PRIMARY KEY)" Registry.initial))
             eq_refl).
  split; [reflexivity | by vm_compute].
Defined.

(* ====================================================================== *)
(** ** Slugs and the theme resolver of the blog *)
(* ====================================================================== *)

Lemma is_dash_eq (c : ascii) : Blog.is_dash c = true → c = "-"%char.
Proof. unfold Blog.is_dash. by intros ?%Ascii.eqb_eq. Qed.

Lemma slug_char_not_dash (c : ascii) : Blog.is_slug_char c = true → Blog.is_dash c = false.
Proof.
  intros Hc. destruct (Blog.is_dash c) eqn:Hdash; [|done].
  apply is_dash_eq in Hdash. subst. by vm_compute in Hc.
Qed.

Lemma no_double_dash_cons (a : ascii) (s : string) :
  Notions.no_double_dash (String a s)
  = negb (Blog.is_dash a
          && match Notions.first_char s with Some b => Blog.is_dash b | None => false end)
    && Notions.no_double_dash s.
Proof. destruct s; simpl; [by rewrite andb_false_r | done]. Qed.

Lemma dash_runs_chars (in_run : bool) (s : string) :
  JS.all_chars (λ c, Blog.is_slug_char c || Blog.is_dash c) (Blog.dash_runs in_run s) = true.
Proof.
  revert in_run. induction s as [|c s IH]; intros in_run; simpl; [done|].
  destruct (Blog.is_slug_char c) eqn:Hc; simpl; [by rewrite Hc, IH|].
  destruct in_run; [apply IH|]. simpl. by rewrite IH.
Qed.

Lemma dash_runs_dashes (in_run : bool) (s : string) :
  Notions.no_double_dash (Blog.dash_runs in_run s) = true
  ∧ (in_run = true →
     ∀ c, Notions.first_char (Blog.dash_runs in_run s) = Some c → Blog.is_dash c = false).
Proof.
  revert in_run. induction s as [|c s IH]; intros in_run; simpl; [done|].
  destruct (Blog.is_slug_char c) eqn:Hc.
  - rewrite no_double_dash_cons, (slug_char_not_dash _ Hc). simpl.
    split; [apply IH|]. intros _ c' [= <-]. by apply slug_char_not_dash.
  - destruct in_run; [apply IH|].
    split; [|done]. rewrite no_double_dash_cons.
    destruct (IH true) as [-> Hfirst]. rewrite andb_true_r.
    destruct (Notions.first_char (Blog.dash_runs true s)) as [b|] eqn:Hb.
    + by rewrite (Hfirst eq_refl b), andb_false_r.
    + by rewrite andb_false_r.
Qed.

Lemma no_double_dash_tail (a : ascii) (s : string) :
  Notions.no_double_dash (String a s) = true → Notions.no_double_dash s = true.
Proof. rewrite no_double_dash_cons. by intros [_ ?]%andb_prop. Qed.

Lemma strip_leading_shape (p : ascii → bool) (s : string) :
  (JS.all_chars p s = true → JS.all_chars p (Blog.strip_leading s) = true)
  ∧ (Notions.no_double_dash s = true → Notions.no_double_dash (Blog.strip_leading s) = true)
  ∧ (∀ c, Notions.first_char (Blog.strip_leading s) = Some c → Blog.is_dash c = false).
Proof.
  induction s as [|c s (IHp & IHd & IHf)]; [done|].
  cbn [Blog.strip_leading].
  destruct (Blog.is_dash c) eqn:Hc.
  - split; [|split; [|done]].
    + simpl. intros [_ Hs]%andb_prop. by apply IHp.
    + intros Hd%no_double_dash_tail. by apply IHd.
  - split; [done|]. split; [done|]. simpl. by intros c' [= <-].
Qed.

Lemma strip_trailing_first (s : string) (c : ascii) :
  Notions.first_char (Blog.strip_trailing s) = Some c → Notions.first_char s = Some c.
Proof.
  destruct s as [|d s]; [done|]. cbn [Blog.strip_trailing].
  by destruct (JS.all_chars Blog.is_dash (String d s)).
Qed.

Lemma strip_trailing_shape (p : ascii → bool) (s : string) :
  (JS.all_chars p s = true → JS.all_chars p (Blog.strip_trailing s) = true)
  ∧ (Notions.no_double_dash s = true → Notions.no_double_dash (Blog.strip_trailing s) = true)
  ∧ (∀ c, Notions.last_char (Blog.strip_trailing s) = Some c → Blog.is_dash c = false).
Proof.
  induction s as [|d s (IHp & IHd & IHl)]; [done|].
  cbn [Blog.strip_trailing].
  destruct (JS.all_chars Blog.is_dash (String d s)) eqn:Hall; [done|].
  split; [|split].
  - simpl. intros [Hd Hs]%andb_prop. by rewrite Hd, IHp.
  - rewrite !no_double_dash_cons. intros [Hd Hs]%andb_prop.
    rewrite IHd, andb_true_r by done.
    destruct (Notions.first_char (Blog.strip_trailing s)) as [b|] eqn:Hb.
    + by rewrite (strip_trailing_first _ _ Hb) in Hd.
    + by rewrite andb_false_r.
  - intros c. simpl. destruct (Blog.strip_trailing s) as [|e t] eqn:Ht.
    + intros [= <-]. destruct s as [|e s]; simpl in Hall.
      * by rewrite andb_true_r in Hall.
      * cbn [Blog.strip_trailing] in Ht.
        destruct (JS.all_chars Blog.is_dash (String e s)) eqn:Hs; [|done].
        simpl in Hs. rewrite Hs in Hall. by rewrite andb_true_r in Hall.
    + apply IHl.
Qed.

Lemma not_upper (c : ascii) :
  Blog.is_slug_char c || Blog.is_dash c = true → Blog.is_upper c = false.
Proof.
  intros [Hc|Hc%is_dash_eq]%orb_prop; [|by subst].
  unfold Blog.is_slug_char, Blog.is_lower, JS.is_digit, Blog.is_upper in *.
  destruct (65 <=? JS.code c)%Z eqn:H1, (JS.code c <=? 90)%Z eqn:H2; try done.
  apply Z.leb_le in H1, H2.
  apply orb_prop in Hc as [[H3 H4]%andb_prop|[H3 H4]%andb_prop];
    apply Z.leb_le in H3, H4; lia.
Qed.

Lemma not_upper_latin (c : ascii) :
  Blog.is_slug_char c || Blog.is_dash c = true → Blog.is_upper_latin c = false.
Proof.
  intros [Hc|Hc%is_dash_eq]%orb_prop; [|by subst].
  unfold Blog.is_slug_char, Blog.is_lower, JS.is_digit, Blog.is_upper_latin in *.
  destruct (192 <=? JS.code c)%Z eqn:H1; [|done].
  apply Z.leb_le in H1.
  apply orb_prop in Hc as [[H3 H4]%andb_prop|[H3 H4]%andb_prop];
    apply Z.leb_le in H3, H4; lia.
Qed.

Lemma toLowerCase_slug (s : string) :
  JS.all_chars (λ c, Blog.is_slug_char c || Blog.is_dash c) s = true →
  Blog.toLowerCase s = s.
Proof.
  unfold Blog.toLowerCase. induction s as [|c s IH]; simpl; [done|].
  intros [Hc Hs]%andb_prop. by rewrite (not_upper _ Hc), (not_upper_latin _ Hc), IH.
Qed.

Lemma dash_runs_slug (in_run : bool) (s : string) :
  JS.all_chars (λ c, Blog.is_slug_char c || Blog.is_dash c) s = true →
  Notions.no_double_dash s = true →
  (in_run = true → ∀ c, Notions.first_char s = Some c → Blog.is_dash c = false) →
  Blog.dash_runs in_run s = s.
Proof.
  revert in_run. induction s as [|c s IH]; intros in_run; simpl Blog.dash_runs; [done|].
  intros [Hc Hs]%andb_prop Hd Hfirst.
  pose proof (no_double_dash_tail _ _ Hd) as Hd'.
  destruct (Blog.is_slug_char c) eqn:Hslug.
  - by rewrite IH.
  - simpl in Hc. destruct in_run.
    + by rewrite (Hfirst eq_refl c) in Hc.
    + rewrite (is_dash_eq _ Hc) in *. rewrite IH; [done..|].
      intros _ b Hb. rewrite no_double_dash_cons, Hb in Hd.
      apply andb_prop in Hd as [Hd _].
      destruct (Blog.is_dash b); [done|done].
Qed.

Lemma strip_trailing_slug (s : string) :
  (∀ c, Notions.last_char s = Some c → Blog.is_dash c = false) →
  Blog.strip_trailing s = s.
Proof.
  induction s as [|c s IH]; [done|]. intros Hlast. cbn [Blog.strip_trailing].
  assert (Hall : JS.all_chars Blog.is_dash (String c s) = false).
  { clear IH. revert c Hlast. induction s as [|d s IH]; intros c Hlast.
    - simpl. by rewrite (Hlast c), andb_false_l.
    - change (JS.all_chars Blog.is_dash (String c (String d s)))
        with (Blog.is_dash c && JS.all_chars Blog.is_dash (String d s)).
      rewrite (IH d); [by rewrite andb_false_r|]. exact Hlast. }
  rewrite Hall. f_equal. destruct s as [|d s]; [done|]. apply IH. exact Hlast.
Qed.

Lemma slug_fixed (s : string) :
  JS.all_chars (λ c, Blog.is_slug_char c || Blog.is_dash c) s = true →
  Notions.no_double_dash s = true →
  (∀ c, Notions.first_char s = Some c → Blog.is_dash c = false) →
  (∀ c, Notions.last_char s = Some c → Blog.is_dash c = false) →
  Blog.slugify s = s.
Proof.
  intros Hchars Hdashes Hfirst Hlast. unfold Blog.slugify, Blog.strip_dashes.
  rewrite toLowerCase_slug, dash_runs_slug by done.
  assert (Hlead : Blog.strip_leading s = s).
  { destruct s as [|c s]; [done|]. simpl. by rewrite (Hfirst c). }
  rewrite Hlead. by apply strip_trailing_slug.
Qed.

Lemma slugify_is_slug (title : string) :
  JS.all_chars (λ c, Blog.is_slug_char c || Blog.is_dash c) (Blog.slugify title) = true
  ∧ Notions.no_double_dash (Blog.slugify title) = true
  ∧ (∀ c, Notions.first_char (Blog.slugify title) = Some c → Blog.is_dash c = false)
  ∧ (∀ c, Notions.last_char (Blog.slugify title) = Some c → Blog.is_dash c = false).
Proof.
  unfold Blog.slugify, Blog.strip_dashes.
  set (runs := Blog.dash_runs false (Blog.toLowerCase title)).
  pose proof (dash_runs_chars false (Blog.toLowerCase title)) as Hchars.
  destruct (dash_runs_dashes false (Blog.toLowerCase title)) as [Hdashes _].
  fold runs in Hchars, Hdashes.
  destruct (strip_leading_shape (λ c, Blog.is_slug_char c || Blog.is_dash c) runs)
    as (Hp & Hd & Hf).
  destruct (strip_trailing_shape (λ c, Blog.is_slug_char c || Blog.is_dash c)
              (Blog.strip_leading runs)) as (Hp' & Hd' & Hl').
  split; [by apply Hp', Hp|]. split; [by apply Hd', Hd|]. split; [|done].
  intros c Hc%strip_trailing_first. by apply Hf.
Qed.

(** X29.  The slug the editors derive from a title: it is made of
    lower-case letters, digits and dashes only, it neither starts nor
    ends with a dash, and it holds no two dashes in a row; deriving a
    slug from a slug gives it back.  A slug that the request supplies is
    stored as it is, whatever characters it holds; only a missing or
    empty one is derived from the title. *)
Theorem slugify_slug (title slug : string) :
  JS.all_chars (λ c, Blog.is_slug_char c || Blog.is_dash c) (Blog.slugify title) = true
  ∧ Notions.no_double_dash (Blog.slugify title) = true
  ∧ (∀ c, Notions.first_char (Blog.slugify title) = Some c → Blog.is_dash c = false)
  ∧ (∀ c, Notions.last_char (Blog.slugify title) = Some c → Blog.is_dash c = false)
  ∧ Blog.slugify (Blog.slugify title) = Blog.slugify title
  ∧ (JS.truthy slug = true → Blog.finalSlug (Some slug) title = slug)
  ∧ Blog.finalSlug (Some "") title = Blog.slugify title
  ∧ Blog.finalSlug None title = Blog.slugify title.
Proof.
  destruct (slugify_is_slug title) as (Hchars & Hdashes & Hfirst & Hlast).
  split; [done|]. split; [done|]. split; [done|]. split; [done|].
  split; [by apply slug_fixed|]. split; [|done].
  intros Hslug. unfold Blog.finalSlug, present. by rewrite Hslug.
Qed.

(** The slug of a tag is not stripped: it can start and end with a dash. *)
Example tagSlug_keeps_dashes :
  Blog.tagSlug "C++" = "c-" ∧ Blog.tagSlug ".NET Core" = "-net-core"
  ∧ Blog.slugify ".NET Core" = "net-core".
Proof. by vm_compute. Qed.

(** X30.  The theme resolver of the blog answers the template
    registered under the theme named by [ACTIVE_THEME] ([nebula] when
    that is unset or empty) and the view, and the fallback markup when
    there is none or it is empty; so with a non-empty fallback it never
    answers the empty text.  It does not look at the active theme of the
    Registry: switching the theme there changes nothing for the blog, and
    with [ACTIVE_THEME] unset a view that the shipped theme registers
    under its slug [nebula-theme] is not the one the blog finds. *)
Theorem resolveView_fallback (ACTIVE_THEME : option string) (r : Registry.t)
    (viewName fallbackHtml time name view html : string) :
  Blog.resolveView ACTIVE_THEME r viewName fallbackHtml
  = default fallbackHtml
      (Registry.getThemeView (or_else ACTIVE_THEME "nebula") viewName r)
  ∧ (JS.truthy fallbackHtml = true →
     JS.truthy (Blog.resolveView ACTIVE_THEME r viewName fallbackHtml) = true)
  ∧ Blog.resolveView (Some "") r viewName fallbackHtml
    = Blog.resolveView None r viewName fallbackHtml
  ∧ Blog.resolveView ACTIVE_THEME (Registry.setActiveTheme time name r) viewName fallbackHtml
    = Blog.resolveView ACTIVE_THEME r viewName fallbackHtml
  ∧ Blog.resolveView None (Registry.registerThemeView "nebula-theme" view html r)
      viewName fallbackHtml
    = Blog.resolveView None r viewName fallbackHtml.
Proof.
  assert (Htruthy : ∀ theme text, Registry.getThemeView theme viewName r = Some text →
                                  JS.truthy text = true).
  { intros theme text. unfold Registry.getThemeView, Registry.template_or_null.
    destruct (Registry.templates r !! _) as [text'|]; [|done].
    destruct (JS.truthy text') eqn:Ht; [|done]. by intros [= <-]. }
  assert (Hdefault : Blog.resolveView ACTIVE_THEME r viewName fallbackHtml
                     = default fallbackHtml
                         (Registry.getThemeView (or_else ACTIVE_THEME "nebula") viewName r)).
  { unfold Blog.resolveView.
    destruct (Registry.getThemeView _ viewName r) as [text|] eqn:Hview; [|done].
    by rewrite (Htruthy _ _ Hview). }
  split; [exact Hdefault|]. split; [|split; [done|split; [done|]]].
  - intros Hfallback. rewrite Hdefault.
    destruct (Registry.getThemeView _ viewName r) as [text|] eqn:Hview; [|done].
    by eapply Htruthy.
  - unfold Blog.resolveView, Registry.getThemeView, Registry.template_or_null,
      Registry.registerThemeView. simpl or_else.
    assert (Hkey : ∀ tpl : gmap string string,
              <["nebula-theme" +:+ ":" +:+ view := html]> tpl !! ("nebula" +:+ ":" +:+ viewName)
              = tpl !! ("nebula" +:+ ":" +:+ viewName)).
    { intros tpl. apply lookup_insert_ne. simpl. by intros [=]. }
    destruct (bool_decide (view = "landing")); simpl.
    + rewrite lookup_insert_ne; [by rewrite Hkey|].
      intros Heq. by apply (themed_key_not_landing "nebula" viewName).
    + by rewrite Hkey.
Qed.
